(** * pptx_to_markdown: a shallow embedding of the converter

    The development embeds [extract_images_from_pptx],
    [convert_pptx_to_markdown], [batch_convert] and [main] (after the
    command line is parsed) of [src/pptx_to_markdown.py] together with
    the pieces of the Python runtime they call ([pathlib], [os], [shutil],
    [zipfile], [subprocess]), and proves the properties of the specification
    about them, and further properties of the batch and of the command
    line.

    Conventions.
    - A Python [str] is a Rocq [string]: the sequence of its UTF-8 code
      units.  Comparison of such strings byte by byte agrees with Python's
      comparison by code point, and writing a [str] to a file opened with
      [encoding='utf-8'] stores exactly these code units (POSIX: no
      translation of line ends).
    - A [Path] is the list of its components, outermost first; the empty
      list is the root of the tree the paths are read in.
    - The file system is a finite map from paths to nodes; symbolic links,
      permissions and time stamps are not represented, so a removal never
      fails for lack of rights.
    - A computation takes a world (file system and console) and returns a
      result, a value or a raised exception, with the world it leaves: an
      exception keeps the writes made before it.
    - External processes are oracles of the environment: they return a
      completed process (or fail to start) and leave the file system alone.
      Only exceptions derived from [Exception] are represented. *)

From Stdlib Require Import ZArith Ascii.
From stdpp Require Import gmap strings list sorting fin_maps.

Local Open Scope Z_scope.
Local Open Scope nat_scope.

(** ** Names: the part of [pathlib.PurePath] the program uses *)

Module PurePath.

(** [str.rfind(c)]: index of the last occurrence of [c], if any. *)
Fixpoint rfind (c : ascii) (s : string) : option nat :=
  match s with
  | EmptyString => None
  | String a s' =>
      match rfind c s' with
      | Some i => Some (S i)
      | None => if Ascii.eqb a c then Some 0 else None
      end
  end.

(** [PurePath.suffix] on a final component:
    [i = name.rfind('.'); name[i:] if 0 < i < len(name) - 1 else ''] *)
Definition suffix (name : string) : string :=
  match rfind "." name with
  | Some i =>
      if (0 <? i) && (i <? String.length name - 1)
      then String.substring i (String.length name - i) name
      else ""
  | None => ""
  end.

(** [PurePath.stem]: [name[:i]] under the same test, else [name]. *)
Definition stem_of (name : string) : string :=
  match rfind "." name with
  | Some i =>
      if (0 <? i) && (i <? String.length name - 1)
      then String.substring 0 i name
      else name
  | None => name
  end.

(** [str.lower] on the code units: the letters [A-Z] are shifted, every
    other unit is kept.  No character outside ASCII lowers to one of the
    letters of the allow-list below, so the membership test of the
    extractor is the same as with the full Unicode mapping. *)
Definition lower_ascii (c : ascii) : ascii :=
  let n := nat_of_ascii c in
  if (65 <=? n) && (n <=? 90) then ascii_of_nat (n + 32) else c.

Fixpoint lower (s : string) : string :=
  match s with
  | EmptyString => EmptyString
  | String a s' => String (lower_ascii a) (lower s')
  end.

(** [str.strip()] removes from both ends the characters of
    [str.isspace], here in their UTF-8 encodings:
    - one unit: U+0009-000D, U+001C-001F and U+0020;
    - two units: U+0085 and U+00A0 ([C2 85], [C2 A0]);
    - three units: U+1680 ([E1 9A 80]), U+2000-200A, U+2028, U+2029 and
      U+202F ([E2 80 80]-[E2 80 8A], [E2 80 A8], [E2 80 A9], [E2 80 AF]),
      U+205F ([E2 81 9F]) and U+3000 ([E3 80 80]).
    In well-formed UTF-8 such a sequence at either end of the text is the
    whole encoding of the first or last character. *)
Definition isspace (c : ascii) : bool :=
  let n := nat_of_ascii c in
  ((9 <=? n) && (n <=? 13)) || ((28 <=? n) && (n <=? 32)).

Definition isspace2 (a b : ascii) : bool :=
  (nat_of_ascii a =? 194) &&
  ((nat_of_ascii b =? 133) || (nat_of_ascii b =? 160)).

Definition isspace3 (a b c : ascii) : bool :=
  let x := nat_of_ascii a in
  let y := nat_of_ascii b in
  let z := nat_of_ascii c in
  ((x =? 225) && (y =? 154) && (z =? 128)) ||
  ((x =? 226) && (y =? 128) &&
   (((128 <=? z) && (z <=? 138)) || (z =? 168) || (z =? 169) || (z =? 175))) ||
  ((x =? 226) && (y =? 129) && (z =? 159)) ||
  ((x =? 227) && (y =? 128) && (z =? 128)).

Fixpoint lstrip (s : string) : string :=
  match s with
  | EmptyString => EmptyString
  | String a s1 =>
      if isspace a then lstrip s1
      else
        match s1 with
        | String b s2 =>
            if isspace2 a b then lstrip s2
            else
              match s2 with
              | String c s3 => if isspace3 a b c then lstrip s3 else s
              | EmptyString => s
              end
        | EmptyString => s
        end
  end.

(** [str.rstrip()] on the reversed text: the units of a character come
    last unit first. *)
Fixpoint rstrip_rev (r : string) : string :=
  match r with
  | EmptyString => EmptyString
  | String c r1 =>
      if isspace c then rstrip_rev r1
      else
        match r1 with
        | String b r2 =>
            if isspace2 b c then rstrip_rev r2
            else
              match r2 with
              | String a r3 => if isspace3 a b c then rstrip_rev r3 else r
              | EmptyString => r
              end
        | EmptyString => r
        end
  end.

Definition strip (s : string) : string :=
  String.rev (rstrip_rev (String.rev (lstrip s))).

(** [Path.name] and [Path.stem]: the last component ([''] if none). *)
Definition name (p : list string) : string := default "" (last p).
Definition stem (p : list string) : string := stem_of (name p).

(** [os.path.dirname]: all components but the last. *)
Definition parent (p : list string) : list string := removelast p.

(** Order of [Path] objects: component lists compared lexicographically,
    components compared as strings. *)
Fixpoint leb (p q : list string) : bool :=
  match p, q with
  | [], _ => true
  | _ :: _, [] => false
  | a :: p', b :: q' =>
      match String.compare a b with
      | Lt => true
      | Gt => false
      | Eq => leb p' q'
      end
  end.

Definition le (p q : list string) : Prop := leb p q = true.

#[global] Instance le_dec : RelDecision le.
Proof. intros p q. unfold le. apply _. Defined.

End PurePath.

Abbreviation path := (list string).

(** ** The file system *)

Inductive node : Type :=
| Dir
| File (data : string).

#[global] Instance node_eq_dec : EqDecision node.
Proof. solve_decision. Defined.

Abbreviation FS := (gmap (list string) node).

(** Python exceptions the pipeline can meet. *)
Inductive exn : Type :=
| BadZipFile
| FileNotFoundError
| FileExistsError
| NotADirectoryError
| IsADirectoryError
| CalledProcessError (returncode : Z) (stderr : string).

(** Lines the program prints, by the statement that prints them. *)
Inductive line : Type :=
| Processing (name : string)
| WarnExtract (e : exn)
| FoundImages (n : nat) (dirname : string)
| Created (md_filename : string)
| Size (bytes : nat)
| ErrorConverting (e : exn)
| Stderr (text : string).

Record World : Type := mkWorld {
  files : gmap (list string) node;
  console : list line
}.

(** ** Computations: state threaded through, exceptions keep the state *)

Inductive result (A : Type) : Type :=
| Ok (a : A)
| Raise (e : exn).
Arguments Ok {A} a.
Arguments Raise {A} e.

Definition io (A : Type) : Type := World -> result A * World.

Definition ret {A} (a : A) : io A := fun w => (Ok a, w).
Definition raise {A} (e : exn) : io A := fun w => (Raise e, w).
Definition bind {A B} (k : A -> io B) (m : io A) : io B :=
  fun w =>
    match m w with
    | (Ok a, w') => k a w'
    | (Raise e, w') => (Raise e, w')
    end.

#[global] Instance io_ret : MRet io := @ret.
#[global] Instance io_bind : MBind io := @bind.

(** [try: m except <handles>: h]: the handler runs in the state the
    exception left behind; an exception [handles] rejects goes on. *)
Definition try_except {A} (handles : exn -> bool) (m : io A) (h : exn -> io A) : io A :=
  fun w =>
    match m w with
    | (Ok a, w') => (Ok a, w')
    | (Raise e, w') => if handles e then h e w' else (Raise e, w')
    end.

(** [try: m finally: c]: [c] runs on every way out of [m]. *)
Definition try_finally {A} (m : io A) (c : io unit) : io A :=
  fun w =>
    match m w with
    | (r, w') =>
        match c w' with
        | (Ok _, w'') => (r, w'')
        | (Raise e, w'') => (Raise e, w'')
        end
    end.

Fixpoint for_each {A} (l : list A) (body : A -> io unit) : io unit :=
  match l with
  | [] => ret tt
  | x :: l' => body x;; for_each l' body
  end.

Definition get_files : io (gmap (list string) node) := fun w => (Ok (files w), w).
Definition put_files (fs : gmap (list string) node) : io unit :=
  fun w => (Ok tt, mkWorld fs (console w)).
Definition print (l : line) : io unit :=
  fun w => (Ok tt, mkWorld (files w) (console w ++ [l])).

Definition any_Exception (e : exn) : bool := true.
Definition is_FileExistsError (e : exn) : bool :=
  match e with FileExistsError => true | _ => false end.
Definition is_CalledProcessError (e : exn) : bool :=
  match e with CalledProcessError _ _ => true | _ => false end.

(** ** Operating-system calls on the file system *)

Module OS.
Import PurePath.

(** [os.path.exists] / [Path.exists] *)
Definition path_exists (p : path) : io bool :=
  fs ← get_files; mret (bool_decide (is_Some (fs !! p))).

(** [os.path.isdir] *)
Definition path_isdir (p : path) : io bool :=
  fs ← get_files;
  mret (match fs !! p with Some Dir => true | _ => false end).

(** [os.mkdir]: the entry must be new and its parent a directory. *)
Definition mkdir (p : path) : io unit :=
  fs ← get_files;
  match fs !! p with
  | Some _ => raise FileExistsError
  | None =>
      match fs !! parent p with
      | Some Dir => put_files (<[p := Dir]> fs)
      | Some (File _) => raise NotADirectoryError
      | None => raise FileNotFoundError
      end
  end.

(** [os.makedirs(name)], by recursion on the reversed component list:
    [head] is created first when it is missing, then [name] itself. *)
Fixpoint makedirs_rev (rname : list string) : io unit :=
  match rname with
  | [] => mkdir []
  | _ :: rhead =>
      let head := rev rhead in
      b ← path_exists head;
      (if negb (bool_decide (head = [])) && negb b
       then try_except is_FileExistsError (makedirs_rev rhead) (fun _ : exn => mret tt)
       else mret tt);;
      mkdir (rev rname)
  end.

Definition makedirs (name : path) : io unit := makedirs_rev (rev name).

(** [Path.mkdir(exist_ok=True)]: an existing directory is accepted. *)
Definition mkdir_exist_ok (p : path) : io unit :=
  try_except any_Exception (mkdir p)
    (fun e =>
       match e return io unit with
       | FileNotFoundError => raise e
       | _ => d ← path_isdir p; if (d : bool) then mret tt else raise e
       end).

(** [open(p, 'rb').read()] *)
Definition read_file (p : path) : io string :=
  fs ← get_files;
  match fs !! p with
  | Some (File data) => mret data
  | Some Dir => raise IsADirectoryError
  | None => raise FileNotFoundError
  end.

(** [open(p, 'w')] followed by a write of [data]: the file is created
    or truncated. *)
Definition write_file (p : path) (data : string) : io unit :=
  fs ← get_files;
  match fs !! p with
  | Some Dir => raise IsADirectoryError
  | _ =>
      match fs !! parent p with
      | Some Dir => put_files (<[p := File data]> fs)
      | Some (File _) => raise NotADirectoryError
      | None => raise FileNotFoundError
      end
  end.

(** [Path.stat().st_size] *)
Definition stat_size (p : path) : io nat :=
  fs ← get_files;
  match fs !! p with
  | Some (File data) => mret (String.length data)
  | Some Dir => mret 0
  | None => raise FileNotFoundError
  end.

(** [p] is [d / n] for a single component [n]. *)
Fixpoint child_of (d p : path) : bool :=
  match d, p with
  | [], [_] => true
  | a :: d', b :: p' => bool_decide (a = b) && child_of d' p'
  | _, _ => false
  end.

(** [Path.iterdir]: the entries of a directory, as paths, in the order
    the system lists them. *)
Definition iterdir (d : path) : io (list path) :=
  fs ← get_files;
  match fs !! d with
  | Some Dir => mret (filter (fun p => child_of d p = true) (map_to_list fs).*1)
  | Some (File _) => raise NotADirectoryError
  | None => raise FileNotFoundError
  end.

(** [sorted] on a list of paths. *)
Definition sorted (l : list path) : list path := merge_sort PurePath.le l.

(** [shutil.rmtree(p, ignore_errors=True)]: a directory goes with all
    below it; on anything else the error is swallowed. *)
Definition rmtree_ignore_errors (p : path) : io unit :=
  fs ← get_files;
  match fs !! p with
  | Some Dir => put_files (filter (fun kv => ¬ p `prefix_of` kv.1) fs)
  | _ => mret tt
  end.

(** [shutil.copy2(src, dst)]: into [dst / name] when [dst] is a
    directory; the source is opened first. *)
Definition copy2 (src dst : path) : io unit :=
  d ← path_isdir dst;
  let dst := if (d : bool) then dst ++ [name src] else dst in
  data ← read_file src;
  write_file dst data.

End OS.

(** ** The environment: archives and external processes *)

(** A member of a zip archive: its sanitised name as components, and what
    it holds.  [ZBroken] is a member whose data cannot be opened (the
    archive is corrupt at that member). *)
Inductive zpayload : Type :=
| ZDir
| ZFile (data : string)
| ZBroken.

Record zmember : Type := mkMember {
  zname : list string;
  zdata : zpayload
}.

(** [subprocess.CompletedProcess] with captured text output. *)
Record completed : Type := mkCompleted {
  returncode : Z;
  stdout : string;
  stderr : string
}.

(** What lies outside the program: how the bytes of a file read as a zip
    archive ([None]: not an archive), what [python -m markitdown <path>]
    does, and what [date '+%Y-%m-%d %H:%M:%S'] does ([None]: the
    executable cannot be started). *)
Record Env : Type := mkEnv {
  parse_zip : string -> option (list zmember);
  markitdown : gmap (list string) node -> list string -> option completed;
  date : option completed
}.

Module ZipFile.
Import PurePath.

(** [zipfile.ZipFile(p, 'r')] *)
Definition open (E : Env) (p : path) : io (list zmember) :=
  fs ← get_files;
  match fs !! p with
  | Some (File data) =>
      match parse_zip E data with
      | Some members => mret members
      | None => raise BadZipFile
      end
  | Some Dir => raise IsADirectoryError
  | None => raise FileNotFoundError
  end.

(** [ZipFile._extract_member]: upper directories are made when missing,
    a directory member is made unless it is there, a file member is
    opened in the archive and then written. *)
Definition extract_member (targetroot : path) (m : zmember) : io unit :=
  let targetpath := targetroot ++ zname m in
  let upperdirs := parent targetpath in
  b ← OS.path_exists upperdirs;
  (if negb (bool_decide (upperdirs = [])) && negb b
   then OS.makedirs upperdirs else mret tt);;
  match zdata m with
  | ZDir =>
      d ← OS.path_isdir targetpath;
      if (d : bool) then mret tt else OS.mkdir targetpath
  | ZFile data => OS.write_file targetpath data
  | ZBroken => raise BadZipFile
  end.

(** [ZipFile.extractall(path)] *)
Definition extractall (members : list zmember) (targetroot : path) : io unit :=
  for_each members (extract_member targetroot).

End ZipFile.

Module subprocess.

(** [subprocess.run(..., capture_output=True, text=True, check=check)] *)
Definition run (proc : option completed) (check : bool) : io completed :=
  match proc with
  | None => raise FileNotFoundError
  | Some c =>
      if check && negb (returncode c =? 0)%Z
      then raise (CalledProcessError (returncode c) (stderr c))
      else mret c
  end.

End subprocess.

(** ** The program *)

Definition nl : string := String "010" EmptyString.

(** [img_file.suffix.lower() in ['.png', '.jpg', '.jpeg', '.gif']] *)
Definition is_image (img_file : path) : bool :=
  bool_decide (PurePath.lower (PurePath.suffix (PurePath.name img_file))
                 ∈ [".png"; ".jpg"; ".jpeg"; ".gif"]).

Definition extract_images_from_pptx (E : Env) (pptx_path output_dir : path)
  : io (list path * option path) :=
  let temp_extract := output_dir ++ ["temp_extract"] in
  try_except any_Exception
    (zip_ref ← ZipFile.open E pptx_path;
     ZipFile.extractall zip_ref temp_extract;;
     let media_dir := temp_extract ++ ["ppt"; "media"] in
     b ← OS.path_exists media_dir;
     images ← (if (b : bool)
               then entries ← OS.iterdir media_dir;
                    mret (filter (fun img_file => is_image img_file = true)
                            (OS.sorted entries))
               else mret []);
     mret (images, Some temp_extract))
    (fun e => print (WarnExtract e);; mret ([], None)).

(** The metadata header of the output document. *)
Definition header (pptx_path : path) (converted : string) : string :=
  "# " +:+ PurePath.stem pptx_path +:+ nl +:+
  nl +:+
  "**Source File:** " +:+ PurePath.name pptx_path +:+ "  " +:+ nl +:+
  "**Converted:** " +:+ converted +:+ nl +:+
  nl +:+
  "---" +:+ nl +:+
  nl.

Definition convert_pptx_to_markdown (E : Env) (pptx_path output_dir : path)
    (keep_images : bool) : io bool :=
  let md_filename := PurePath.stem pptx_path +:+ ".md" in
  let md_path := output_dir ++ [md_filename] in
  print (Processing (PurePath.name pptx_path));;
  '(images, temp_extract) ← extract_images_from_pptx E pptx_path output_dir;
  (if negb (bool_decide (images = [])) && keep_images
   then
     let img_dir := output_dir ++ [PurePath.stem pptx_path +:+ "_images"] in
     OS.mkdir_exist_ok img_dir;;
     print (FoundImages (length images) (PurePath.name img_dir));;
     for_each images (fun img =>
       let dest := img_dir ++ [PurePath.name img] in
       OS.copy2 img dest)
   else mret tt);;
  try_finally
    (try_except is_CalledProcessError
       (fs ← get_files;
        result ← subprocess.run (markitdown E fs pptx_path) true;
        let markdown_content := stdout result in
        stamp ← subprocess.run (date E) false;
        let header := header pptx_path (PurePath.strip (stdout stamp)) in
        OS.write_file md_path (header +:+ markdown_content);;
        print (Created md_filename);;
        size ← OS.stat_size md_path;
        print (Size size);;
        mret true)
       (fun e =>
          print (ErrorConverting e);;
          print (Stderr (match e with CalledProcessError _ s => s | _ => "" end));;
          mret false))
    (match temp_extract with
     | Some t =>
         b ← OS.path_exists t;
         if (b : bool) then OS.rmtree_ignore_errors t else mret tt
     | None => mret tt
     end).

(** The pipeline in two blocks, for statements about what happens before
    and after the converter is reached: lines 48-63 and lines 65-103 of the
    source.  [convert_stages] shows that the function is their sequence. *)
Definition stage_images (E : Env) (pptx_path output_dir : path)
    (keep_images : bool) : io (option path) :=
  print (Processing (PurePath.name pptx_path));;
  '(images, temp_extract) ← extract_images_from_pptx E pptx_path output_dir;
  (if negb (bool_decide (images = [])) && keep_images
   then
     let img_dir := output_dir ++ [PurePath.stem pptx_path +:+ "_images"] in
     OS.mkdir_exist_ok img_dir;;
     print (FoundImages (length images) (PurePath.name img_dir));;
     for_each images (fun img =>
       let dest := img_dir ++ [PurePath.name img] in
       OS.copy2 img dest)
   else mret tt);;
  mret temp_extract.

(** The [finally] block. *)
Definition cleanup (temp_extract : option path) : io unit :=
  match temp_extract with
  | Some t =>
      b ← OS.path_exists t;
      if (b : bool) then OS.rmtree_ignore_errors t else mret tt
  | None => mret tt
  end.

Definition stage_convert (E : Env) (pptx_path output_dir : path)
    (temp_extract : option path) : io bool :=
  let md_filename := PurePath.stem pptx_path +:+ ".md" in
  let md_path := output_dir ++ [md_filename] in
  try_finally
    (try_except is_CalledProcessError
       (fs ← get_files;
        result ← subprocess.run (markitdown E fs pptx_path) true;
        let markdown_content := stdout result in
        stamp ← subprocess.run (date E) false;
        let header := header pptx_path (PurePath.strip (stdout stamp)) in
        OS.write_file md_path (header +:+ markdown_content);;
        print (Created md_filename);;
        size ← OS.stat_size md_path;
        print (Size size);;
        mret true)
       (fun e =>
          print (ErrorConverting e);;
          print (Stderr (match e with CalledProcessError _ s => s | _ => "" end));;
          mret false))
    (cleanup temp_extract).

(** Paths the program derives from its arguments. *)
Definition temp_dir (output_dir : path) : path := output_dir ++ ["temp_extract"].
Definition media_dir (output_dir : path) : path :=
  temp_dir output_dir ++ ["ppt"; "media"].
Definition md_path (pptx_path output_dir : path) : path :=
  output_dir ++ [PurePath.stem pptx_path +:+ ".md"].
Definition img_dir (pptx_path output_dir : path) : path :=
  output_dir ++ [PurePath.stem pptx_path +:+ "_images"].

(** The entries of directory [d] in [fs], as [iterdir] lists them. *)
Definition entries (fs : gmap (list string) node) (d : path) : list path :=
  filter (fun p => OS.child_of d p = true) (map_to_list fs).*1.

(** Strict order of file names. *)
Definition name_lt (a b : string) : Prop := String.compare a b = Lt.

(** The part of [q] below [d], when [q] lies at or below [d]. *)
Fixpoint below (d q : list string) : option (list string) :=
  match d, q with
  | [], _ => Some q
  | a :: d', b :: q' => if bool_decide (a = b) then below d' q' else None
  | _ :: _, [] => None
  end.

(** The entries of folder [d] of an archive: the names that follow [d]
    in the names of its members, each once. *)
Definition folder_names (d : list string) (members : list zmember) : list string :=
  remove_dups (omap (fun m => below d (zname m) ≫= head) members).

(** ** Notions used in the statements *)

(** [grows C W fs fs']: [fs'] differs from [fs] only by new entries at
    paths of [C] and by new contents of regular files at paths of [W]. *)
Definition grows (C W : list string -> Prop) (fs fs' : gmap (list string) node) : Prop :=
  ∀ q, fs' !! q = fs !! q ∨
       (C q ∧ fs !! q = None ∧ is_Some (fs' !! q)) ∨
       (W q ∧ ∃ old new, fs !! q = Some (File old) ∧ fs' !! q = Some (File new)).

(** A computation that creates within [C] and rewrites within [W], on
    every way out. *)
Definition confined {A} (C W : list string -> Prop) (m : io A) : Prop :=
  ∀ w r w', m w = (r, w') → grows C W (files w) (files w').

(** A computation that prints nothing. *)
Definition quiet {A} (m : io A) : Prop :=
  ∀ w r w', m w = (r, w') → console w' = console w.

Definition nowhere (q : list string) : Prop := False.

(** What a member leaves at its target when it is unpacked. *)
Definition unpacked_as (m : zmember) (nd : option node) : Prop :=
  match zdata m with
  | ZDir => nd = Some Dir
  | ZFile data => nd = Some (File data)
  | ZBroken => False
  end.

(** The world after the extractor's warning. *)
Definition warn (e : exn) (w : World) : World :=
  mkWorld (files w) (console w ++ [WarnExtract e]).

(** The last code unit of a string. *)
Fixpoint last_char (s : string) : option ascii :=
  match s with
  | EmptyString => None
  | String a s' =>
      match last_char s' with
      | Some c => Some c
      | None => Some a
      end
  end.

(** The world the [finally] block leaves. *)
Definition after_cleanup (temp_extract : option path) (w : World) : World :=
  match temp_extract with
  | Some t =>
      match files w !! t with
      | Some Dir => mkWorld (filter (fun kv => ¬ t `prefix_of` kv.1) (files w)) (console w)
      | _ => w
      end
  | None => w
  end.

(** The image step: a directory, a line, then the copies. *)
Definition copy_images (pptx_path output_dir : path) (images : list path) : io unit :=
  OS.mkdir_exist_ok (img_dir pptx_path output_dir);;
  print (FoundImages (length images) (PurePath.name (img_dir pptx_path output_dir)));;
  for_each images (fun img =>
    OS.copy2 img (img_dir pptx_path output_dir ++ [PurePath.name img])).

(** The text of the output document. *)
Definition document (pptx_path : path) (c stamp : completed) : string :=
  header pptx_path (PurePath.strip (stdout stamp)) +:+ stdout c.

(** A file system in which every entry but the root sits in a directory. *)
Definition well_formed (fs : gmap (list string) node) : Prop :=
  ∀ q, q ≠ [] → is_Some (fs !! q) → fs !! PurePath.parent q = Some Dir.

(** A computation that keeps the file system well formed, on every way out. *)
Definition keeps_well_formed {A} (m : io A) : Prop :=
  ∀ w r w', m w = (r, w') → well_formed (files w) → well_formed (files w').

(** ** The batch driver and the command line *)

(** Lines printed by [batch_convert] and [main], by the statement that
    prints them. *)
Inductive report_line : Type :=
| NoFilesFound (input_dir : list string)
| FoundFiles (n : nat)
| InputDirectory (input_dir : list string)
| OutputDirectory (output_dir : list string)
| KeepImages (keep_images : bool)
| RuleTop
| SummaryTitle
| Rule
| Successful (n : nat)
| Failed (n : nat)
| OutputLocation (output_dir : list string)
| RuleBottom
| ToolMissing
| InstallHint
| InstallCommand
| Converted (file : list string)
| NotConverted (file : list string).

(** The state of a run of the driver: the world of the pipeline, and the
    driver's own lines, each with the number of pipeline lines printed
    before it, which keeps the order of the whole output. *)
Record Session : Type := mkSession {
  world : World;
  report : list (nat * report_line)
}.

(** Ways out of a driver computation: a value, an exception, or
    [sys.exit(code)], which no handler of the program catches. *)
Inductive outcome (A : Type) : Type :=
| Done (a : A)
| Raised (e : exn)
| Exit (code : Z).
Arguments Done {A} a.
Arguments Raised {A} e.
Arguments Exit {A} code.

Definition driver (A : Type) : Type := Session -> outcome A * Session.

Definition driver_ret {A} (a : A) : driver A := fun s => (Done a, s).
Definition driver_bind {A B} (k : A -> driver B) (m : driver A) : driver B :=
  fun s =>
    match m s with
    | (Done a, s') => k a s'
    | (Raised e, s') => (Raised e, s')
    | (Exit code, s') => (Exit code, s')
    end.

#[global] Instance driver_mret : MRet driver := @driver_ret.
#[global] Instance driver_mbind : MBind driver := @driver_bind.

(** A computation of the pipeline, run by the driver. *)
Definition lift {A} (m : io A) : driver A :=
  fun s =>
    match m (world s) with
    | (Ok a, w') => (Done a, mkSession w' (report s))
    | (Raise e, w') => (Raised e, mkSession w' (report s))
    end.

Definition announce (l : report_line) : driver unit :=
  fun s =>
    (Done tt, mkSession (world s) (report s ++ [(length (console (world s)), l)])).

Definition sys_exit {A} (code : Z) : driver A := fun s => (Exit code, s).

(** [try: m except <handles>: h] in the driver; [sys.exit] passes. *)
Definition driver_try_except {A} (handles : exn -> bool) (m : driver A)
    (h : exn -> driver A) : driver A :=
  fun s =>
    match m s with
    | (Raised e, s') => if handles e then h e s' else (Raised e, s')
    | other => other
    end.

Definition is_CalledProcessError_or_FileNotFoundError (e : exn) : bool :=
  match e with
  | CalledProcessError _ _ | FileNotFoundError => true
  | _ => false
  end.

(** [Path.mkdir(parents=True, exist_ok=True)], by recursion on the
    reversed component list: when the parent is missing it is made first,
    in the same way, and the directory is then made without [parents]. *)
Fixpoint mkdir_parents_rev (rself : list string) : io unit :=
  try_except any_Exception (OS.mkdir (rev rself))
    (fun e =>
       match e return io unit with
       | FileNotFoundError =>
           match rself with
           | [] => raise e
           | _ :: rparent =>
               mkdir_parents_rev rparent;;
               OS.mkdir_exist_ok (rev rself)
           end
       | _ =>
           d ← OS.path_isdir (rev rself);
           if (d : bool) then mret tt else raise e
       end).

Definition mkdir_parents (p : path) : io unit := mkdir_parents_rev (rev p).

(** [fnmatch] of a name against ["*.pptx"]: the name ends in [.pptx]. *)
Definition matches_pptx (name : string) : bool :=
  (5 <=? String.length name) &&
  String.eqb (String.substring (String.length name - 5) 5 name) ".pptx".

(** [list(input_dir.glob("*.pptx"))]: the matching entries of the
    directory, in the order the system lists them; nothing when
    [input_dir] is not a directory. *)
Definition glob_pptx (input_dir : path) : io (list path) :=
  fs ← get_files;
  match fs !! input_dir with
  | Some Dir =>
      mret (filter (fun p => matches_pptx (PurePath.name p) = true)
              (entries fs input_dir))
  | _ => mret []
  end.

(** The loop of [batch_convert] with its two counters. *)
Fixpoint convert_each (E : Env) (pptx_files : list path) (output_dir : path)
    (keep_images : bool) (successful failed : nat) : driver (nat * nat) :=
  match pptx_files with
  | [] => mret (successful, failed)
  | pptx_file :: rest =>
      ok ← lift (convert_pptx_to_markdown E pptx_file output_dir keep_images);
      if (ok : bool)
      then convert_each E rest output_dir keep_images (successful + 1) failed
      else convert_each E rest output_dir keep_images successful (failed + 1)
  end.

Definition batch_convert (E : Env) (input_dir output_dir : path)
    (keep_images : bool) : driver unit :=
  lift (mkdir_parents output_dir);;
  pptx_files ← lift (glob_pptx input_dir);
  if bool_decide (pptx_files = [])
  then announce (NoFilesFound input_dir)
  else
    announce (FoundFiles (length pptx_files));;
    announce (InputDirectory input_dir);;
    announce (OutputDirectory output_dir);;
    announce (KeepImages keep_images);;
    '(successful, failed) ← convert_each E pptx_files output_dir keep_images 0 0;
    announce RuleTop;;
    announce SummaryTitle;;
    announce Rule;;
    announce (Successful successful);;
    announce (Failed failed);;
    announce (OutputLocation output_dir);;
    announce RuleBottom.

(** The parsed command line ([file] is [None] when [-f] is absent or
    empty), with the defaults of the parser. *)
Module Args.

Record t : Type := mk {
  input_dir : list string;
  output_dir : list string;
  file : option (list string);
  keep_images : bool
}.

Definition default : t :=
  mk ["mnt"; "user-data"; "uploads"] ["mnt"; "user-data"; "outputs"] None false.

End Args.

(** [main] after [parse_args]; [help] is what
    [python -m markitdown --help] does. *)
Definition main (E : Env) (help : option completed) (args : Args.t) : driver unit :=
  driver_try_except is_CalledProcessError_or_FileNotFoundError
    (lift (subprocess.run help true);; mret tt)
    (fun _ =>
       announce ToolMissing;;
       announce InstallHint;;
       announce InstallCommand;;
       sys_exit 1);;
  match Args.file args with
  | Some f =>
      lift (mkdir_parents (Args.output_dir args));;
      ok ← lift (convert_pptx_to_markdown E f (Args.output_dir args)
                   (Args.keep_images args));
      if (ok : bool)
      then announce (Converted f)
      else (announce (NotConverted f);; sys_exit 1)
  | None =>
      batch_convert E (Args.input_dir args) (Args.output_dir args)
        (Args.keep_images args)
  end.

(** The exit status of the process. *)
Definition exit_status (r : outcome unit) : Z :=
  match r with
  | Done _ => 0
  | Raised _ => 1
  | Exit code => code
  end.

(** The listing of [glob_pptx], as a function of the file system. *)
Definition pptx_files (fs : gmap (list string) node) (input_dir : path) : list path :=
  match fs !! input_dir with
  | Some Dir =>
      filter (fun p => matches_pptx (PurePath.name p) = true) (entries fs input_dir)
  | _ => []
  end.

(** The lines around the loop of [batch_convert]. *)
Definition header_lines (n : nat) (input_dir output_dir : path) (keep_images : bool)
  : list report_line :=
  [FoundFiles n; InputDirectory input_dir; OutputDirectory output_dir;
   KeepImages keep_images].

Definition summary_lines (successful failed : nat) (output_dir : path)
  : list report_line :=
  [RuleTop; SummaryTitle; Rule; Successful successful; Failed failed;
   OutputLocation output_dir; RuleBottom].

(** Driver lines printed when [k] pipeline lines are out. *)
Definition stamped (k : nat) (ls : list report_line) : list (nat * report_line) :=
  pair k <$> ls.

(** The names in the [Processing] lines of a piece of console, and the
    numbers of [Created] and [ErrorConverting] lines in it. *)
Definition processed (c : list line) : list string :=
  omap (fun l => match l with Processing n => Some n | _ => None end) c.

Definition is_Created (l : line) : bool :=
  match l with Created _ => true | _ => false end.
Definition is_ErrorConverting (l : line) : bool :=
  match l with ErrorConverting _ => true | _ => false end.

Definition created (c : list line) : nat :=
  length (filter (fun l => is_Created l = true) c).
Definition errors (c : list line) : nat :=
  length (filter (fun l => is_ErrorConverting l = true) c).

(** ** Concrete presentations, archives and converters *)

Module Examples.

Definition deck : list string := ["in"; "deck.pptx"].
Definition out : list string := ["out"].

(** An output directory next to one presentation. *)
Definition fs0 : gmap (list string) node :=
  list_to_map
    [([], Dir); (["in"], Dir); (deck, File "ZIP1"); (out, Dir)].
Definition w0 : World := mkWorld fs0 [].

(** The same with an extraction directory left by an earlier run. *)
Definition fs_stale : gmap (list string) node :=
  list_to_map
    [([], Dir); (["in"], Dir); (deck, File "ZIP1"); (out, Dir);
     (["out"; "temp_extract"], Dir);
     (["out"; "temp_extract"; "ppt"], Dir);
     (["out"; "temp_extract"; "ppt"; "media"], Dir);
     (["out"; "temp_extract"; "ppt"; "media"; "old.png"], File "OLD")].
Definition w_stale : World := mkWorld fs_stale [].

Definition slides : list zmember :=
  [mkMember ["ppt"; "media"; "b.JPG"] (ZFile "B");
   mkMember ["ppt"; "media"; "a.png"] (ZFile "A");
   mkMember ["ppt"; "media"; "notes.xml"] (ZFile "N");
   mkMember ["ppt"; "slides"; "s1.xml"] (ZFile "S")].


Definition media_is_file : list zmember :=
  [mkMember ["ppt"; "media"] (ZFile "M")].

Definition broken : list zmember :=
  [mkMember ["ppt"; "media"; "a.png"] (ZFile "A");
   mkMember ["ppt"; "media"; "b.png"] ZBroken].

Definition nested : list zmember :=
  [mkMember ["ppt"; "media"; "x.png"] ZDir;
   mkMember ["ppt"; "media"; "sub"; "y.png"] (ZFile "Y")].

Definition archive (members : list zmember) (data : string) : option (list zmember) :=
  if bool_decide (data = "ZIP1") then Some members else None.

Definition stamp : completed :=
  mkCompleted 0 ("2024-05-01 10:00:00" +:+ nl) "".
Definition converted : completed := mkCompleted 0 "body" "".
Definition failed : completed := mkCompleted 1 "" "no slides".

Definition env (members : list zmember) (c : completed) : Env :=
  mkEnv (archive members) (fun _ _ => Some c) (Some stamp).

Definition not_a_zip (c : completed) : Env :=
  mkEnv (fun _ => None) (fun _ _ => Some c) (Some stamp).

(** The world after the first line is printed. *)
Definition started (w : World) : World :=
  mkWorld (files w) (console w ++ [Processing "deck.pptx"]).

(** A regular file where the images folder of the presentation goes. *)
Definition fs_blocked : gmap (list string) node :=
  list_to_map
    [([], Dir); (["in"], Dir); (deck, File "ZIP1"); (out, Dir);
     (["out"; "deck_images"], File "X")].
Definition w_blocked : World := mkWorld fs_blocked [].

(** A directory where the document of the presentation goes. *)
Definition fs_md_dir : gmap (list string) node :=
  list_to_map
    [([], Dir); (["in"], Dir); (deck, File "ZIP1"); (out, Dir);
     (["out"; "deck.md"], Dir)].
Definition w_md_dir : World := mkWorld fs_md_dir [].

(** An input directory with two presentations and a text file; the
    output directory [out/md] is not there yet. *)
Definition fs_batch : gmap (list string) node :=
  list_to_map
    [([], Dir); (["in"], Dir); (["in"; "a.pptx"], File "ZIP1");
     (["in"; "b.pptx"], File "ZIP1"); (["in"; "notes.txt"], File "N")].
Definition w_batch : World := mkWorld fs_batch [].
Definition out_md : list string := ["out"; "md"].


(** No converter on the machine. *)
Definition no_converter : Env :=
  mkEnv (archive slides) (fun _ _ => None) (Some stamp).

(** A converter that fails on [b.pptx] only. *)
Definition fails_on_b : Env :=
  mkEnv (archive slides)
    (fun _ p => if bool_decide (PurePath.name p = "b.pptx")
                then Some failed else Some converted)
    (Some stamp).

(** The start of a run of the driver. *)
Definition session (w : World) : Session := mkSession w [].

End Examples.

(** * Proofs *)

(** ** Running computations *)

Ltac io_unfold :=
  unfold mbind, io_bind, bind, mret, io_ret, ret, raise, get_files,
    put_files, print, try_except, try_finally in *.

Ltac io_simpl := io_unfold; simpl in *.

Lemma convert_stages E pptx_path output_dir keep_images w :
  convert_pptx_to_markdown E pptx_path output_dir keep_images w =
  (stage_images E pptx_path output_dir keep_images ≫=
     stage_convert E pptx_path output_dir) w.
Proof.
  unfold convert_pptx_to_markdown, stage_images, stage_convert, cleanup.
  io_unfold. simpl.
  destruct (extract_images_from_pptx _ _ _ _) as [[[imgs t]|e] w1]; [|done].
  simpl.
  destruct (negb (bool_decide (imgs = [])) && keep_images); [|done].
  destruct (OS.mkdir_exist_ok _ _) as [[[]|e] w2]; [|done].
  simpl.
  destruct (for_each _ _ _) as [[[]|e] w3]; done.
Qed.

(** ** The order of paths *)

Section path_order.

Lemma compare_refl s : String.compare s s = Eq.
Proof.
  pose proof (String.compare_antisym s s) as H.
  destruct (String.compare s s); done.
Qed.

Lemma compare_Lt_le a b : String.compare a b = Lt → (a ≤ b)%string.
Proof. intros H. unfold String.le, String.leb. by rewrite H. Qed.

Lemma compare_lt_trans a b c :
  String.compare a b = Lt → String.compare b c = Lt → String.compare a c = Lt.
Proof.
  intros Hab Hbc.
  assert (a ≤ c)%string as Hac.
  { trans b; by apply compare_Lt_le. }
  unfold String.le, String.leb in Hac.
  destruct (String.compare a c) eqn:E; [|done|done].
  apply String.compare_eq_iff in E as ->.
  rewrite String.compare_antisym, Hbc in Hab. done.
Qed.

#[global] Instance path_le_total : Total PurePath.le.
Proof.
  intros p. unfold PurePath.le.
  induction p as [|a p IH]; intros [|b q]; simpl; auto.
  rewrite (String.compare_antisym b a).
  destruct (String.compare a b); simpl; auto.
Qed.

#[global] Instance path_le_trans : Transitive PurePath.le.
Proof.
  intros p. unfold PurePath.le.
  induction p as [|a p IH]; intros [|b q] [|c r]; simpl; try done.
  destruct (String.compare a b) eqn:Eab; [| |done].
  - apply String.compare_eq_iff in Eab as ->.
    destruct (String.compare b c); [apply IH|done|done].
  - destruct (String.compare b c) eqn:Ebc; [| |done].
    + apply String.compare_eq_iff in Ebc as <-. by rewrite Eab.
    + by rewrite (compare_lt_trans _ _ _ Eab Ebc).
Qed.

Lemma path_le_sibling d a b :
  PurePath.le (d ++ [a]) (d ++ [b]) ↔ String.compare a b ≠ Gt.
Proof.
  unfold PurePath.le.
  induction d as [|c d IH]; simpl.
  - destruct (String.compare a b); naive_solver.
  - by rewrite compare_refl.
Qed.

End path_order.

(** ** Paths *)

Section paths.
Implicit Types (d p q : list string) (n : string).

Lemma name_snoc d n : PurePath.name (d ++ [n]) = n.
Proof. unfold PurePath.name. by rewrite last_snoc. Qed.

Lemma parent_snoc d n : PurePath.parent (d ++ [n]) = d.
Proof. unfold PurePath.parent. apply removelast_last. Qed.

Lemma parent_prefix p : PurePath.parent p `prefix_of` p.
Proof.
  destruct (decide (p = [])) as [->|Hne]; [done|].
  destruct (exists_last Hne) as (d & n & ->).
  rewrite parent_snoc. by apply prefix_app_r.
Qed.

Lemma child_of_spec d p : OS.child_of d p = true ↔ ∃ n, p = d ++ [n].
Proof.
  revert p. induction d as [|a d IH]; intros p; simpl.
  - destruct p as [|b [|c p]]; split; try done; try (intros [n Hn]; done); eauto.
  - destruct p as [|b p]; [split; [done|intros [n Hn]; done]|].
    rewrite andb_true_iff, bool_decide_eq_true, IH. split.
    + intros [-> [n ->]]. by exists n.
    + intros [n Hn]. simplify_eq. eauto.
Qed.

Lemma entries_spec (fs : gmap (list string) node) d p :
  p ∈ entries fs d ↔ ∃ n, p = d ++ [n] ∧ is_Some (fs !! p).
Proof.
  unfold entries. rewrite list_elem_of_filter, child_of_spec.
  rewrite list_elem_of_fmap. split.
  - intros ([n ->] & [q nd] & Hq & Hin). simpl in Hq. subst q.
    apply elem_of_map_to_list in Hin. eauto.
  - intros (n & -> & nd & Hnd). split; [eauto|].
    exists (d ++ [n], nd). split; [done|]. by apply elem_of_map_to_list.
Qed.

Lemma entries_NoDup (fs : gmap (list string) node) d : NoDup (entries fs d).
Proof. apply NoDup_filter, NoDup_fst_map_to_list. Qed.

Lemma prefix_snoc_inv p d n :
  p `prefix_of` d ++ [n] → p = d ++ [n] ∨ p `prefix_of` d.
Proof.
  intros [k Hk].
  destruct (decide (k = [])) as [->|Hne].
  - left. by rewrite app_nil_r in Hk.
  - right. destruct (exists_last Hne) as (k' & x & ->).
    rewrite app_assoc in Hk. apply app_inj_tail in Hk as [-> _].
    by apply prefix_app_r.
Qed.

Lemma prefix_of_app_cases p d k :
  p `prefix_of` d ++ k → p `prefix_of` d ∨ d `prefix_of` p.
Proof.
  intros H. apply (prefix_weak_total _ _ (d ++ k)); [done|].
  by apply prefix_app_r.
Qed.

End paths.

(** ** What a computation may do to the file system *)

Section grows.
Implicit Types (C W : list string → Prop) (fs : gmap (list string) node).

Lemma grows_refl C W fs : grows C W fs fs.
Proof. intros q. by left. Qed.

Lemma grows_trans C W fs1 fs2 fs3 :
  grows C W fs1 fs2 → grows C W fs2 fs3 → grows C W fs1 fs3.
Proof.
  intros H12 H23 q.
  destruct (H12 q) as [E12|[(HC & Hn & Hs)|(HW & o & n & Ho & Hn)]];
    destruct (H23 q) as [E23|[(HC' & Hn' & Hs')|(HW' & o' & n' & Ho' & Hn')]].
  - left. congruence.
  - right. left. by rewrite <- E12.
  - right. right. split; [done|]. rewrite <- E12. eauto.
  - right. left. by rewrite E23.
  - rewrite Hn' in Hs. by destruct Hs.
  - right. left. split; [done|]. split; [done|]. rewrite Hn'. eauto.
  - right. right. split; [done|]. rewrite E23. eauto.
  - congruence.
  - right. right. eauto 6.
Qed.

Lemma grows_mono C W C' W' fs fs' :
  (∀ q, C q → C' q) → (∀ q, W q → W' q) →
  grows C W fs fs' → grows C' W' fs fs'.
Proof.
  intros HC HW H q.
  destruct (H q) as [?|[(? & ? & ?)|(? & ?)]]; [by left|right; left|right; right]; auto.
Qed.

Lemma grows_insert_new C W fs p nd :
  C p → fs !! p = None → grows C W fs (<[p := nd]> fs).
Proof.
  intros HT Hp q. destruct (decide (p = q)) as [<-|Hne].
  - right. left. by rewrite lookup_insert_eq.
  - left. by rewrite lookup_insert_ne.
Qed.

Lemma grows_insert_file C W fs p data :
  C p → W p → fs !! p ≠ Some Dir → grows C W fs (<[p := File data]> fs).
Proof.
  intros HC HW Hp q. destruct (decide (p = q)) as [<-|Hne].
  - right. rewrite lookup_insert_eq.
    destruct (fs !! p) as [[|old]|] eqn:E; [done|right; eauto|left; eauto].
  - left. by rewrite lookup_insert_ne.
Qed.

Lemma grows_frame C W fs fs' q :
  grows C W fs fs' → ¬ C q → ¬ W q → fs' !! q = fs !! q.
Proof. intros H HC HW. destruct (H q) as [?|[(? & _)|(? & _)]]; done. Qed.

Lemma grows_dir C W fs fs' q :
  grows C W fs fs' → fs !! q = Some Dir → fs' !! q = Some Dir.
Proof.
  intros H Hq.
  destruct (H q) as [->|[(_ & ? & _)|(_ & o & n & ? & _)]]; congruence.
Qed.


Lemma grows_is_file C W fs fs' q data :
  grows C W fs fs' → fs !! q = Some (File data) →
  ∃ data', fs' !! q = Some (File data').
Proof.
  intros H Hq.
  destruct (H q) as [->|[(_ & ? & _)|(_ & o & n & _ & ->)]]; eauto; congruence.
Qed.

Lemma grows_is_Some C W fs fs' q :
  grows C W fs fs' → is_Some (fs !! q) → is_Some (fs' !! q).
Proof.
  intros H Hq.
  destruct (H q) as [->|[(_ & _ & ?)|(_ & o & n & _ & ->)]]; eauto.
Qed.

Lemma grows_not_dir C W fs fs' q :
  grows C W fs fs' → ¬ C q → fs !! q ≠ Some Dir → fs' !! q ≠ Some Dir.
Proof.
  intros H HC Hq.
  destruct (H q) as [->|[(? & _)|(_ & o & n & _ & ->)]]; done.
Qed.

Lemma grows_changed C W fs fs' q :
  grows C W fs fs' → fs' !! q ≠ fs !! q → C q ∨ W q.
Proof. intros H Hq. destruct (H q) as [?|[(? & _)|(? & _)]]; auto. done. Qed.

Lemma grows_None C W fs fs' q :
  grows C W fs fs' → fs !! q = None → ¬ C q → fs' !! q = None.
Proof.
  intros H Hq HC.
  destruct (H q) as [->|[(? & _)|(_ & o & n & ? & _)]]; done || congruence.
Qed.

End grows.

Section confined.
Context {A B : Type}.
Implicit Types (C W : list string → Prop).

Lemma confined_mono C W C' W' (m : io A) :
  (∀ q, C q → C' q) → (∀ q, W q → W' q) → confined C W m → confined C' W' m.
Proof. intros HC HW H w r w' Hm. eapply grows_mono; eauto. Qed.

Lemma confined_ret C W (a : A) : confined C W (mret a).
Proof. intros w r w' [= <- <-]. apply grows_refl. Qed.

Lemma confined_raise C W e : confined C W (raise e : io A).
Proof. intros w r w' [= <- <-]. apply grows_refl. Qed.

Lemma confined_bind C W (m : io A) (k : A → io B) :
  confined C W m → (∀ a, confined C W (k a)) → confined C W (m ≫= k).
Proof.
  intros Hm Hk w r w'. io_unfold.
  destruct (m w) as [[a|e] w1] eqn:E; intros H.
  - eapply grows_trans; [by eapply Hm|by eapply Hk].
  - injection H as <- <-. by eapply Hm.
Qed.

Lemma confined_try_except C W handles (m : io A) h :
  confined C W m → (∀ e, confined C W (h e)) →
  confined C W (try_except handles m h).
Proof.
  intros Hm Hh w r w'. io_unfold.
  destruct (m w) as [[a|e] w1] eqn:E; intros H.
  - injection H as <- <-. by eapply Hm.
  - destruct (handles e).
    + eapply grows_trans; [by eapply Hm|by eapply Hh].
    + injection H as <- <-. by eapply Hm.
Qed.

Lemma quiet_ret (a : A) : quiet (mret a).
Proof. by intros w r w' [= <- <-]. Qed.

Lemma quiet_raise e : quiet (raise e : io A).
Proof. by intros w r w' [= <- <-]. Qed.

Lemma quiet_bind (m : io A) (k : A → io B) :
  quiet m → (∀ a, quiet (k a)) → quiet (m ≫= k).
Proof.
  intros Hm Hk w r w'. io_unfold.
  destruct (m w) as [[a|e] w1] eqn:E; intros H.
  - etrans; [by eapply Hk|by eapply Hm].
  - injection H as <- <-. by eapply Hm.
Qed.

Lemma quiet_try_except handles (m : io A) h :
  quiet m → (∀ e, quiet (h e)) → quiet (try_except handles m h).
Proof.
  intros Hm Hh w r w'. io_unfold.
  destruct (m w) as [[a|e] w1] eqn:E; intros H.
  - injection H as <- <-. by eapply Hm.
  - destruct (handles e).
    + etrans; [by eapply Hh|by eapply Hm].
    + injection H as <- <-. by eapply Hm.
Qed.

End confined.

Lemma confined_get_files C W : confined C W get_files.
Proof. intros w r w' [= <- <-]. apply grows_refl. Qed.

Lemma quiet_get_files : quiet get_files.
Proof. by intros w r w' [= <- <-]. Qed.

Lemma quiet_put_files fs : quiet (put_files fs).
Proof. by intros w r w' [= <- <-]. Qed.

Lemma confined_print C W l : confined C W (print l).
Proof. intros w r w' [= <- <-]. apply grows_refl. Qed.

Lemma confined_for_each {A} (C W : A → list string → Prop) (l : list A)
    (body : A → io unit) :
  (∀ x, x ∈ l → confined (C x) (W x) (body x)) →
  confined (fun q => ∃ x, x ∈ l ∧ C x q) (fun q => ∃ x, x ∈ l ∧ W x q)
    (for_each l body).
Proof.
  induction l as [|x l IH]; intros Hbody; simpl.
  - apply confined_ret.
  - apply confined_bind.
    + eapply confined_mono; [| |apply Hbody; left];
        intros q Hq; exists x; (split; [left|done]).
    + intros _. eapply confined_mono; [| |apply IH].
      * intros q (y & Hy & Hq). exists y. split; [by right|done].
      * intros q (y & Hy & Hq). exists y. split; [by right|done].
      * intros y Hy. apply Hbody. by right.
Qed.

Lemma quiet_for_each {A} (l : list A) (body : A → io unit) :
  (∀ x, quiet (body x)) → quiet (for_each l body).
Proof.
  intros Hbody. induction l as [|x l IH]; simpl.
  - apply quiet_ret.
  - apply quiet_bind; auto.
Qed.

(** ** The operating-system calls *)

Ltac confined_step :=
  first
    [ apply confined_ret | apply confined_raise | apply confined_get_files
    | apply confined_print
    | apply confined_bind; [|intros ?]
    | apply confined_try_except; [|intros ?] ].

Ltac quiet_step :=
  first
    [ apply quiet_ret | apply quiet_raise | apply quiet_get_files
    | apply quiet_put_files
    | apply quiet_bind; [|intros ?]
    | apply quiet_try_except; [|intros ?] ].

Section os_calls.
Import PurePath.
Implicit Types (C W : list string → Prop) (p q : list string).

Lemma confined_path_exists C W p : confined C W (OS.path_exists p).
Proof. unfold OS.path_exists. repeat confined_step. Qed.

Lemma confined_path_isdir C W p : confined C W (OS.path_isdir p).
Proof. unfold OS.path_isdir. repeat confined_step. Qed.

Lemma quiet_path_exists p : quiet (OS.path_exists p).
Proof. unfold OS.path_exists. repeat quiet_step. Qed.

Lemma quiet_path_isdir p : quiet (OS.path_isdir p).
Proof. unfold OS.path_isdir. repeat quiet_step. Qed.

Lemma path_exists_run p w :
  OS.path_exists p w = (Ok (bool_decide (is_Some (files w !! p))), w).
Proof. done. Qed.

Lemma path_isdir_run p w :
  OS.path_isdir p w =
  (Ok (match files w !! p with Some Dir => true | _ => false end), w).
Proof. done. Qed.

Lemma confined_mkdir p : confined (fun q => q = p) nowhere (OS.mkdir p).
Proof.
  intros w r w'. unfold OS.mkdir. io_simpl.
  destruct (files w !! p) eqn:Hp; [intros [= <- <-]; apply grows_refl|].
  destruct (files w !! parent p) as [[|?]|];
    intros [= <- <-]; simpl; try apply grows_refl.
  by apply grows_insert_new.
Qed.

Lemma quiet_mkdir p : quiet (OS.mkdir p).
Proof.
  unfold OS.mkdir. repeat quiet_step.
  destruct (a !! p); [quiet_step|].
  destruct (a !! parent p) as [[|?]|]; quiet_step.
Qed.

Lemma mkdir_ok p w w' :
  OS.mkdir p w = (Ok (), w') → files w' !! p = Some Dir.
Proof.
  unfold OS.mkdir. io_simpl.
  destruct (files w !! p); [done|].
  destruct (files w !! parent p) as [[|?]|]; intros [= <-]; simpl.
  apply lookup_insert_eq.
Qed.

Lemma confined_makedirs_rev rname :
  confined (fun q => q `prefix_of` rev rname) nowhere (OS.makedirs_rev rname).
Proof.
  induction rname as [|n rhead IH]; simpl OS.makedirs_rev.
  - eapply confined_mono; [| |apply confined_mkdir]; [by intros q ->|done].
  - apply confined_bind; [apply confined_path_exists|intros b].
    apply confined_bind; [|intros _].
    + destruct (_ && _); [|apply confined_ret].
      apply confined_try_except; [|intros _; apply confined_ret].
      eapply confined_mono; [| |apply IH]; [|done].
      intros q Hq. simpl. by apply prefix_app_r.
    + eapply confined_mono; [| |apply confined_mkdir]; [by intros q ->|done].
Qed.

Lemma confined_makedirs name :
  confined (fun q => q `prefix_of` name) nowhere (OS.makedirs name).
Proof.
  unfold OS.makedirs.
  eapply confined_mono; [| |apply confined_makedirs_rev]; [|done].
  intros q. by rewrite rev_involutive.
Qed.

Lemma quiet_makedirs name : quiet (OS.makedirs name).
Proof.
  unfold OS.makedirs. induction (rev name) as [|n rhead IH]; simpl.
  - apply quiet_mkdir.
  - apply quiet_bind; [apply quiet_path_exists|intros b].
    apply quiet_bind; [|intros _; apply quiet_mkdir].
    destruct (_ && _); [|apply quiet_ret].
    apply quiet_try_except; [done|intros _; apply quiet_ret].
Qed.

Lemma confined_mkdir_exist_ok p :
  confined (fun q => q = p) nowhere (OS.mkdir_exist_ok p).
Proof.
  unfold OS.mkdir_exist_ok.
  apply confined_try_except; [apply confined_mkdir|intros e].
  destruct e;
    first [ apply confined_bind; [apply confined_path_isdir|intros []; confined_step]
          | apply confined_raise ].
Qed.

Lemma quiet_mkdir_exist_ok p : quiet (OS.mkdir_exist_ok p).
Proof.
  unfold OS.mkdir_exist_ok.
  apply quiet_try_except; [apply quiet_mkdir|intros e].
  destruct e;
    first [ apply quiet_bind; [apply quiet_path_isdir|intros []; quiet_step]
          | apply quiet_raise ].
Qed.

Lemma mkdir_exist_ok_ok p w w' :
  OS.mkdir_exist_ok p w = (Ok (), w') → files w' !! p = Some Dir.
Proof.
  unfold OS.mkdir_exist_ok, try_except.
  destruct (OS.mkdir p w) as [[[]|e] w1] eqn:Hmk.
  - intros [= <-]. by eapply mkdir_ok.
  - unfold OS.path_isdir. io_simpl.
    destruct e; try done;
      destruct (files w1 !! p) as [[|?]|] eqn:Hp; try done;
      by intros [= <-].
Qed.

Lemma confined_read_file C W p : confined C W (OS.read_file p).
Proof.
  unfold OS.read_file. repeat confined_step.
  destruct (a !! p) as [[|?]|]; confined_step.
Qed.

Lemma quiet_read_file p : quiet (OS.read_file p).
Proof.
  unfold OS.read_file. repeat quiet_step.
  destruct (a !! p) as [[|?]|]; quiet_step.
Qed.

Lemma read_file_ok p w data w' :
  OS.read_file p w = (Ok data, w') → w' = w ∧ files w !! p = Some (File data).
Proof.
  unfold OS.read_file. io_simpl.
  destruct (files w !! p) as [[|?]|]; by intros [= <- <-].
Qed.

Lemma confined_write_file p data :
  confined (fun q => q = p) (fun q => q = p) (OS.write_file p data).
Proof.
  intros w r w'. unfold OS.write_file. io_simpl.
  destruct (files w !! p) as [[|old]|] eqn:Hp;
    [intros [= <- <-]; apply grows_refl|..];
    (destruct (files w !! parent p) as [[|?]|];
     intros [= <- <-]; simpl; try apply grows_refl;
     apply grows_insert_file; [done|done|by rewrite Hp]).
Qed.

Lemma quiet_write_file p data : quiet (OS.write_file p data).
Proof.
  unfold OS.write_file. repeat quiet_step.
  destruct (a !! p) as [[|?]|]; try quiet_step;
    destruct (a !! parent p) as [[|?]|]; quiet_step.
Qed.

Lemma write_file_ok p data w w' :
  OS.write_file p data w = (Ok (), w') →
  files w' = <[p := File data]> (files w) ∧ console w' = console w ∧
  files w !! parent p = Some Dir ∧ files w !! p ≠ Some Dir.
Proof.
  unfold OS.write_file. io_simpl.
  destruct (files w !! p) as [[|old]|] eqn:Hp; [done|..];
    (destruct (files w !! parent p) as [[|?]|]; [|done..];
     by intros [= <-]).
Qed.

Lemma write_file_run p data w :
  files w !! parent p = Some Dir → files w !! p ≠ Some Dir →
  OS.write_file p data w = (Ok (), mkWorld (<[p := File data]> (files w)) (console w)).
Proof.
  intros Hpar Hp. unfold OS.write_file. io_simpl. rewrite Hpar.
  by destruct (files w !! p) as [[|old]|].
Qed.

Lemma confined_iterdir C W p : confined C W (OS.iterdir p).
Proof.
  unfold OS.iterdir. repeat confined_step.
  destruct (a !! p) as [[|?]|]; confined_step.
Qed.

Lemma quiet_iterdir p : quiet (OS.iterdir p).
Proof.
  unfold OS.iterdir. repeat quiet_step.
  destruct (a !! p) as [[|?]|]; quiet_step.
Qed.

Lemma confined_copy2 src dst :
  confined (fun q => dst `prefix_of` q) (fun q => dst `prefix_of` q)
    (OS.copy2 src dst).
Proof.
  unfold OS.copy2.
  apply confined_bind; [apply confined_path_isdir|intros d].
  apply confined_bind; [apply confined_read_file|intros data].
  eapply confined_mono; [| |apply confined_write_file];
    intros q ->; (destruct d; [by apply prefix_app_r|done]).
Qed.

Lemma quiet_copy2 src dst : quiet (OS.copy2 src dst).
Proof.
  unfold OS.copy2.
  apply quiet_bind; [apply quiet_path_isdir|intros d].
  apply quiet_bind; [apply quiet_read_file|intros data].
  apply quiet_write_file.
Qed.

End os_calls.

Section rmtree.
Implicit Types (p q : list string).

Lemma rmtree_run p w :
  OS.rmtree_ignore_errors p w =
  (Ok (),
   match files w !! p with
   | Some Dir => mkWorld (filter (fun kv => ¬ p `prefix_of` kv.1) (files w)) (console w)
   | _ => w
   end).
Proof.
  unfold OS.rmtree_ignore_errors. io_simpl.
  by destruct (files w !! p) as [[|?]|].
Qed.

Lemma lookup_rmtree_inside (fs : gmap (list string) node) p q :
  p `prefix_of` q → filter (fun kv => ¬ p `prefix_of` kv.1) fs !! q = None.
Proof.
  intros Hpq. apply map_lookup_filter_None. right. intros nd _ Hn. by apply Hn.
Qed.

Lemma lookup_rmtree_outside (fs : gmap (list string) node) p q :
  ¬ p `prefix_of` q → filter (fun kv => ¬ p `prefix_of` kv.1) fs !! q = fs !! q.
Proof.
  intros Hpq. destruct (fs !! q) as [nd|] eqn:Hq.
  - by apply map_lookup_filter_Some.
  - apply map_lookup_filter_None. by left.
Qed.

End rmtree.

(** ** Unpacking an archive *)

Section unpack.
Import PurePath.
Implicit Types (root p q : list string) (m : zmember) (ms : list zmember).

Lemma confined_extract_member root m :
  confined (fun q => q `prefix_of` root ++ zname m)
           (fun q => q = root ++ zname m)
           (ZipFile.extract_member root m).
Proof.
  unfold ZipFile.extract_member.
  apply confined_bind; [apply confined_path_exists|intros b].
  apply confined_bind; [|intros _].
  - destruct (_ && _); [|apply confined_ret].
    eapply confined_mono; [| |apply confined_makedirs]; [|done].
    intros q Hq. etrans; [exact Hq|apply parent_prefix].
  - destruct (zdata m) as [|data|].
    + apply confined_bind; [apply confined_path_isdir|intros d].
      destruct d; [apply confined_ret|].
      eapply confined_mono; [| |apply confined_mkdir]; [by intros q ->|done].
    + eapply confined_mono; [| |apply confined_write_file]; by intros q ->.
    + apply confined_raise.
Qed.

Lemma quiet_extract_member root m : quiet (ZipFile.extract_member root m).
Proof.
  unfold ZipFile.extract_member.
  apply quiet_bind; [apply quiet_path_exists|intros b].
  apply quiet_bind; [|intros _].
  - destruct (_ && _); [apply quiet_makedirs|apply quiet_ret].
  - destruct (zdata m) as [|data|].
    + apply quiet_bind; [apply quiet_path_isdir|intros d].
      destruct d; [apply quiet_ret|apply quiet_mkdir].
    + apply quiet_write_file.
    + apply quiet_raise.
Qed.

Lemma extract_member_ok root m w w' :
  ZipFile.extract_member root m w = (Ok (), w') →
  unpacked_as m (files w' !! (root ++ zname m)).
Proof.
  unfold ZipFile.extract_member, unpacked_as.
  io_unfold. rewrite path_exists_run.
  destruct (_ && _).
  - destruct (OS.makedirs _ _) as [[[]|e] w1]; [|done].
    destruct (zdata m) as [|data|]; [| |done].
    + unfold OS.path_isdir. io_simpl.
      destruct (files w1 !! (root ++ zname m)) as [[|?]|] eqn:Hq.
      * by intros [= <-].
      * intros H. by apply mkdir_ok in H.
      * intros H. by apply mkdir_ok in H.
    + intros H. apply write_file_ok in H as (-> & _). apply lookup_insert_eq.
  - destruct (zdata m) as [|data|]; [| |done].
    + unfold OS.path_isdir. io_simpl.
      destruct (files w !! (root ++ zname m)) as [[|?]|] eqn:Hq.
      * by intros [= <-].
      * intros H. by apply mkdir_ok in H.
      * intros H. by apply mkdir_ok in H.
    + intros H. apply write_file_ok in H as (-> & _). apply lookup_insert_eq.
Qed.

Lemma confined_extractall root ms :
  confined (fun q => ∃ m, m ∈ ms ∧ q `prefix_of` root ++ zname m)
           (fun q => ∃ m, m ∈ ms ∧ q = root ++ zname m)
           (ZipFile.extractall ms root).
Proof.
  unfold ZipFile.extractall.
  apply (confined_for_each
           (fun m q => q `prefix_of` root ++ zname m)
           (fun m q => q = root ++ zname m)).
  intros m _. apply confined_extract_member.
Qed.

Lemma quiet_extractall root ms : quiet (ZipFile.extractall ms root).
Proof. apply quiet_for_each. intros m. apply quiet_extract_member. Qed.

(** Every member is there after a complete unpacking; with distinct
    member names, each with its own contents. *)
Lemma extractall_present root ms w w' :
  ZipFile.extractall ms root w = (Ok (), w') →
  ∀ m, m ∈ ms → is_Some (files w' !! (root ++ zname m)).
Proof.
  unfold ZipFile.extractall. revert w.
  induction ms as [|m0 ms IH]; intros w Hrun m Hm; [by apply elem_of_nil in Hm|].
  simpl in Hrun. io_unfold.
  destruct (ZipFile.extract_member root m0 w) as [[[]|e] w1] eqn:H0; [|done].
  apply elem_of_cons in Hm as [->|Hm]; [|by eapply IH].
  apply extract_member_ok in H0.
  eapply grows_is_Some; [by eapply (confined_extractall root ms)|].
  unfold unpacked_as in H0. destruct (zdata m0); [rewrite H0..|done]; eauto.
Qed.


End unpack.

(** ** The extractor, case by case *)

Lemma open_world E p w r w' : ZipFile.open E p w = (r, w') → w' = w.
Proof.
  unfold ZipFile.open. io_simpl.
  destruct (files w !! p) as [[|data]|]; [by intros [= _ <-]| |by intros [= _ <-]].
  destruct (parse_zip E data); by intros [= _ <-].
Qed.

Lemma extract_eq E pptx_path output_dir w :
  extract_images_from_pptx E pptx_path output_dir w =
  match ZipFile.open E pptx_path w with
  | (Raise e, _) => (Ok ([], None), warn e w)
  | (Ok members, _) =>
      match ZipFile.extractall members (temp_dir output_dir) w with
      | (Raise e, w1) => (Ok ([], None), warn e w1)
      | (Ok _, w1) =>
          match files w1 !! media_dir output_dir with
          | None => (Ok ([], Some (temp_dir output_dir)), w1)
          | Some Dir =>
              (Ok (filter (fun img_file => is_image img_file = true)
                     (OS.sorted (entries (files w1) (media_dir output_dir))),
                   Some (temp_dir output_dir)), w1)
          | Some (File _) => (Ok ([], None), warn NotADirectoryError w1)
          end
      end
  end.
Proof.
  unfold extract_images_from_pptx, media_dir, temp_dir, warn. io_unfold.
  destruct (ZipFile.open E pptx_path w) as [[ms|e] w0] eqn:Hopen;
    apply open_world in Hopen as ->; [|done].
  destruct (ZipFile.extractall ms _ w) as [[[]|e] w1]; [|done].
  rewrite path_exists_run. unfold OS.iterdir, entries. io_simpl.
  destruct (files w1 !! _) as [[|data]|] eqn:Hm.
  - rewrite bool_decide_eq_true_2 by eauto. simpl. by rewrite Hm.
  - rewrite bool_decide_eq_true_2 by eauto. simpl. by rewrite Hm.
  - rewrite bool_decide_eq_false_2; [done|]. by intros [? ?].
Qed.

(** The extractor does not raise. *)
Lemma extract_returns E pptx_path output_dir w :
  ∃ images temp_extract w',
    extract_images_from_pptx E pptx_path output_dir w =
    (Ok (images, temp_extract), w').
Proof.
  rewrite extract_eq.
  destruct (ZipFile.open _ _ _) as [[ms|e] w0]; [|eauto].
  destruct (ZipFile.extractall _ _ _) as [[[]|e] w1]; [|eauto].
  destruct (files w1 !! _) as [[|data]|]; eauto.
Qed.

(** Its writes stay with the members of the archive, below the
    extraction directory and on the way to it. *)
Lemma extract_grows E pptx_path output_dir w r w' :
  extract_images_from_pptx E pptx_path output_dir w = (r, w') →
  grows (fun q => q `prefix_of` temp_dir output_dir ∨ temp_dir output_dir `prefix_of` q)
        (fun q => temp_dir output_dir `prefix_of` q)
        (files w) (files w').
Proof.
  rewrite extract_eq.
  destruct (ZipFile.open _ _ _) as [[ms|e] w0];
    [|intros [= _ <-]; apply grows_refl].
  destruct (ZipFile.extractall _ _ _) as [[[]|e] w1] eqn:Hx.
  all: apply confined_extractall in Hx.
  all: assert (grows (fun q => q `prefix_of` temp_dir output_dir ∨
                               temp_dir output_dir `prefix_of` q)
                 (fun q => temp_dir output_dir `prefix_of` q)
                 (files w) (files w1)) as Hg
    by (eapply grows_mono; [| |exact Hx];
        [intros q (m & _ & Hq); by eapply prefix_of_app_cases
        |intros q (m & _ & ->); by apply prefix_app_r]).
  - destruct (files w1 !! _) as [[|data]|]; by intros [= _ <-].
  - by intros [= _ <-].
Qed.

(** ** Sorting the entries of a directory *)

Section sorting.
Implicit Types (d p q : list string) (l : list (list string)).

Lemma StronglySorted_filter {A} (R : relation A) (P : A → Prop)
    `{∀ x, Decision (P x)} (l : list A) :
  StronglySorted R l → StronglySorted R (filter P l).
Proof.
  induction 1 as [|x l Hl IH Hx]; [constructor|].
  rewrite filter_cons. destruct (decide (P x)); [|done].
  constructor; [done|].
  apply Forall_forall. intros y Hy. apply list_elem_of_filter in Hy as [_ Hy].
  rewrite Forall_forall in Hx. auto.
Qed.

Lemma sorted_perm l : OS.sorted l ≡ₚ l.
Proof. apply merge_sort_Permutation. Qed.

Lemma sorted_StronglySorted l : StronglySorted PurePath.le (OS.sorted l).
Proof. apply StronglySorted_merge_sort; apply _. Qed.

Lemma is_image_snoc d n : is_image (d ++ [n]) = is_image [n].
Proof. unfold is_image. by rewrite name_snoc. Qed.

(** Distinct siblings in path order are in strict order of their names. *)
Lemma siblings_by_name d l :
  Forall (fun p => ∃ n, p = d ++ [n]) l →
  StronglySorted PurePath.le l → NoDup l →
  l = (fun n => d ++ [n]) <$> (PurePath.name <$> l) ∧
  StronglySorted name_lt (PurePath.name <$> l).
Proof.
  induction l as [|p l IH]; intros Hall Hs Hnd; [split; [done|constructor]|].
  apply Forall_cons in Hall as [[n ->] Hall].
  apply StronglySorted_inv in Hs as [Hs Hle].
  apply NoDup_cons in Hnd as [Hp Hnd].
  destruct (IH Hall Hs Hnd) as [Heq Hsorted].
  rewrite !fmap_cons, name_snoc. split; [by rewrite <- Heq|].
  constructor; [done|].
  apply Forall_fmap, Forall_forall. intros q Hq. simpl.
  rewrite Forall_forall in Hall, Hle.
  destruct (Hall q Hq) as [k ->]. rewrite name_snoc.
  specialize (Hle _ Hq). apply path_le_sibling in Hle.
  unfold name_lt. destruct (String.compare n k) eqn:Hc; [|done|done].
  apply String.compare_eq_iff in Hc as ->. done.
Qed.

End sorting.

(** ** The extractor: filter, order, failure *)

(** C10: assets are chosen among the direct entries of the media folder
    by the suffix of the entry's name alone: nothing below a subfolder is
    returned, and an entry with an allowed suffix is returned whatever
    kind of node it is, a directory included. *)
Theorem extract_top_level_by_suffix E pptx_path output_dir w images t w' :
  extract_images_from_pptx E pptx_path output_dir w = (Ok (images, Some t), w') →
  (∀ p, p ∈ images → ∃ n, p = media_dir output_dir ++ [n] ∧ is_image [n] = true) ∧
  (∀ n rest, rest ≠ [] → media_dir output_dir ++ n :: rest ∉ images) ∧
  (files w' !! media_dir output_dir = Some Dir →
   ∀ n nd, files w' !! (media_dir output_dir ++ [n]) = Some nd →
           is_image [n] = true →
           media_dir output_dir ++ [n] ∈ images).
Proof.
  rewrite extract_eq.
  destruct (ZipFile.open _ _ _) as [[ms|e] w0]; [|done].
  destruct (ZipFile.extractall _ _ _) as [[[]|e] w1]; [|done].
  destruct (files w1 !! _) as [[|data]|] eqn:Hm; [|done|];
    intros [= <- <- <-].
  - assert (∀ p, p ∈ filter (fun p => is_image p = true)
                       (OS.sorted (entries (files w1) (media_dir output_dir))) →
                 ∃ n, p = media_dir output_dir ++ [n] ∧ is_image [n] = true) as Htop.
    { intros p Hp. apply list_elem_of_filter in Hp as [Himg Hp].
      rewrite sorted_perm in Hp. apply entries_spec in Hp as (n & -> & _).
      rewrite is_image_snoc in Himg. eauto. }
    split; [done|]. split.
    + intros n rest Hrest Hin. apply Htop in Hin as (k & Heq & _).
      apply app_inv_head in Heq. destruct rest; simplify_eq.
    + intros _ n nd Hn Himg. apply list_elem_of_filter.
      rewrite is_image_snoc, sorted_perm, entries_spec. eauto.
  - split; [|split].
    + intros p Hp. by apply elem_of_nil in Hp.
    + intros n rest _ Hin. by apply elem_of_nil in Hin.
    + congruence.
Qed.



(** C6: when opening the archive or unpacking it raises, the extractor
    returns the empty list with no directory, having printed the warning
    for that exception, and the pipeline goes on to the converter without
    the image step, whatever the flag. *)
Theorem extract_unpack_failure E pptx_path output_dir keep_images w e w1 :
  let w0 := mkWorld (files w) (console w ++ [Processing (PurePath.name pptx_path)]) in
  (ZipFile.open E pptx_path w0 = (Raise e, w1) ∨
   ∃ members, ZipFile.open E pptx_path w0 = (Ok members, w0) ∧
              ZipFile.extractall members (temp_dir output_dir) w0 = (Raise e, w1)) →
  extract_images_from_pptx E pptx_path output_dir w0 = (Ok ([], None), warn e w1) ∧
  console (warn e w1) = console w0 ++ [WarnExtract e] ∧
  convert_pptx_to_markdown E pptx_path output_dir keep_images w =
    stage_convert E pptx_path output_dir None (warn e w1).
Proof.
  intros w0 Hfail.
  assert (extract_images_from_pptx E pptx_path output_dir w0 =
          (Ok ([], None), warn e w1)) as Hex.
  { rewrite extract_eq. destruct Hfail as [Hopen|(ms & Hopen & Hx)].
    - rewrite Hopen. by apply open_world in Hopen as ->.
    - by rewrite Hopen, Hx. }
  split; [done|]. split.
  - simpl. f_equal. destruct Hfail as [Hopen|(ms & Hopen & Hx)].
    + by apply open_world in Hopen as ->.
    + by apply quiet_extractall in Hx.
  - rewrite convert_stages. unfold stage_images. io_unfold. simpl.
    fold w0. by rewrite Hex.
Qed.

(** ** The paths of one invocation do not meet *)

Section names_apart.
Implicit Types (s t : string) (out pptx : list string).

Lemma last_char_app s t : t ≠ "" → last_char (s +:+ t) = last_char t.
Proof.
  intros Ht. induction s as [|a s IH]; [done|].
  change (String a s +:+ t) with (String a (s +:+ t)). simpl. rewrite IH.
  destruct t as [|b t]; [done|]. simpl. by destruct (last_char t).
Qed.

Lemma md_name_not_temp s : s +:+ ".md" ≠ "temp_extract".
Proof.
  intros H. apply (f_equal last_char) in H.
  by rewrite last_char_app in H.
Qed.

Lemma images_name_not_temp s : s +:+ "_images" ≠ "temp_extract".
Proof.
  intros H. apply (f_equal last_char) in H.
  by rewrite last_char_app in H.
Qed.

Lemma md_name_not_images s : s +:+ ".md" ≠ s +:+ "_images".
Proof. intros H. by apply (inj (String.app s)) in H. Qed.

Lemma snoc_prefix_snoc (d : list string) a b k :
  d ++ [a] `prefix_of` d ++ b :: k → a = b.
Proof.
  intros H. apply prefix_app_inv in H. destruct H as [k' H]. by simplify_eq/=.
Qed.

Lemma md_not_above_temp pptx out : ¬ md_path pptx out `prefix_of` temp_dir out.
Proof.
  unfold md_path, temp_dir. intros H%snoc_prefix_snoc. by apply md_name_not_temp in H.
Qed.

Lemma md_not_below_temp pptx out : ¬ temp_dir out `prefix_of` md_path pptx out.
Proof.
  unfold md_path, temp_dir. intros H%snoc_prefix_snoc.
  symmetry in H. by apply md_name_not_temp in H.
Qed.

Lemma md_not_below_images pptx out : ¬ img_dir pptx out `prefix_of` md_path pptx out.
Proof.
  unfold md_path, img_dir. intros H%snoc_prefix_snoc.
  symmetry in H. by apply md_name_not_images in H.
Qed.

Lemma images_not_below_temp pptx out k :
  ¬ temp_dir out `prefix_of` img_dir pptx out ++ k.
Proof.
  unfold temp_dir, img_dir. rewrite <- app_assoc. simpl.
  intros H%snoc_prefix_snoc. symmetry in H. by apply images_name_not_temp in H.
Qed.

Lemma images_not_above_temp pptx out : ¬ img_dir pptx out `prefix_of` temp_dir out.
Proof.
  unfold temp_dir, img_dir. intros H%snoc_prefix_snoc.
  by apply images_name_not_temp in H.
Qed.

Lemma temp_not_below_images pptx out k :
  ¬ img_dir pptx out `prefix_of` temp_dir out ++ k.
Proof.
  unfold temp_dir, img_dir. rewrite <- app_assoc. simpl.
  intros H%snoc_prefix_snoc. by apply images_name_not_temp in H.
Qed.

Lemma parent_md pptx out : PurePath.parent (md_path pptx out) = out.
Proof. apply parent_snoc. Qed.

End names_apart.

(** ** The two stages of the pipeline *)

Section stages.
Context (E : Env) (pptx_path output_dir : list string).
Implicit Types (w : World) (q : list string).

Abbreviation temp := (temp_dir output_dir).
Abbreviation md := (md_path pptx_path output_dir).
Abbreviation imgs_dir := (img_dir pptx_path output_dir).

Lemma cleanup_run t w : cleanup t w = (Ok (), after_cleanup t w).
Proof.
  unfold cleanup, after_cleanup. destruct t as [t|]; [|done].
  io_unfold. rewrite path_exists_run.
  destruct (files w !! t) as [[|data]|] eqn:Ht.
  - rewrite bool_decide_eq_true_2 by eauto. by rewrite rmtree_run, Ht.
  - rewrite bool_decide_eq_true_2 by eauto. by rewrite rmtree_run, Ht.
  - rewrite bool_decide_eq_false_2; [done|]. by intros [? ?].
Qed.

Lemma after_cleanup_console t w : console (after_cleanup t w) = console w.
Proof.
  unfold after_cleanup. destruct t as [t|]; [|done].
  by destruct (files w !! t) as [[|?]|].
Qed.

Lemma after_cleanup_outside t w q :
  (∀ t', t = Some t' → ¬ t' `prefix_of` q) →
  files (after_cleanup t w) !! q = files w !! q.
Proof.
  unfold after_cleanup. destruct t as [t|]; [|done]. intros Hq.
  destruct (files w !! t) as [[|?]|]; [|done..].
  simpl. apply lookup_rmtree_outside. by apply Hq.
Qed.

Lemma after_cleanup_inside t w q :
  files w !! t = Some Dir → t `prefix_of` q →
  files (after_cleanup (Some t) w) !! q = None.
Proof.
  intros Ht Hq. unfold after_cleanup. rewrite Ht. simpl.
  by apply lookup_rmtree_inside.
Qed.

(** The directory handed over by the extractor is the fixed one. *)
Lemma extract_temp w images t w' :
  extract_images_from_pptx E pptx_path output_dir w = (Ok (images, Some t), w') →
  t = temp.
Proof.
  rewrite extract_eq.
  destruct (ZipFile.open _ _ _) as [[ms|e] w0]; [|done].
  destruct (ZipFile.extractall _ _ _) as [[[]|e] w1]; [|done].
  destruct (files w1 !! _) as [[|data]|]; by intros [= _ <- _].
Qed.

Lemma stage_images_eq keep_images w :
  stage_images E pptx_path output_dir keep_images w =
  match extract_images_from_pptx E pptx_path output_dir
          (mkWorld (files w) (console w ++ [Processing (PurePath.name pptx_path)])) with
  | (Ok (images, t), w1) =>
      if negb (bool_decide (images = [])) && keep_images
      then match copy_images pptx_path output_dir images w1 with
           | (Ok _, w2) => (Ok t, w2)
           | (Raise e, w2) => (Raise e, w2)
           end
      else (Ok t, w1)
  | (Raise e, w1) => (Raise e, w1)
  end.
Proof.
  unfold stage_images, copy_images. io_unfold. simpl.
  destruct (extract_images_from_pptx _ _ _ _) as [[[images t]|e] w1]; [|done].
  simpl. destruct (_ && _); [|done].
  destruct (OS.mkdir_exist_ok _ _) as [[[]|e] w2]; [|done]. simpl.
  by destruct (for_each _ _ _) as [[[]|e] w3].
Qed.

Lemma confined_copy_images images :
  confined (fun q => imgs_dir `prefix_of` q) (fun q => imgs_dir `prefix_of` q)
    (copy_images pptx_path output_dir images).
Proof.
  unfold copy_images.
  apply confined_bind; [|intros _; apply confined_bind; [apply confined_print|intros _]].
  - eapply confined_mono; [| |apply confined_mkdir_exist_ok]; [by intros q ->|done].
  - eapply confined_mono; [| |apply (confined_for_each
        (fun img q => imgs_dir ++ [PurePath.name img] `prefix_of` q)
        (fun img q => imgs_dir ++ [PurePath.name img] `prefix_of` q))].
    + intros q (img & _ & Hq). by eapply prefix_app_l.
    + intros q (img & _ & Hq). by eapply prefix_app_l.
    + intros img _. apply confined_copy2.
Qed.

(** What the first stage can change: entries on the way to and below
    [temp_extract], and, with the flag, below the images folder. *)
Lemma stage_images_grows keep_images w r w' :
  stage_images E pptx_path output_dir keep_images w = (r, w') →
  grows (fun q => q `prefix_of` temp ∨ temp `prefix_of` q ∨
                  (keep_images = true ∧ imgs_dir `prefix_of` q))
        (fun q => temp `prefix_of` q ∨
                  (keep_images = true ∧ imgs_dir `prefix_of` q))
        (files w) (files w').
Proof.
  rewrite stage_images_eq.
  destruct (extract_images_from_pptx _ _ _ _) as [[[images t]|e] w1] eqn:Hex.
  - apply extract_grows in Hex. simpl in Hex.
    assert (grows (fun q => q `prefix_of` temp ∨ temp `prefix_of` q ∨
                            (keep_images = true ∧ imgs_dir `prefix_of` q))
                  (fun q => temp `prefix_of` q ∨
                            (keep_images = true ∧ imgs_dir `prefix_of` q))
                  (files w) (files w1)) as Hg
      by (eapply grows_mono; [| |exact Hex]; intros q; cbv beta; tauto).
    destruct (negb _ && keep_images) eqn:Hk; [|by intros [= _ <-]].
    apply andb_true_iff in Hk as [_ ->].
    destruct (copy_images pptx_path output_dir images w1) as [[[]|e] w2] eqn:Hcp;
      intros [= _ <-]; (eapply grows_trans; [exact Hg|]);
      (eapply grows_mono; [| |by eapply confined_copy_images]);
      cbv beta; intros q ?; auto.
  - destruct (extract_returns E pptx_path output_dir
                (mkWorld (files w) (console w ++ [Processing (PurePath.name pptx_path)])))
      as (? & ? & ? & Hret). congruence.
Qed.

Lemma stage_images_temp keep_images w t w' :
  stage_images E pptx_path output_dir keep_images w = (Ok (Some t), w') → t = temp.
Proof.
  rewrite stage_images_eq.
  destruct (extract_images_from_pptx _ _ _ _) as [[[images t']|e] w1] eqn:Hex; [|done].
  destruct (negb _ && keep_images).
  - destruct (copy_images pptx_path output_dir images w1) as [[[]|e] w2]; [|done].
    intros [= -> _]. by eapply extract_temp.
  - intros [= -> _]. by eapply extract_temp.
Qed.

(** Without the flag the first stage always reaches the converter. *)
Lemma stage_images_no_flag w :
  ∃ t w1, stage_images E pptx_path output_dir false w = (Ok t, w1).
Proof.
  rewrite stage_images_eq.
  destruct (extract_returns E pptx_path output_dir
              (mkWorld (files w) (console w ++ [Processing (PurePath.name pptx_path)])))
    as (images & t & w1 & ->).
  rewrite andb_false_r. eauto.
Qed.

(** The second stage, case by case. *)
Lemma stage_convert_eq t w :
  stage_convert E pptx_path output_dir t w =
  match markitdown E (files w) pptx_path with
  | None => (Raise FileNotFoundError, after_cleanup t w)
  | Some c =>
      if (returncode c =? 0)%Z then
        match date E with
        | None => (Raise FileNotFoundError, after_cleanup t w)
        | Some stamp =>
            match OS.write_file md (document pptx_path c stamp) w with
            | (Ok _, w1) =>
                (Ok true,
                 after_cleanup t
                   (mkWorld (files w1)
                      (console w1 ++
                         [Created (PurePath.stem pptx_path +:+ ".md");
                          Size (String.length (document pptx_path c stamp))])))
            | (Raise e, w1) => (Raise e, after_cleanup t w1)
            end
        end
      else
        (Ok false,
         after_cleanup t
           (mkWorld (files w)
              (console w ++
                 [ErrorConverting (CalledProcessError (returncode c) (stderr c));
                  Stderr (stderr c)])))
  end.
Proof.
  unfold stage_convert, subprocess.run, document. io_unfold.
  fold (md_path pptx_path output_dir). simpl.
  destruct (markitdown E (files w) pptx_path) as [c|]; simpl;
    [|by rewrite cleanup_run].
  destruct (returncode c =? 0)%Z; simpl.
  - destruct (date E) as [stamp|]; simpl; [|by rewrite cleanup_run].
    destruct (OS.write_file _ _ w) as [[[]|e] w1] eqn:Hw; simpl.
    + apply write_file_ok in Hw as (Hf & Hc & _).
      unfold OS.stat_size. io_simpl. rewrite Hf, lookup_insert_eq. simpl.
      rewrite cleanup_run. do 2 f_equal. by rewrite <- app_assoc.
    + assert (is_CalledProcessError e = false) as ->; [|by rewrite cleanup_run].
      revert Hw. unfold OS.write_file. io_simpl.
      destruct (files w !! md) as [[|?]|];
        [by intros [= <- _]|..];
        destruct (files w !! PurePath.parent md) as [[|?]|]; by intros [= <- _].
  - rewrite cleanup_run. do 2 f_equal. by rewrite <- app_assoc.
Qed.

End stages.

(** ** The pipeline: the output document *)

Section document.
Context (E : Env) (pptx_path output_dir : list string).
Implicit Types (w : World) (q : list string).

Abbreviation temp := (temp_dir output_dir).
Abbreviation md := (md_path pptx_path output_dir).
Abbreviation imgs_dir := (img_dir pptx_path output_dir).

Lemma stage_images_md keep_images w r w' :
  stage_images E pptx_path output_dir keep_images w = (r, w') →
  files w' !! md = files w !! md.
Proof.
  intros H%stage_images_grows. eapply grows_frame; [exact H|..].
  - intros [Hq|[Hq|[_ Hq]]].
    + by eapply md_not_above_temp.
    + by eapply md_not_below_temp.
    + by eapply md_not_below_images.
  - intros [Hq|[_ Hq]].
    + by eapply md_not_below_temp.
    + by eapply md_not_below_images.
Qed.

Lemma cleanup_keeps_md t w :
  (t = None ∨ t = Some temp) →
  files (after_cleanup t w) !! md = files w !! md.
Proof.
  intros Ht. apply after_cleanup_outside. intros t' ->.
  destruct Ht as [|[= ->]]; [done|]. apply md_not_below_temp.
Qed.

Lemma stage_images_hands_over keep_images w t w' :
  stage_images E pptx_path output_dir keep_images w = (Ok t, w') →
  t = None ∨ t = Some temp.
Proof.
  destruct t as [t|]; [|by left]. intros ->%stage_images_temp. by right.
Qed.

(** The second stage touches the document and what lies below the
    extraction directory, nothing else. *)
Lemma stage_convert_frame t w r w' q :
  stage_convert E pptx_path output_dir t w = (r, w') →
  (t = None ∨ t = Some temp) →
  q ≠ md → ¬ temp `prefix_of` q →
  files w' !! q = files w !! q.
Proof.
  rewrite stage_convert_eq. intros Hrun Ht Hq Hout.
  assert (∀ w0, files (after_cleanup t w0) !! q = files w0 !! q) as Hc.
  { intros w0. apply after_cleanup_outside. intros t' ->.
    by destruct Ht as [|[= ->]]. }
  destruct (markitdown E (files w) pptx_path) as [c|];
    [|by injection Hrun as _ <-].
  destruct (returncode c =? 0)%Z; [|by injection Hrun as _ <-; rewrite Hc].
  destruct (date E) as [stamp|]; [|by injection Hrun as _ <-].
  destruct (OS.write_file _ _ w) as [[[]|e] w1] eqn:Hw;
    apply confined_write_file in Hw;
    injection Hrun as _ <-; rewrite Hc; simpl;
    by eapply grows_frame.
Qed.

(** C2: when the pipeline reaches the converter and the converter exits
    with a status other than 0, the call returns [False], the path of
    the output document holds what it held before the call, and the
    error with the captured diagnostic output is printed. *)
Theorem converter_failure_writes_nothing keep_images w t w1 c :
  stage_images E pptx_path output_dir keep_images w = (Ok t, w1) →
  markitdown E (files w1) pptx_path = Some c →
  returncode c ≠ 0%Z →
  ∃ w', convert_pptx_to_markdown E pptx_path output_dir keep_images w = (Ok false, w') ∧
        files w' !! md = files w !! md ∧
        console w' =
          console w1 ++
            [ErrorConverting (CalledProcessError (returncode c) (stderr c));
             Stderr (stderr c)].
Proof.
  intros Hst Hrun Hrc. rewrite convert_stages. io_unfold. rewrite Hst.
  rewrite stage_convert_eq, Hrun.
  apply Z.eqb_neq in Hrc. rewrite Hrc.
  eexists. split; [done|]. split.
  - rewrite cleanup_keeps_md by by eapply stage_images_hands_over.
    simpl. by eapply stage_images_md.
  - by rewrite after_cleanup_console.
Qed.

Lemma string_app_assoc (a b c : string) : (a +:+ b) +:+ c = a +:+ (b +:+ c).
Proof.
  induction a as [|x a IH]; [done|].
  change ((String x a +:+ b) +:+ c) with (String x ((a +:+ b) +:+ c)).
  by rewrite IH.
Qed.

(** The text of the document, unit by unit. *)
Lemma document_text c stamp :
  document pptx_path c stamp =
  "# " +:+ PurePath.stem pptx_path +:+ "

**Source File:** " +:+ PurePath.name pptx_path +:+ "  
**Converted:** " +:+ PurePath.strip (stdout stamp) +:+ "

---

" +:+ stdout c.
Proof.
  unfold document, header, nl.
  rewrite !string_app_assoc. done.
Qed.


(** C3, as the code has it: a call that returns [False] leaves the
    document's path as it was, and changes nothing outside the
    extraction directory (and the way to it) and, with the flag set,
    outside the images folder. *)
Theorem failed_conversion_frame keep_images w w' :
  convert_pptx_to_markdown E pptx_path output_dir keep_images w = (Ok false, w') →
  files w' !! md = files w !! md ∧
  ∀ q, ¬ q `prefix_of` temp → ¬ temp `prefix_of` q →
       (keep_images = true → ¬ imgs_dir `prefix_of` q) →
       files w' !! q = files w !! q.
Proof.
  rewrite convert_stages. io_unfold.
  destruct (stage_images _ _ _ _ _) as [[t|e] w1] eqn:Hst; [|done].
  intros Hcv.
  pose proof (stage_images_hands_over _ _ _ _ Hst) as Ht.
  assert (files w' !! md = files w1 !! md) as Hmd.
  { revert Hcv. rewrite stage_convert_eq.
    destruct (markitdown E (files w1) pptx_path) as [c|]; [|done].
    destruct (returncode c =? 0)%Z.
    - destruct (date E) as [stamp|]; [|done].
      by destruct (OS.write_file _ _ w1) as [[[]|e] w2].
    - intros [= <-]. by rewrite cleanup_keeps_md. }
  split; [by rewrite Hmd; eapply stage_images_md|].
  intros q Habove Hbelow Himg.
  destruct (decide (q = md)) as [->|Hq]; [by rewrite Hmd; eapply stage_images_md|].
  rewrite (stage_convert_frame _ _ _ _ _ Hcv Ht Hq Hbelow).
  eapply grows_frame; [by eapply stage_images_grows|..]; cbv beta; tauto.
Qed.

(** What the [finally] block achieves: a directory the extractor hands
    over is gone, with all below it, on every way out of the second
    stage. *)
Lemma cleanup_removes_directory w r w' q :
  stage_convert E pptx_path output_dir (Some temp) w = (r, w') →
  files w !! temp = Some Dir → temp `prefix_of` q →
  files w' !! q = None.
Proof.
  rewrite stage_convert_eq. intros Hrun Ht Hq.
  assert (∃ w0, w' = after_cleanup (Some temp) w0 ∧ files w0 !! temp = Some Dir)
    as (w0 & -> & H0); [|by apply after_cleanup_inside].
  destruct (markitdown E (files w) pptx_path) as [c|];
    [|injection Hrun as _ Hw'; eexists; split; [symmetry; exact Hw'|done]].
  destruct (returncode c =? 0)%Z; [|injection Hrun as _ Hw'; eexists; split; [symmetry; exact Hw'|done]].
  destruct (date E) as [stamp|]; [|injection Hrun as _ Hw'; eexists; split; [symmetry; exact Hw'|done]].
  destruct (OS.write_file _ _ w) as [[[]|e] w1] eqn:Hw;
    apply confined_write_file in Hw;
    injection Hrun as _ Hw'; (eexists; split; [symmetry; exact Hw'|]); simpl;
    by eapply grows_dir.
Qed.

End document.

(** ** The pipeline: the images folder *)

Section images.
Implicit Types (w : World) (dir src dst q : list string) (n : string).

Lemma copy2_ok src dst w w' :
  OS.copy2 src dst w = (Ok (), w') →
  ∃ data,
    files w !! src = Some (File data) ∧
    files w' =
      <[(if match files w !! dst with Some Dir => true | _ => false end
         then dst ++ [PurePath.name src] else dst) := File data]> (files w).
Proof.
  unfold OS.copy2. io_unfold. rewrite path_isdir_run.
  destruct (OS.read_file src w) as [[data|e] w1] eqn:Hr; [|done].
  apply read_file_ok in Hr as [-> Hsrc].
  intros Hw%write_file_ok. exists data. split; [done|]. apply Hw.
Qed.

(** The copy loop, name by name: the last asset of a name is the one
    found under that name afterwards; a name no asset has is left alone. *)
Lemma copy_loop_last_wins dir images w w' n :
  for_each images (fun img => OS.copy2 img (dir ++ [PurePath.name img])) w = (Ok (), w') →
  (∀ img, img ∈ images → ¬ dir `prefix_of` img) →
  files w !! (dir ++ [n]) ≠ Some Dir →
  match last (filter (fun img => PurePath.name img = n) images) with
  | Some img =>
      ∃ data, files w !! img = Some (File data) ∧
              files w' !! (dir ++ [n]) = Some (File data)
  | None => files w' !! (dir ++ [n]) = files w !! (dir ++ [n])
  end.
Proof.
  revert w. induction images as [|img rest IH]; intros w Hrun Hsrc Hn.
  { simpl in *. by injection Hrun as <-. }
  simpl in Hrun. io_unfold.
  destruct (OS.copy2 _ _ w) as [[[]|e] w1] eqn:Hcp; [|done].
  apply copy2_ok in Hcp as (data0 & Himg & Hw1).
  set (dst := if match files w !! (dir ++ [PurePath.name img]) with
                 | Some Dir => true | _ => false end
              then (dir ++ [PurePath.name img]) ++ [PurePath.name img]
              else dir ++ [PurePath.name img]) in *.
  assert (dir `prefix_of` dst) as Hdst.
  { unfold dst. destruct (match files w !! _ with Some Dir => true | _ => false end);
      rewrite <- ?app_assoc; by apply prefix_app_r. }
  assert (∀ src, src ∈ rest → files w1 !! src = files w !! src) as Hsame.
  { intros src Hin. rewrite Hw1. apply lookup_insert_ne. intros <-.
    apply (Hsrc dst); [by right|done]. }
  assert (files w1 !! (dir ++ [n]) ≠ Some Dir) as Hn1.
  { rewrite Hw1. destruct (decide (dst = dir ++ [n])) as [->|Hne].
    - by rewrite lookup_insert_eq.
    - by rewrite lookup_insert_ne. }
  specialize (IH w1 Hrun (fun i Hi => Hsrc i (list_elem_of_further _ _ _ Hi)) Hn1).
  rewrite filter_cons. destruct (decide (PurePath.name img = n)) as [Hname|Hname].
  - assert (dst = dir ++ [n]) as Hd.
    { unfold dst. rewrite Hname.
      by destruct (files w !! (dir ++ [n])) as [[|?]|]. }
    destruct (filter _ rest) as [|i fr] eqn:Hf.
    + simpl in *. exists data0. split; [done|].
      rewrite IH, Hw1, Hd. apply lookup_insert_eq.
    + rewrite last_cons.
      destruct (last (i :: fr)) as [img'|] eqn:Hl; [|by apply last_None in Hl].
      destruct IH as (data & Hd' & Hres). exists data. split; [|done].
      rewrite <- Hsame; [done|].
      apply last_Some_elem_of in Hl. rewrite <- Hf in Hl.
      by apply list_elem_of_filter in Hl as [_ ?].
  - assert (dst ≠ dir ++ [n]) as Hd.
    { unfold dst.
      destruct (match files w !! _ with Some Dir => true | _ => false end).
      - rewrite <- app_assoc. intros Heq%app_inv_head. done.
      - intros Heq%app_inv_head. by simplify_eq. }
    destruct (last (filter _ rest)) as [img'|] eqn:Hl.
    + destruct IH as (data & Hd' & Hres). exists data. split; [|done].
      rewrite <- Hsame; [done|].
      apply last_Some_elem_of in Hl.
      by apply list_elem_of_filter in Hl as [_ ?].
    + rewrite IH, Hw1. by apply lookup_insert_ne.
Qed.

(** The directory of the images can be made when nothing but a
    directory is at its place and its parent is a directory. *)
Lemma mkdir_exist_ok_runs dir w :
  files w !! PurePath.parent dir = Some Dir →
  (∀ data, files w !! dir ≠ Some (File data)) →
  ∃ w', OS.mkdir_exist_ok dir w = (Ok (), w').
Proof.
  intros Hpar Hdir. unfold OS.mkdir_exist_ok, try_except, OS.mkdir, OS.path_isdir.
  io_simpl. destruct (files w !! dir) as [[|data]|] eqn:Hd.
  - simpl. rewrite Hd. eauto.
  - by destruct (Hdir data).
  - rewrite Hpar. eauto.
Qed.

(** The copy loop runs through when every asset is a regular file
    outside the folder and no directory sits where a copy goes. *)
Lemma copy_loop_runs dir images w :
  files w !! dir = Some Dir →
  (∀ img, img ∈ images → ∃ data, files w !! img = Some (File data)) →
  (∀ img, img ∈ images → files w !! (dir ++ [PurePath.name img]) ≠ Some Dir) →
  (∀ img, img ∈ images → ¬ dir `prefix_of` img) →
  ∃ w', for_each images (fun img => OS.copy2 img (dir ++ [PurePath.name img])) w
        = (Ok (), w').
Proof.
  revert w. induction images as [|img rest IH]; intros w Hdir Hsrc Hdst Hout.
  { simpl. by eexists. }
  simpl. io_unfold.
  destruct (Hsrc img) as [data Himg]; [by left|].
  assert (OS.copy2 img (dir ++ [PurePath.name img]) w =
          (Ok (), mkWorld (<[dir ++ [PurePath.name img] := File data]> (files w))
                    (console w))) as ->.
  { unfold OS.copy2. io_unfold. rewrite path_isdir_run.
    assert (files w !! (dir ++ [PurePath.name img]) ≠ Some Dir) as Hd
      by (apply Hdst; by left).
    destruct (files w !! (dir ++ [PurePath.name img])) as [[|old]|] eqn:Hold;
      [done|..];
      unfold OS.read_file; io_simpl; rewrite Himg; simpl;
      apply write_file_run; rewrite ?parent_snoc, ?Hold; done. }
  apply IH; simpl.
  - rewrite lookup_insert_ne; [done|].
    intros Heq%(f_equal length). rewrite length_app in Heq. simpl in Heq. lia.
  - intros src Hin. rewrite lookup_insert_ne; [apply Hsrc; by right|].
    intros <-. apply (Hout (dir ++ [PurePath.name img])); [by right|].
    by apply prefix_app_r.
  - intros src Hin.
    destruct (decide (dir ++ [PurePath.name img] = dir ++ [PurePath.name src]))
      as [<-|Hne].
    + by rewrite lookup_insert_eq.
    + rewrite lookup_insert_ne by done. apply Hdst. by right.
  - intros src Hin. apply Hout. by right.
Qed.

Lemma name_lt_irrefl n : ¬ name_lt n n.
Proof. unfold name_lt. by rewrite compare_refl. Qed.

Lemma name_lt_trans : Transitive name_lt.
Proof. intros a b c. apply compare_lt_trans. Qed.

Lemma sorted_names_NoDup (names : list string) :
  StronglySorted name_lt names → NoDup names.
Proof.
  induction 1 as [|n l Hl IH Hn]; constructor; [|done].
  intros Hin. rewrite Forall_forall in Hn. by apply (name_lt_irrefl n), Hn.
Qed.

(** The assets of one call: entries of the media folder, one per name. *)
Lemma extract_images_shape E pptx_path output_dir w images t w' :
  extract_images_from_pptx E pptx_path output_dir w = (Ok (images, t), w') →
  ∃ names, images = (fun n => media_dir output_dir ++ [n]) <$> names ∧ NoDup names.
Proof.
  rewrite extract_eq.
  destruct (ZipFile.open _ _ _) as [[ms|e] w0];
    [|intros [= <- _ _]; exists []; split; [done|constructor]].
  destruct (ZipFile.extractall _ _ _) as [[[]|e] w1];
    [|intros [= <- _ _]; exists []; split; [done|constructor]].
  destruct (files w1 !! _) as [[|data]|] eqn:Hm;
    [|intros [= <- _ _]; exists []; split; [done|constructor]..].
  intros [= <- _ _].
  edestruct (siblings_by_name (media_dir output_dir)) as [Heq Hs];
    [| | |eexists; split; [exact Heq|by apply sorted_names_NoDup]].
  - apply Forall_forall. intros p Hp.
    apply list_elem_of_filter in Hp as [_ Hp]. rewrite sorted_perm in Hp.
    apply entries_spec in Hp as (n & -> & _). eauto.
  - apply StronglySorted_filter, sorted_StronglySorted.
  - apply NoDup_filter. rewrite sorted_perm. apply entries_NoDup.
Qed.

Lemma last_filter_unique (names : list string) (d : list string) n :
  NoDup names → n ∈ names →
  last (filter (fun img => PurePath.name img = n) ((fun k => d ++ [k]) <$> names))
  = Some (d ++ [n]).
Proof.
  induction 1 as [|k l Hk Hnd IH]; intros Hin; [by apply elem_of_nil in Hin|].
  rewrite fmap_cons, filter_cons, name_snoc.
  apply elem_of_cons in Hin as [->|Hin].
  - rewrite decide_True by done.
    assert (filter (fun img => PurePath.name img = k) ((fun k => d ++ [k]) <$> l) = [])
      as ->; [|done].
    clear IH Hnd. induction l as [|k' l IH]; [done|].
    rewrite fmap_cons, filter_cons, name_snoc.
    rewrite decide_False by (intros ->; apply Hk; left).
    apply IH. intros Hin. apply Hk. by right.
  - rewrite decide_False by (intros ->; done). by apply IH.
Qed.

End images.

Section images_folder.
Context (E : Env) (pptx_path output_dir : list string).
Implicit Types (w : World) (q : list string).

Abbreviation temp := (temp_dir output_dir).
Abbreviation md := (md_path pptx_path output_dir).
Abbreviation imgs_dir := (img_dir pptx_path output_dir).

Lemma dest_not_above_temp n : ¬ imgs_dir ++ [n] `prefix_of` temp.
Proof.
  intros H%prefix_length. unfold img_dir, temp_dir in H.
  rewrite !length_app in H. simpl in H. lia.
Qed.

Lemma dest_not_md n : imgs_dir ++ [n] ≠ md.
Proof.
  intros H%(f_equal length). unfold img_dir, md_path in H.
  rewrite !length_app in H. simpl in H. lia.
Qed.

Lemma imgs_dir_not_md : imgs_dir ≠ md.
Proof.
  unfold img_dir, md_path. intros H%app_inv_head. injection H as H.
  symmetry in H. by apply md_name_not_images in H.
Qed.

(** Once the image step has run through, the folder of the images is a
    directory and holds, under its own file name, the contents of every
    asset found; this is so on every way out of the call. *)
Lemma image_step_result w images t w1 w2 r w' :
  extract_images_from_pptx E pptx_path output_dir
    (mkWorld (files w) (console w ++ [Processing (PurePath.name pptx_path)]))
    = (Ok (images, t), w1) →
  images ≠ [] →
  copy_images pptx_path output_dir images w1 = (Ok (), w2) →
  convert_pptx_to_markdown E pptx_path output_dir true w = (r, w') →
  imgs_dir = output_dir ++ [PurePath.stem pptx_path +:+ "_images"] ∧
  files w' !! imgs_dir = Some Dir ∧
  ∀ img, img ∈ images →
    ∃ data, files w1 !! img = Some (File data) ∧
      (files w !! (imgs_dir ++ [PurePath.name img]) ≠ Some Dir →
       files w' !! (imgs_dir ++ [PurePath.name img]) = Some (File data)).
Proof.
  intros Hex Hne Hcp Hcv. split; [done|].
  assert (stage_images E pptx_path output_dir true w = (Ok t, w2)) as Hst.
  { rewrite stage_images_eq, Hex.
    rewrite bool_decide_eq_false_2 by done. by rewrite Hcp. }
  rewrite convert_stages in Hcv. io_unfold. rewrite Hst in Hcv.
  pose proof (stage_images_hands_over _ _ _ _ _ _ _ Hst) as Ht.
  (* the image step, call by call *)
  revert Hcp. unfold copy_images. io_unfold.
  destruct (OS.mkdir_exist_ok imgs_dir w1) as [[[]|e] wa] eqn:Hmk; [|done].
  simpl. intros Hloop.
  pose proof (mkdir_exist_ok_ok _ _ _ Hmk) as Hdir.
  apply confined_mkdir_exist_ok in Hmk.
  set (wb := mkWorld (files wa) _) in Hloop.
  assert (grows (fun q => imgs_dir `prefix_of` q) (fun q => imgs_dir `prefix_of` q)
            (files wb) (files w2)) as Hg.
  { eapply grows_mono;
      [| |eapply (confined_for_each
             (fun img q => imgs_dir ++ [PurePath.name img] `prefix_of` q)
             (fun img q => imgs_dir ++ [PurePath.name img] `prefix_of` q));
          [|exact Hloop]].
    - intros q (img & _ & Hq). by eapply prefix_app_l.
    - intros q (img & _ & Hq). by eapply prefix_app_l.
    - intros img _. apply confined_copy2. }
  split.
  { rewrite (stage_convert_frame _ _ _ _ _ _ _ _ Hcv Ht).
    - by eapply grows_dir.
    - apply imgs_dir_not_md.
    - rewrite <- (app_nil_r imgs_dir). apply images_not_below_temp. }
  intros img Himg.
  destruct (extract_images_shape _ _ _ _ _ _ _ Hex) as (names & Himgs & Hnd).
  apply extract_grows in Hex. simpl in Hex. clear Hst Hne. subst images.
  apply list_elem_of_fmap in Himg as (n & -> & Hn).
  rewrite name_snoc.
  assert (∀ k, files wa !! (media_dir output_dir ++ [k]) =
               files w1 !! (media_dir output_dir ++ [k])) as Hsrc.
  { intros k. eapply grows_frame; [exact Hmk| |by intros []].
    intros Heq. apply (temp_not_below_images pptx_path output_dir ["ppt"; "media"; k]).
    unfold media_dir in Heq. rewrite <- app_assoc in Heq. simpl in Heq.
    by rewrite Heq. }
  assert (files wa !! (imgs_dir ++ [n]) = files w !! (imgs_dir ++ [n])) as Hdest.
  { etrans; [eapply grows_frame; [exact Hmk| |by intros []]|].
    - intros Heq%(f_equal length). rewrite length_app in Heq. simpl in Heq. lia.
    - eapply grows_frame; [exact Hex|..].
      + intros [Hq|Hq]; [by eapply dest_not_above_temp|].
        by eapply images_not_below_temp.
      + by apply images_not_below_temp. }
  assert (∀ k, ¬ imgs_dir `prefix_of` media_dir output_dir ++ [k]) as Hout.
  { intros k. unfold media_dir. rewrite <- app_assoc. apply temp_not_below_images. }
  destruct (decide (files w !! (imgs_dir ++ [n]) = Some Dir)) as [Hd|Hd].
  { (* a directory of that name is in the way: only the source is known *)
    assert (∃ data, files wb !! (media_dir output_dir ++ [n]) = Some (File data))
      as [data Hdata].
    { clear Hg. revert Hloop. generalize wb.
      clear Hnd. induction names as [|k l IH]; intros w0 Hloop;
        [by apply elem_of_nil in Hn|].
      rewrite fmap_cons in Hloop. simpl in Hloop. io_unfold.
      destruct (OS.copy2 _ _ w0) as [[[]|e] w3] eqn:Hc; [|done].
      apply elem_of_cons in Hn as [->|Hn].
      - apply copy2_ok in Hc as (data & Hsrc0 & _). eauto.
      - destruct (IH Hn _ Hloop) as [data Hdata].
        apply copy2_ok in Hc as (data0 & _ & Hw3).
        rewrite Hw3 in Hdata. rewrite lookup_insert_ne in Hdata; [eauto|].
        intros Heq. apply (Hout n). rewrite <- Heq.
        destruct (match files w0 !! _ with Some Dir => true | _ => false end);
          rewrite <- ?app_assoc; by apply prefix_app_r. }
    exists data. split; [by rewrite <- Hsrc|done]. }
  pose proof (copy_loop_last_wins imgs_dir _ wb w2 n Hloop) as Hlast.
  rewrite last_filter_unique in Hlast by done.
  destruct Hlast as (data & Hdata & Hres).
  - intros img (k & -> & _)%list_elem_of_fmap. apply Hout.
  - simpl. by rewrite Hdest.
  - exists data. split; [by rewrite <- Hsrc|]. intros _.
    rewrite (stage_convert_frame _ _ _ _ _ _ _ _ Hcv Ht); [done|..].
    + apply dest_not_md.
    + apply images_not_below_temp.
Qed.

(** C8, as the code has it: with the flag set and at least one asset
    found, when the output directory is a directory, no regular file is
    at the place of the folder [<stem>_images], every asset is a regular
    file and no directory sits in the folder under the name of an asset,
    the image step runs through: the folder is a directory of the output
    directory and holds, under its own file name, the contents of every
    asset found, whatever regular file of that name was there.  This is
    so on every way out of the call. *)
Theorem images_are_copied w images t w1 r w' :
  extract_images_from_pptx E pptx_path output_dir
    (mkWorld (files w) (console w ++ [Processing (PurePath.name pptx_path)]))
    = (Ok (images, t), w1) →
  images ≠ [] →
  files w !! output_dir = Some Dir →
  (∀ data, files w !! imgs_dir ≠ Some (File data)) →
  (∀ img, img ∈ images → ∃ data, files w1 !! img = Some (File data)) →
  (∀ img, img ∈ images → files w !! (imgs_dir ++ [PurePath.name img]) ≠ Some Dir) →
  convert_pptx_to_markdown E pptx_path output_dir true w = (r, w') →
  imgs_dir = output_dir ++ [PurePath.stem pptx_path +:+ "_images"] ∧
  (∃ w2, copy_images pptx_path output_dir images w1 = (Ok (), w2)) ∧
  files w' !! imgs_dir = Some Dir ∧
  ∀ img, img ∈ images →
    ∃ data, files w1 !! img = Some (File data) ∧
            files w' !! (imgs_dir ++ [PurePath.name img]) = Some (File data).
Proof.
  intros Hex Hne Hout Hfolder Hassets Hdests Hcv.
  pose proof (extract_grows _ _ _ _ _ _ Hex) as Hg. simpl in Hg.
  destruct (extract_images_shape _ _ _ _ _ _ _ Hex) as (names & Himgs & Hnd).
  assert (∀ k, files w1 !! (imgs_dir ++ k) = files w !! (imgs_dir ++ k)) as Hsame.
  { intros k. eapply grows_frame; [exact Hg|..].
    - intros [Hq|Hq]; [|by eapply images_not_below_temp].
      apply (temp_not_below_images pptx_path output_dir []).
      rewrite app_nil_r. etrans; [|exact Hq]. by apply prefix_app_r.
    - apply images_not_below_temp. }
  assert (∃ w2, copy_images pptx_path output_dir images w1 = (Ok (), w2))
    as [w2 Hcp].
  { unfold copy_images. io_unfold.
    destruct (mkdir_exist_ok_runs imgs_dir w1) as [wa Hmk].
    - unfold img_dir. rewrite parent_snoc. by eapply grows_dir.
    - intros data. rewrite <- (app_nil_r imgs_dir), Hsame, app_nil_r. apply Hfolder.
    - rewrite Hmk. simpl.
      pose proof (mkdir_exist_ok_ok _ _ _ Hmk) as Hdir.
      apply confined_mkdir_exist_ok in Hmk.
      assert (∀ q, q ≠ imgs_dir → files wa !! q = files w1 !! q) as Hwa.
      { intros q Hq. eapply grows_frame; [exact Hmk|done|by intros []]. }
      apply copy_loop_runs; simpl.
      + done.
      + intros img Himg. rewrite Hwa; [by apply Hassets|].
        subst images. apply list_elem_of_fmap in Himg as (n & -> & _).
        intros Heq. apply (temp_not_below_images pptx_path output_dir ["ppt"; "media"; n]).
        unfold media_dir in Heq. rewrite <- app_assoc in Heq. simpl in Heq.
        by rewrite Heq.
      + intros img Himg. rewrite Hwa, Hsame; [by apply Hdests|].
        intros Heq%(f_equal length). rewrite length_app in Heq. simpl in Heq. lia.
      + intros img Himg. subst images.
        apply list_elem_of_fmap in Himg as (n & -> & _).
        unfold media_dir. rewrite <- app_assoc. apply temp_not_below_images. }
  destruct (image_step_result w images t w1 w2 r w' Hex Hne Hcp Hcv)
    as (Hname & Hdir & Hcopies).
  split; [done|]. split; [eauto|]. split; [done|].
  intros img Himg. destruct (Hcopies img Himg) as (data & Hdata & Hres).
  exists data. split; [done|]. apply Hres. by apply Hdests.
Qed.

End images_folder.

(** ** Well-formed file systems *)

Section well_formed.
Implicit Types (fs : gmap (list string) node) (p q : list string).

Lemma well_formed_insert_dir fs p :
  well_formed fs → fs !! p = None → fs !! PurePath.parent p = Some Dir →
  well_formed (<[p := Dir]> fs).
Proof.
  intros Hwf Hp Hpar q Hq Hs.
  destruct (decide (q = p)) as [->|Hne].
  - rewrite lookup_insert_ne; [done|]. intros Heq. rewrite <- Heq in Hpar. congruence.
  - rewrite lookup_insert_ne in Hs by done.
    destruct (decide (p = PurePath.parent q)) as [->|Hne'].
    + by rewrite lookup_insert_eq.
    + rewrite lookup_insert_ne by done. by apply Hwf.
Qed.

Lemma well_formed_insert_file fs p data :
  well_formed fs → fs !! p ≠ Some Dir → fs !! PurePath.parent p = Some Dir →
  well_formed (<[p := File data]> fs).
Proof.
  intros Hwf Hp Hpar q Hq Hs.
  destruct (decide (q = p)) as [->|Hne].
  - rewrite lookup_insert_ne; [done|]. intros Heq. rewrite <- Heq in Hpar. congruence.
  - rewrite lookup_insert_ne in Hs by done.
    pose proof (Hwf q Hq Hs) as Hq'.
    rewrite lookup_insert_ne; [done|]. intros Heq. congruence.
Qed.

Lemma well_formed_rmtree fs p :
  well_formed fs → well_formed (filter (fun kv => ¬ p `prefix_of` kv.1) fs).
Proof.
  intros Hwf q Hq [nd Hs]. apply map_lookup_filter_Some in Hs as [Hs Hout].
  simpl in Hout. apply map_lookup_filter_Some. split; [apply Hwf; eauto|].
  simpl. intros Hp. apply Hout. etrans; [done|apply parent_prefix].
Qed.

(** Well-formedness is a check on the entries. *)
Lemma well_formed_check fs :
  map_Forall (fun q _ => q = [] ∨ fs !! PurePath.parent q = Some Dir) fs →
  well_formed fs.
Proof.
  intros H q Hq [nd Hs]. destruct (H q nd Hs) as [?|?]; done.
Qed.

(** In a well-formed file system whatever lies above an entry is there. *)
Lemma well_formed_above fs p k :
  well_formed fs → is_Some (fs !! (p ++ k)) → is_Some (fs !! p).
Proof.
  intros Hwf. induction k as [|x k IH] using rev_ind.
  - by rewrite app_nil_r.
  - intros Hs. apply IH. rewrite app_assoc in Hs.
    apply Hwf in Hs; [|by destruct (p ++ k)].
    rewrite parent_snoc in Hs. eauto.
Qed.

Lemma keeps_ret {A} (a : A) : keeps_well_formed (mret a).
Proof. by intros w r w' [= <- <-]. Qed.

Lemma keeps_raise {A} e : keeps_well_formed (raise e : io A).
Proof. by intros w r w' [= <- <-]. Qed.

Lemma keeps_get_files : keeps_well_formed get_files.
Proof. by intros w r w' [= <- <-]. Qed.

Lemma keeps_print l : keeps_well_formed (print l).
Proof. by intros w r w' [= <- <-]. Qed.

Lemma keeps_bind {A B} (m : io A) (k : A → io B) :
  keeps_well_formed m → (∀ a, keeps_well_formed (k a)) → keeps_well_formed (m ≫= k).
Proof.
  intros Hm Hk w r w'. io_unfold.
  destruct (m w) as [[a|e] w1] eqn:E; intros H Hwf.
  - eapply Hk; [done|]. by eapply Hm.
  - injection H as <- <-. by eapply Hm.
Qed.

Lemma keeps_try_except {A} handles (m : io A) h :
  keeps_well_formed m → (∀ e, keeps_well_formed (h e)) →
  keeps_well_formed (try_except handles m h).
Proof.
  intros Hm Hh w r w'. io_unfold.
  destruct (m w) as [[a|e] w1] eqn:E; intros H Hwf.
  - injection H as <- <-. by eapply Hm.
  - destruct (handles e).
    + eapply Hh; [done|]. by eapply Hm.
    + injection H as <- <-. by eapply Hm.
Qed.

Lemma keeps_try_finally {A} (m : io A) c :
  keeps_well_formed m → keeps_well_formed c → keeps_well_formed (try_finally m c).
Proof.
  intros Hm Hc w r w'. io_unfold.
  destruct (m w) as [r1 w1] eqn:E. destruct (c w1) as [[[]|e] w2] eqn:E2;
    intros [= <- <-] Hwf; (eapply Hc; [done|]); by eapply Hm.
Qed.

Lemma keeps_for_each {A} (l : list A) (body : A → io unit) :
  (∀ x, keeps_well_formed (body x)) → keeps_well_formed (for_each l body).
Proof.
  intros Hbody. induction l as [|x l IH]; simpl.
  - apply keeps_ret.
  - apply keeps_bind; auto.
Qed.

Lemma keeps_path_exists p : keeps_well_formed (OS.path_exists p).
Proof. by intros w r w' [= <- <-]. Qed.

Lemma keeps_path_isdir p : keeps_well_formed (OS.path_isdir p).
Proof. by intros w r w' [= <- <-]. Qed.

Lemma keeps_mkdir p : keeps_well_formed (OS.mkdir p).
Proof.
  intros w r w'. unfold OS.mkdir. io_simpl.
  destruct (files w !! p) eqn:Hp; [by intros [= <- <-]|].
  destruct (files w !! PurePath.parent p) as [[|?]|] eqn:Hpar;
    intros [= <- <-] Hwf; simpl; [|done..].
  by apply well_formed_insert_dir.
Qed.

Lemma keeps_makedirs name : keeps_well_formed (OS.makedirs name).
Proof.
  unfold OS.makedirs. induction (rev name) as [|n rhead IH]; simpl.
  - apply keeps_mkdir.
  - apply keeps_bind; [apply keeps_path_exists|intros b].
    apply keeps_bind; [|intros _; apply keeps_mkdir].
    destruct (_ && _); [|apply keeps_ret].
    apply keeps_try_except; [done|intros _; apply keeps_ret].
Qed.

Lemma keeps_mkdir_exist_ok p : keeps_well_formed (OS.mkdir_exist_ok p).
Proof.
  unfold OS.mkdir_exist_ok.
  apply keeps_try_except; [apply keeps_mkdir|intros e].
  destruct e;
    first [ apply keeps_bind; [apply keeps_path_isdir|intros []; first [apply keeps_ret|apply keeps_raise]]
          | apply keeps_raise ].
Qed.

Lemma keeps_read_file p : keeps_well_formed (OS.read_file p).
Proof.
  intros w r w'. unfold OS.read_file. io_simpl.
  by destruct (files w !! p) as [[|?]|]; intros [= <- <-].
Qed.

Lemma keeps_write_file p data : keeps_well_formed (OS.write_file p data).
Proof.
  intros w r w'. unfold OS.write_file. io_simpl.
  destruct (files w !! p) as [[|old]|] eqn:Hp; [by intros [= <- <-]|..];
    (destruct (files w !! PurePath.parent p) as [[|?]|] eqn:Hpar;
     intros [= <- <-] Hwf; simpl; [|done..];
     apply well_formed_insert_file; [done|by rewrite Hp|done]).
Qed.

Lemma keeps_stat_size p : keeps_well_formed (OS.stat_size p).
Proof.
  intros w r w'. unfold OS.stat_size. io_simpl.
  by destruct (files w !! p) as [[|?]|]; intros [= <- <-].
Qed.

Lemma keeps_iterdir p : keeps_well_formed (OS.iterdir p).
Proof.
  intros w r w'. unfold OS.iterdir. io_simpl.
  by destruct (files w !! p) as [[|?]|]; intros [= <- <-].
Qed.

Lemma keeps_rmtree p : keeps_well_formed (OS.rmtree_ignore_errors p).
Proof.
  intros w r w'. rewrite rmtree_run. intros [= <- <-] Hwf.
  destruct (files w !! p) as [[|?]|]; [|done..].
  by apply well_formed_rmtree.
Qed.

Lemma keeps_copy2 src dst : keeps_well_formed (OS.copy2 src dst).
Proof.
  unfold OS.copy2.
  apply keeps_bind; [apply keeps_path_isdir|intros d].
  apply keeps_bind; [apply keeps_read_file|intros data].
  apply keeps_write_file.
Qed.

Lemma keeps_extract_member root m : keeps_well_formed (ZipFile.extract_member root m).
Proof.
  unfold ZipFile.extract_member.
  apply keeps_bind; [apply keeps_path_exists|intros b].
  apply keeps_bind; [|intros _].
  - destruct (_ && _); [apply keeps_makedirs|apply keeps_ret].
  - destruct (zdata m) as [|data|].
    + apply keeps_bind; [apply keeps_path_isdir|intros d].
      destruct d; [apply keeps_ret|apply keeps_mkdir].
    + apply keeps_write_file.
    + apply keeps_raise.
Qed.

Lemma keeps_extractall root ms : keeps_well_formed (ZipFile.extractall ms root).
Proof. apply keeps_for_each. intros m. apply keeps_extract_member. Qed.

Lemma keeps_open E p : keeps_well_formed (ZipFile.open E p).
Proof. intros w r w' H. by apply open_world in H as ->. Qed.

Lemma keeps_extract E pptx_path output_dir :
  keeps_well_formed (extract_images_from_pptx E pptx_path output_dir).
Proof.
  unfold extract_images_from_pptx.
  apply keeps_try_except.
  - apply keeps_bind; [apply keeps_open|intros ms].
    apply keeps_bind; [apply keeps_extractall|intros _].
    apply keeps_bind; [apply keeps_path_exists|intros b].
    apply keeps_bind; [|intros images; apply keeps_ret].
    destruct b; [|apply keeps_ret].
    apply keeps_bind; [apply keeps_iterdir|intros entries; apply keeps_ret].
  - intros e. apply keeps_bind; [apply keeps_print|intros _; apply keeps_ret].
Qed.

Lemma keeps_run {A} proc check (k : completed → io A) :
  (∀ c, keeps_well_formed (k c)) →
  keeps_well_formed (subprocess.run proc check ≫= k).
Proof.
  intros Hk. apply keeps_bind; [|done]. unfold subprocess.run.
  destruct proc as [c|]; [|apply keeps_raise].
  destruct (_ && _); [apply keeps_raise|apply keeps_ret].
Qed.

(** The whole pipeline keeps the file system well formed, whether it
    returns or raises. *)
Lemma convert_keeps_well_formed E pptx_path output_dir keep_images :
  keeps_well_formed (convert_pptx_to_markdown E pptx_path output_dir keep_images).
Proof.
  unfold convert_pptx_to_markdown.
  apply keeps_bind; [apply keeps_print|intros _].
  apply keeps_bind; [apply keeps_extract|intros [images t]].
  apply keeps_bind; [|intros _].
  - destruct (_ && _); [|apply keeps_ret].
    apply keeps_bind; [apply keeps_mkdir_exist_ok|intros _].
    apply keeps_bind; [apply keeps_print|intros _].
    apply keeps_for_each. intros img. apply keeps_copy2.
  - apply keeps_try_finally.
    + apply keeps_try_except.
      * apply keeps_bind; [apply keeps_get_files|intros fs].
        apply keeps_run. intros c. apply keeps_run. intros stamp.
        apply keeps_bind; [apply keeps_write_file|intros _].
        apply keeps_bind; [apply keeps_print|intros _].
        apply keeps_bind; [apply keeps_stat_size|intros size].
        apply keeps_bind; [apply keeps_print|intros _; apply keeps_ret].
      * intros e. apply keeps_bind; [apply keeps_print|intros _].
        apply keeps_bind; [apply keeps_print|intros _; apply keeps_ret].
    + destruct t as [t|]; [|apply keeps_ret].
      apply keeps_bind; [apply keeps_path_exists|intros b].
      destruct b; [apply keeps_rmtree|apply keeps_ret].
Qed.

(** Unpacked into a place where no media folder was left, the entries of
    the media folder are those the members of the archive name: the
    media folder on disk is the media folder of the archive. *)
Lemma unpacked_media_entries root members w w1 n :
  well_formed (files w) →
  (∀ q, root ++ ["ppt"; "media"] `prefix_of` q → files w !! q = None) →
  ZipFile.extractall members root w = (Ok (), w1) →
  is_Some (files w1 !! (root ++ ["ppt"; "media"; n])) ↔
  ∃ m, m ∈ members ∧ ["ppt"; "media"; n] `prefix_of` zname m.
Proof.
  intros Hwf Hfresh Hx. split.
  - intros Hs.
    assert (files w1 !! (root ++ ["ppt"; "media"; n]) ≠
            files w !! (root ++ ["ppt"; "media"; n])) as Hne.
    { rewrite (Hfresh (root ++ ["ppt"; "media"; n])).
      - intros Heq. rewrite Heq in Hs. by destruct Hs.
      - apply prefix_app. by exists [n]. }
    destruct (grows_changed _ _ _ _ _ (confined_extractall _ _ _ _ _ Hx) Hne)
      as [(m & Hm & Hp)|(m & Hm & Heq)]; exists m; (split; [done|]).
    + by apply prefix_app_inv in Hp.
    + apply app_inv_head in Heq. by rewrite <- Heq.
  - intros (m & Hm & k & Hk).
    apply (well_formed_above _ _ k); [by eapply keeps_extractall|].
    rewrite <- app_assoc, <- Hk. by eapply extractall_present.
Qed.

(** Hence, for an archive unpacked into a place where no media folder was
    left, the assets are the allowed names among those the members of the
    archive put directly into [ppt/media]. *)
Lemma extract_images_of_archive E pptx_path output_dir w members images t w' :
  well_formed (files w) →
  (∀ q, media_dir output_dir `prefix_of` q → files w !! q = None) →
  ZipFile.open E pptx_path w = (Ok members, w) →
  extract_images_from_pptx E pptx_path output_dir w = (Ok (images, Some t), w') →
  ∀ p, p ∈ images ↔
       ∃ n, p = media_dir output_dir ++ [n] ∧ is_image [n] = true ∧
            ∃ m, m ∈ members ∧ ["ppt"; "media"; n] `prefix_of` zname m.
Proof.
  intros Hwf Hfresh Hopen. rewrite extract_eq, Hopen.
  destruct (ZipFile.extractall _ _ _) as [[[]|e] w1] eqn:Hx; [|done].
  assert (∀ n, is_Some (files w1 !! (media_dir output_dir ++ [n])) ↔
               ∃ m, m ∈ members ∧ ["ppt"; "media"; n] `prefix_of` zname m) as Hn.
  { intros n. unfold media_dir. rewrite <- app_assoc. simpl.
    apply (unpacked_media_entries _ _ w); [done| |done].
    intros q Hq. apply Hfresh. by unfold media_dir. }
  destruct (files w1 !! media_dir output_dir) as [[|data]|] eqn:Hm; [|done|];
    intros [= <- _ _] p.
  - rewrite list_elem_of_filter, sorted_perm, entries_spec. split.
    + intros (Himg & n & -> & Hs). rewrite is_image_snoc in Himg.
      exists n. by rewrite <- Hn.
    + intros (n & -> & Himg & Hs). rewrite is_image_snoc.
      split; [done|]. exists n. by rewrite Hn.
  - split; [by intros ?%elem_of_nil|].
    intros (n & -> & _ & Hs%Hn).
    apply (well_formed_above _ _ [n]) in Hs; [|by eapply keeps_extractall].
    rewrite Hm in Hs. by destruct Hs.
Qed.

End well_formed.

(** ** The archive and what is unpacked *)

Section archive.
Implicit Types (d q k : list string) (n : string) (members : list zmember).

Lemma below_Some d q k : below d q = Some k ↔ q = d ++ k.
Proof.
  revert q. induction d as [|a d IH]; intros [|b q]; simpl.
  - split; [by intros [= <-]|by intros <-].
  - split; [by intros [= <-]|by intros <-].
  - split; [done|discriminate].
  - case_bool_decide as Hab.
    + subst b. rewrite IH. split; [by intros ->|by intros [= ->]].
    + split; [done|]. intros [= ? _]. done.
Qed.

Lemma folder_names_spec d members n :
  n ∈ folder_names d members ↔ ∃ m, m ∈ members ∧ d ++ [n] `prefix_of` zname m.
Proof.
  unfold folder_names. rewrite elem_of_remove_dups, list_elem_of_omap.
  split; intros (m & Hm & H); exists m; (split; [done|]).
  - destruct (below d (zname m)) as [k|] eqn:Hk; [|done].
    apply below_Some in Hk. destruct k as [|x k]; [done|].
    simpl in H. injection H as ->. rewrite Hk. exists k.
    by rewrite <- app_assoc.
  - destruct H as [k Hk]. rewrite <- app_assoc in Hk.
    apply below_Some in Hk. by rewrite Hk.
Qed.

Lemma folder_names_NoDup d members : NoDup (folder_names d members).
Proof. apply NoDup_remove_dups. Qed.

Lemma filter_lengths {A} (P : A → Prop) `{∀ x, Decision (P x)} (l : list A) :
  length l = length (filter P l) + length (filter (fun x => ¬ P x) l).
Proof.
  induction l as [|x l IH]; [done|].
  rewrite !filter_cons. destruct (decide (P x)).
  - rewrite decide_False by tauto. simpl. lia.
  - rewrite decide_True by done. simpl. lia.
Qed.

(** In a well-formed file system nothing lies below a missing entry. *)
Lemma well_formed_below_None (fs : gmap (list string) node) d q :
  well_formed fs → fs !! d = None → d `prefix_of` q → fs !! q = None.
Proof.
  intros Hwf Hd [k ->].
  destruct (fs !! (d ++ k)) as [nd|] eqn:Hq; [|done].
  destruct (well_formed_above fs d k Hwf) as [nd' Hnd']; [eauto|congruence].
Qed.

(** What lies above an entry of a well-formed file system is a directory. *)
Lemma well_formed_above_dir (fs : gmap (list string) node) d x k :
  well_formed fs → is_Some (fs !! (d ++ x :: k)) → fs !! d = Some Dir.
Proof.
  intros Hwf Hs.
  assert (is_Some (fs !! (d ++ [x]))) as Hx.
  { apply (well_formed_above fs (d ++ [x]) k Hwf). by rewrite <- app_assoc. }
  apply Hwf in Hx; [|by destruct d]. by rewrite parent_snoc in Hx.
Qed.

(** C5, as the code has it: for an archive that opens and unpacks on a
    well-formed file system where no media folder is left at the
    extraction path from before, the extractor returns exactly the
    entries of the archive's media folder whose suffix, lower-cased, is
    on the allow-list: N of them when the folder holds N allowed and M
    other entries, in strictly increasing order of their file names. *)
Theorem extract_returns_allowed_sorted E pptx_path output_dir w members w1 N M :
  well_formed (files w) →
  files w !! media_dir output_dir = None →
  ZipFile.open E pptx_path w = (Ok members, w) →
  ZipFile.extractall members (temp_dir output_dir) w = (Ok (), w1) →
  length (filter (fun n => is_image [n] = true)
            (folder_names ["ppt"; "media"] members)) = N →
  length (filter (fun n => ¬ is_image [n] = true)
            (folder_names ["ppt"; "media"] members)) = M →
  ∃ names t w',
    extract_images_from_pptx E pptx_path output_dir w =
      (Ok ((fun n => media_dir output_dir ++ [n]) <$> names, t), w') ∧
    (∀ n, n ∈ names ↔
          n ∈ folder_names ["ppt"; "media"] members ∧ is_image [n] = true) ∧
    length names = N ∧
    length (folder_names ["ppt"; "media"] members) = N + M ∧
    StronglySorted name_lt names.
Proof.
  intros Hwf Hnone Hopen Hx HN HM.
  assert (∀ n, is_Some (files w1 !! (media_dir output_dir ++ [n])) ↔
               n ∈ folder_names ["ppt"; "media"] members) as Hn.
  { intros n. rewrite folder_names_spec. unfold media_dir.
    rewrite <- app_assoc. simpl.
    apply (unpacked_media_entries _ _ w); [done| |done].
    intros q Hq. eapply well_formed_below_None; [done| |exact Hq]. done. }
  pose proof (keeps_extractall _ _ _ _ _ Hx Hwf) as Hwf1.
  assert (∀ names,
            (∀ n, n ∈ names ↔
                  n ∈ folder_names ["ppt"; "media"] members ∧ is_image [n] = true) →
            NoDup names →
            length names = N ∧
            length (folder_names ["ppt"; "media"] members) = N + M) as Hcount.
  { intros names Hnames Hnd. split.
    - rewrite <- HN. apply Permutation_length, NoDup_Permutation; [done|..].
      + apply NoDup_filter, folder_names_NoDup.
      + intros n. rewrite Hnames, list_elem_of_filter. tauto.
    - rewrite <- HN, <- HM. apply filter_lengths. }
  assert (files w1 !! media_dir output_dir ≠ Some Dir →
          ∀ n, n ∉ folder_names ["ppt"; "media"] members) as Hempty.
  { intros Hm n Hin%Hn. apply Hm.
    by apply (well_formed_above_dir _ _ n []). }
  rewrite extract_eq, Hopen, Hx.
  destruct (files w1 !! media_dir output_dir) as [[|data]|] eqn:Hm.
  - destruct (siblings_by_name (media_dir output_dir)
                (filter (fun img_file => is_image img_file = true)
                   (OS.sorted (entries (files w1) (media_dir output_dir)))))
      as [Heq Hsorted].
    + apply Forall_forall. intros p Hp.
      apply list_elem_of_filter in Hp as [_ Hp]. rewrite sorted_perm in Hp.
      apply entries_spec in Hp as (n & -> & _). eauto.
    + apply StronglySorted_filter, sorted_StronglySorted.
    + apply NoDup_filter. rewrite sorted_perm. apply entries_NoDup.
    + eexists _, _, _. split; [by rewrite <- Heq|].
      assert (∀ n, n ∈ PurePath.name <$>
                         filter (fun img_file => is_image img_file = true)
                           (OS.sorted (entries (files w1) (media_dir output_dir))) ↔
                   n ∈ folder_names ["ppt"; "media"] members ∧ is_image [n] = true)
        as Hnames.
      { intros n. rewrite list_elem_of_fmap. split.
        - intros (p & -> & Hp). apply list_elem_of_filter in Hp as [Himg Hp].
          rewrite sorted_perm in Hp. apply entries_spec in Hp as (k & -> & Hs).
          rewrite name_snoc. rewrite is_image_snoc in Himg.
          split; [by apply Hn|done].
        - intros [Hin Himg]. exists (media_dir output_dir ++ [n]).
          rewrite name_snoc. split; [done|].
          apply list_elem_of_filter. rewrite is_image_snoc, sorted_perm, entries_spec.
          split; [done|]. exists n. split; [done|]. by apply Hn. }
      split; [done|].
      destruct (Hcount _ Hnames) as [? ?]; [by apply sorted_names_NoDup|done].
  - exists [], None, (warn NotADirectoryError w1). split; [done|].
    assert (∀ n, n ∈ [] ↔
                 n ∈ folder_names ["ppt"; "media"] members ∧ is_image [n] = true)
      as Hnames.
    { intros n. split; [by intros ?%elem_of_nil|].
      intros [Hin _]. by apply Hempty in Hin. }
    split; [done|].
    destruct (Hcount _ Hnames) as [? ?]; [constructor|].
    repeat split; [done..|constructor].
  - exists [], (Some (temp_dir output_dir)), w1. split; [done|].
    assert (∀ n, n ∈ [] ↔
                 n ∈ folder_names ["ppt"; "media"] members ∧ is_image [n] = true)
      as Hnames.
    { intros n. split; [by intros ?%elem_of_nil|].
      intros [Hin _]. by apply Hempty in Hin. }
    split; [done|].
    destruct (Hcount _ Hnames) as [? ?]; [constructor|].
    repeat split; [done..|constructor].
Qed.

(** ** The extraction directory *)


End archive.

(** * Concrete runs *)

(** A run is settled by its result: the world is then whatever it left. *)
Lemma run_as {A} (m : io A) (w : World) (r : result A) :
  (m w).1 = r → m w = (r, (m w).2).
Proof. intros <-. by destruct (m w). Qed.

Section concrete.
Import Examples.

(** The starting points are well-formed file systems. *)
Example fs0_well_formed : well_formed fs0.
Proof. apply well_formed_check. apply (bool_decide_unpack _). by vm_compute. Qed.

Example fs_stale_well_formed : well_formed fs_stale.
Proof. apply well_formed_check. apply (bool_decide_unpack _). by vm_compute. Qed.

(** C1: the archive holds a regular file named [ppt/media].  It unpacks,
    the scan of the media folder raises, the extractor returns no
    directory, and the call returns [True] with [out/temp_extract], which
    was not there before, left on disk. *)
Theorem temp_dir_left_behind :
  files w0 !! temp_dir out = None ∧
  ∃ w', convert_pptx_to_markdown (env media_is_file converted) deck out false w0
          = (Ok true, w') ∧
        files w' !! temp_dir out = Some Dir ∧
        files w' !! (temp_dir out ++ ["ppt"; "media"]) = Some (File "M") ∧
        console w' = [Processing "deck.pptx"; WarnExtract NotADirectoryError;
                      Created "deck.md"; Size 82].
Proof.
  split; [by vm_compute|].
  exists (convert_pptx_to_markdown (env media_is_file converted) deck out false w0).2.
  split; [apply run_as; by vm_compute|].
  split; [by vm_compute|]. split; by vm_compute.
Qed.

(** The same with an archive that breaks at its second member, and a
    converter that fails: [False] is returned and the directory stays. *)
Example corrupt_archive_leaves_directory :
  ∃ w', convert_pptx_to_markdown (env broken failed) deck out false w0
          = (Ok false, w') ∧
        files w' !! temp_dir out = Some Dir ∧
        files w' !! (temp_dir out ++ ["ppt"; "media"; "a.png"]) = Some (File "A").
Proof.
  exists (convert_pptx_to_markdown (env broken failed) deck out false w0).2.
  split; [apply run_as; by vm_compute|]. split; by vm_compute.
Qed.

(** C3 does not hold as stated: with the flag set, a call that returns
    [False] has already put the images folder into the output directory. *)
Lemma failed_conversion_leaves_images :
  ¬ (∀ E pptx_path output_dir keep_images w w',
       convert_pptx_to_markdown E pptx_path output_dir keep_images w = (Ok false, w') →
       ∀ q, output_dir `prefix_of` q → files w' !! q = files w !! q).
Proof.
  intros H.
  specialize (H (env slides failed) deck out true w0 _
                (run_as (convert_pptx_to_markdown (env slides failed) deck out true)
                   w0 (Ok false) ltac:(by vm_compute))
                ["out"; "deck_images"; "a.png"]
                ltac:(by exists ["deck_images"; "a.png"])).
  vm_compute in H. discriminate.
Qed.



(** C5 does not hold as stated: the media folder of the archive holds two
    entries with an allowed suffix, and three assets are returned, one
    of them left in the extraction directory by an earlier run. *)
Lemma stale_assets_are_returned :
  ¬ (∀ E pptx_path output_dir w members w1 N,
       ZipFile.open E pptx_path w = (Ok members, w) →
       ZipFile.extractall members (temp_dir output_dir) w = (Ok (), w1) →
       length (filter (fun n => is_image [n] = true)
                 (folder_names ["ppt"; "media"] members)) = N →
       ∃ images t w',
         extract_images_from_pptx E pptx_path output_dir w = (Ok (images, t), w') ∧
         length images = N).
Proof.
  intros H.
  destruct (H (env slides converted) deck out w_stale slides _ 2
              (run_as (ZipFile.open (env slides converted) deck) w_stale
                 (Ok slides) ltac:(by vm_compute))
              (run_as (ZipFile.extractall slides (temp_dir out)) w_stale
                 (Ok ()) ltac:(by vm_compute))
              ltac:(by vm_compute)) as (images & t & w' & Hrun & Hlen).
  apply (f_equal fst) in Hrun. vm_compute in Hrun.
  injection Hrun as <- _. discriminate.
Qed.


(** C8 does not hold as stated: the one asset found is a directory of
    the media folder whose name ends in [.png]; the copy raises, the
    call with it, and the images folder does not hold the asset. *)
Lemma directory_asset_is_not_copied :
  ¬ (∀ E pptx_path output_dir w images t w1 r w',
       extract_images_from_pptx E pptx_path output_dir
         (mkWorld (files w) (console w ++ [Processing (PurePath.name pptx_path)]))
         = (Ok (images, t), w1) →
       images ≠ [] →
       convert_pptx_to_markdown E pptx_path output_dir true w = (r, w') →
       ∀ img, img ∈ images →
         is_Some (files w' !! (img_dir pptx_path output_dir ++ [PurePath.name img]))).
Proof.
  intros H.
  specialize (H (env nested converted) deck out w0
                [media_dir out ++ ["x.png"]] (Some (temp_dir out)) _
                (Raise IsADirectoryError) _
                (run_as (extract_images_from_pptx (env nested converted) deck out)
                   (started w0)
                   (Ok ([media_dir out ++ ["x.png"]], Some (temp_dir out)))
                   ltac:(by vm_compute))
                ltac:(discriminate)
                (run_as (convert_pptx_to_markdown (env nested converted) deck out true)
                   w0 (Raise IsADirectoryError) ltac:(by vm_compute))
                (media_dir out ++ ["x.png"]) ltac:(by left)).
  vm_compute in H. by destruct H.
Qed.

End concrete.

(** ** The theorems at concrete inputs *)

Section witnesses.
Import Examples.

Lemma converter_failure_writes_nothing_witness :
  ∃ w', convert_pptx_to_markdown (env slides failed) deck out true w0 = (Ok false, w') ∧
        files w' !! md_path deck out = files w0 !! md_path deck out ∧
        console w' =
          console (stage_images (env slides failed) deck out true w0).2 ++
            [ErrorConverting (CalledProcessError (returncode failed) (stderr failed));
             Stderr (stderr failed)].
Proof.
  apply (converter_failure_writes_nothing (env slides failed) deck out true w0
           (Some (temp_dir out)) _ failed).
  - apply run_as. vm_compute. reflexivity.
  - reflexivity.
  - vm_compute. discriminate.
Defined.


(** The document of the run above, as it is on disk. *)
Example document_of_deck :
  files (convert_pptx_to_markdown (env slides converted) deck out true w0).2
    !! ["out"; "deck.md"] =
  Some (File "# deck

**Source File:** deck.pptx  
**Converted:** 2024-05-01 10:00:00

---

body").
Proof. vm_compute. reflexivity. Qed.

Lemma failed_conversion_frame_witness :
  files (convert_pptx_to_markdown (env slides failed) deck out true w0).2
    !! md_path deck out = files w0 !! md_path deck out ∧
  ∀ q, ¬ q `prefix_of` temp_dir out → ¬ temp_dir out `prefix_of` q →
       (true = true → ¬ img_dir deck out `prefix_of` q) →
       files (convert_pptx_to_markdown (env slides failed) deck out true w0).2 !! q
       = files w0 !! q.
Proof.
  apply (failed_conversion_frame (env slides failed) deck out true w0).
  apply run_as. vm_compute. reflexivity.
Defined.

Lemma extract_returns_allowed_sorted_witness :
  ∃ names t w',
    extract_images_from_pptx (env slides converted) deck out w0 =
      (Ok ((fun n => media_dir out ++ [n]) <$> names, t), w') ∧
    (∀ n, n ∈ names ↔
          n ∈ folder_names ["ppt"; "media"] slides ∧ is_image [n] = true) ∧
    length names = 2 ∧
    length (folder_names ["ppt"; "media"] slides) = 2 + 1 ∧
    StronglySorted name_lt names.
Proof.
  apply (extract_returns_allowed_sorted (env slides converted) deck out w0 slides
           (ZipFile.extractall slides (temp_dir out) w0).2 2 1).
  - exact fs0_well_formed.
  - vm_compute. reflexivity.
  - apply run_as. vm_compute. reflexivity.
  - apply run_as. vm_compute. reflexivity.
  - vm_compute. reflexivity.
  - vm_compute. reflexivity.
Defined.

(** The assets of the run above. *)
Example assets_of_deck :
  (extract_images_from_pptx (env slides converted) deck out w0).1 =
  Ok ([media_dir out ++ ["a.png"]; media_dir out ++ ["b.JPG"]], Some (temp_dir out)).
Proof. vm_compute. reflexivity. Qed.

Lemma extract_top_level_by_suffix_witness :
  (∀ p, p ∈ [media_dir out ++ ["x.png"]] →
        ∃ n, p = media_dir out ++ [n] ∧ is_image [n] = true) ∧
  (∀ n rest, rest ≠ [] → media_dir out ++ n :: rest ∉ [media_dir out ++ ["x.png"]]) ∧
  (files (extract_images_from_pptx (env nested converted) deck out w0).2
     !! media_dir out = Some Dir →
   ∀ n nd,
     files (extract_images_from_pptx (env nested converted) deck out w0).2
       !! (media_dir out ++ [n]) = Some nd →
     is_image [n] = true →
     media_dir out ++ [n] ∈ [media_dir out ++ ["x.png"]]).
Proof.
  apply (extract_top_level_by_suffix (env nested converted) deck out w0
           [media_dir out ++ ["x.png"]] (temp_dir out)).
  apply run_as. vm_compute. reflexivity.
Defined.


Lemma extract_unpack_failure_witness :
  extract_images_from_pptx (not_a_zip converted) deck out (started w0) =
    (Ok ([], None), warn BadZipFile (started w0)) ∧
  console (warn BadZipFile (started w0)) =
    console (started w0) ++ [WarnExtract BadZipFile] ∧
  convert_pptx_to_markdown (not_a_zip converted) deck out true w0 =
    stage_convert (not_a_zip converted) deck out None (warn BadZipFile (started w0)).
Proof.
  apply (extract_unpack_failure (not_a_zip converted) deck out true w0
           BadZipFile (started w0)).
  left. vm_compute. reflexivity.
Defined.

Lemma images_are_copied_witness :
  img_dir deck out = out ++ [PurePath.stem deck +:+ "_images"] ∧
  (∃ w2, copy_images deck out
           [media_dir out ++ ["a.png"]; media_dir out ++ ["b.JPG"]]
           (extract_images_from_pptx (env slides converted) deck out (started w0)).2
         = (Ok (), w2)) ∧
  files (convert_pptx_to_markdown (env slides converted) deck out true w0).2
    !! img_dir deck out = Some Dir ∧
  ∀ img, img ∈ [media_dir out ++ ["a.png"]; media_dir out ++ ["b.JPG"]] →
    ∃ data,
      files (extract_images_from_pptx (env slides converted) deck out (started w0)).2
        !! img = Some (File data) ∧
      files (convert_pptx_to_markdown (env slides converted) deck out true w0).2
        !! (img_dir deck out ++ [PurePath.name img]) = Some (File data).
Proof.
  apply (images_are_copied (env slides converted) deck out w0
           [media_dir out ++ ["a.png"]; media_dir out ++ ["b.JPG"]]
           (Some (temp_dir out))
           (extract_images_from_pptx (env slides converted) deck out (started w0)).2
           (Ok true)).
  - apply (run_as (extract_images_from_pptx (env slides converted) deck out)
             (started w0)).
    vm_compute. reflexivity.
  - discriminate.
  - vm_compute. reflexivity.
  - intros data. vm_compute. discriminate.
  - intros img Himg.
    apply elem_of_cons in Himg as [->|Himg];
      [|apply list_elem_of_singleton in Himg; subst img];
      eexists; vm_compute; reflexivity.
  - intros img Himg.
    apply elem_of_cons in Himg as [->|Himg];
      [|apply list_elem_of_singleton in Himg; subst img];
      vm_compute; discriminate.
  - apply run_as. vm_compute. reflexivity.
Defined.


End witnesses.


(** * The batch driver and the command line *)

Ltac driver_unfold :=
  unfold mbind, driver_mbind, driver_bind, mret, driver_mret, driver_ret,
    announce, sys_exit, driver_try_except in *.

(** ** Listing the presentations *)

Section listing.
Implicit Types (fs : gmap (list string) node) (d p : list string) (n s : string).

Lemma substring_whole t : String.substring 0 (String.length t) t = t.
Proof. induction t as [|b t IH]; simpl; [done|]. by rewrite IH. Qed.

Lemma substring_app_r s t :
  String.substring (String.length s) (String.length t) (s +:+ t) = t.
Proof.
  induction s as [|a s IH].
  - change ("" +:+ t) with t. apply substring_whole.
  - change (String a s +:+ t) with (String a (s +:+ t)). exact IH.
Qed.

Lemma length_string_app s t :
  String.length (s +:+ t) = String.length s + String.length t.
Proof.
  induction s as [|a s IH]; [done|].
  change (String a s +:+ t) with (String a (s +:+ t)). simpl. by rewrite IH.
Qed.

Lemma substring_none s : String.substring 0 0 s = "".
Proof. by destruct s. Qed.

Lemma substring_split k s :
  k ≤ String.length s →
  s = String.substring 0 k s +:+ String.substring k (String.length s - k) s.
Proof.
  revert k. induction s as [|a s IH]; intros [|k] Hk; simpl in *; try lia.
  - done.
  - change ("" +:+ String a (String.substring 0 (String.length s) s))
      with (String a (String.substring 0 (String.length s) s)).
    by rewrite substring_whole.
  - change (String a (String.substring 0 k s) +:+
              String.substring k (String.length s - k) s)
      with (String a (String.substring 0 k s +:+
                        String.substring k (String.length s - k) s)).
    f_equal. apply IH. lia.
Qed.

(** A name matches ["*.pptx"] exactly when it ends in [.pptx]. *)
Lemma matches_pptx_spec n :
  matches_pptx n = true ↔ ∃ s, n = s +:+ ".pptx".
Proof.
  unfold matches_pptx. rewrite andb_true_iff, Nat.leb_le, String.eqb_eq. split.
  - intros [Hlen Hsub]. exists (String.substring 0 (String.length n - 5) n).
    pose proof (substring_split (String.length n - 5) n ltac:(lia)) as H.
    replace (String.length n - (String.length n - 5)) with 5 in H by lia.
    by rewrite Hsub in H.
  - intros [s ->]. rewrite length_string_app. simpl. split; [lia|].
    replace (String.length s + 5 - 5) with (String.length s) by lia.
    apply (substring_app_r s ".pptx").
Qed.

Lemma glob_pptx_run input_dir w :
  glob_pptx input_dir w = (Ok (pptx_files (files w) input_dir), w).
Proof.
  unfold glob_pptx, pptx_files. io_simpl.
  by destruct (files w !! input_dir) as [[|?]|].
Qed.

End listing.

(** X1: the listing of [input_dir.glob("*.pptx")] is made of the direct
    entries of the input directory whose name ends in [.pptx], letter
    case as written, whatever kind of node they are, each once; it is
    empty when the input directory is missing or is not a directory; the
    listing changes nothing and prints nothing. *)
Theorem glob_pptx_lists_matching_entries input_dir w :
  ∃ listing,
    glob_pptx input_dir w = (Ok listing, w) ∧
    NoDup listing ∧
    (files w !! input_dir ≠ Some Dir → listing = []) ∧
    (files w !! input_dir = Some Dir →
     ∀ p, p ∈ listing ↔
          ∃ s, p = input_dir ++ [s +:+ ".pptx"] ∧ is_Some (files w !! p)).
Proof.
  exists (pptx_files (files w) input_dir).
  split; [apply glob_pptx_run|]. unfold pptx_files.
  destruct (files w !! input_dir) as [[|data]|] eqn:Hd.
  - split; [apply NoDup_filter, entries_NoDup|]. split; [done|].
    intros _ p. rewrite list_elem_of_filter, entries_spec. split.
    + intros (Hm & n & -> & Hs). rewrite name_snoc in Hm.
      apply matches_pptx_spec in Hm as [s ->]. eauto.
    + intros (s & -> & Hs). rewrite name_snoc. split; [|eauto].
      apply matches_pptx_spec. eauto.
  - split; [constructor|]. split; [done|]. done.
  - split; [constructor|]. split; [done|]. done.
Qed.

(** ** Making the output directory *)

Section mkdir_parents.
Implicit Types (p q : list string) (w : World).

Lemma confined_mkdir_parents_rev rself :
  confined (fun q => q `prefix_of` rev rself) nowhere (mkdir_parents_rev rself).
Proof.
  induction rself as [|n rparent IH].
  - simpl mkdir_parents_rev.
    apply confined_try_except; [eapply confined_mono; [| |apply confined_mkdir];
                                 [by intros q ->|done]|].
    intros e. destruct e;
      first [ apply confined_bind; [apply confined_path_isdir|intros []; confined_step]
            | apply confined_raise ].
  - simpl mkdir_parents_rev.
    apply confined_try_except; [eapply confined_mono; [| |apply confined_mkdir];
                                 [by intros q ->|done]|].
    intros e.
    assert (confined (fun q => q `prefix_of` rev rparent ++ [n]) nowhere
              (mkdir_parents_rev rparent;; OS.mkdir_exist_ok (rev rparent ++ [n]))).
    { apply confined_bind; [|intros _].
      - eapply confined_mono; [| |apply IH]; [|done].
        intros q Hq. by apply prefix_app_r.
      - eapply confined_mono; [| |apply confined_mkdir_exist_ok]; [by intros q ->|done]. }
    destruct e;
      first [ done
            | apply confined_bind; [apply confined_path_isdir|intros []; confined_step] ].
Qed.

Lemma confined_mkdir_parents p :
  confined (fun q => q `prefix_of` p) nowhere (mkdir_parents p).
Proof.
  unfold mkdir_parents.
  eapply confined_mono; [| |apply confined_mkdir_parents_rev]; [|done].
  intros q. by rewrite rev_involutive.
Qed.

Lemma quiet_mkdir_parents p : quiet (mkdir_parents p).
Proof.
  unfold mkdir_parents. induction (rev p) as [|n rparent IH]; simpl.
  - apply quiet_try_except; [apply quiet_mkdir|intros e].
    destruct e;
      first [ apply quiet_bind; [apply quiet_path_isdir|intros []; quiet_step]
            | apply quiet_raise ].
  - apply quiet_try_except; [apply quiet_mkdir|intros e].
    assert (quiet (mkdir_parents_rev rparent;; OS.mkdir_exist_ok (rev rparent ++ [n]))).
    { apply quiet_bind; [done|intros _; apply quiet_mkdir_exist_ok]. }
    destruct e;
      first [ done
            | apply quiet_bind; [apply quiet_path_isdir|intros []; quiet_step] ].
Qed.

Lemma keeps_mkdir_parents p : keeps_well_formed (mkdir_parents p).
Proof.
  unfold mkdir_parents. induction (rev p) as [|n rparent IH]; simpl.
  - apply keeps_try_except; [apply keeps_mkdir|intros e].
    destruct e;
      first [ apply keeps_bind; [apply keeps_path_isdir|
                                 intros []; first [apply keeps_ret|apply keeps_raise]]
            | apply keeps_raise ].
  - apply keeps_try_except; [apply keeps_mkdir|intros e].
    assert (keeps_well_formed
              (mkdir_parents_rev rparent;; OS.mkdir_exist_ok (rev rparent ++ [n]))).
    { apply keeps_bind; [done|intros _; apply keeps_mkdir_exist_ok]. }
    destruct e;
      first [ done
            | apply keeps_bind; [apply keeps_path_isdir|
                                 intros []; first [apply keeps_ret|apply keeps_raise]] ].
Qed.

(** A successful call leaves a directory. *)
Lemma mkdir_parents_ok p w w' :
  mkdir_parents p w = (Ok (), w') → files w' !! p = Some Dir.
Proof.
  unfold mkdir_parents. rewrite <- (rev_involutive p) at 2.
  generalize (rev p). clear p. intros rself. revert w w'.
  destruct rself as [|n rparent]; intros w w'; simpl mkdir_parents_rev;
    unfold try_except;
    (destruct (OS.mkdir _ w) as [[[]|e] w1] eqn:Hmk;
     [intros [= <-]; by eapply mkdir_ok|]); simpl.
  - unfold OS.path_isdir. io_simpl.
    destruct e; try done;
      destruct (files w1 !! []) as [[|?]|] eqn:Hp; try done; by intros [= <-].
  - destruct e;
      try (unfold OS.path_isdir; io_simpl;
           destruct (files w1 !! (rev rparent ++ [n])) as [[|?]|] eqn:Hp;
           try done; by intros [= <-]).
    io_unfold. destruct (mkdir_parents_rev rparent w1) as [[[]|e] w2]; [|done].
    apply mkdir_exist_ok_ok.
Qed.

(** It succeeds when nothing but directories is on the way. *)
Lemma mkdir_parents_rev_runs rself w :
  well_formed (files w) → files w !! [] = Some Dir →
  (∀ q data, q `prefix_of` rev rself → files w !! q ≠ Some (File data)) →
  ∃ w', mkdir_parents_rev rself w = (Ok (), w').
Proof.
  revert w. induction rself as [|n rparent IH]; intros w Hwf Hroot Hfree.
  - simpl. unfold try_except, OS.mkdir, OS.path_isdir. io_simpl.
    rewrite Hroot. simpl. rewrite Hroot. eauto.
  - simpl mkdir_parents_rev. unfold try_except.
    destruct (OS.mkdir (rev rparent ++ [n]) w) as [[[]|e] w1] eqn:Hmk; [eauto|].
    revert Hmk. unfold OS.mkdir. io_simpl. rewrite parent_snoc.
    destruct (files w !! (rev rparent ++ [n])) as [[|data]|] eqn:Hp.
    + intros [= <- <-]. simpl. unfold OS.path_isdir. io_simpl. rewrite Hp. eauto.
    + by destruct (Hfree (rev rparent ++ [n]) data).
    + destruct (files w !! rev rparent) as [[|data]|] eqn:Hpar.
      * done.
      * destruct (Hfree (rev rparent) data); [by apply prefix_app_r|done].
      * intros [= <- <-]. simpl. io_unfold.
        destruct (IH w) as [w2 Hrun]; [done..| |].
        { intros q data Hq. apply Hfree. simpl. by apply prefix_app_r. }
        rewrite Hrun.
        pose proof (mkdir_parents_ok (rev rparent) w w2) as Hdir.
        unfold mkdir_parents in Hdir. rewrite rev_involutive in Hdir.
        specialize (Hdir Hrun).
        pose proof (confined_mkdir_parents_rev rparent _ _ _ Hrun) as Hg.
        unfold OS.mkdir_exist_ok, try_except, OS.mkdir. io_simpl.
        rewrite parent_snoc, Hdir.
        rewrite (grows_None _ _ _ _ _ Hg Hp); [eauto|].
        apply prefix_snoc_not.
Qed.

End mkdir_parents.

(** X2: on a well-formed file system in which no regular file sits at the
    output directory or above it, [mkdir(parents=True, exist_ok=True)]
    returns; the directory and everything above it are then directories,
    a directory that was there is accepted, nothing that existed is
    changed and nothing is printed. *)
Theorem mkdir_parents_makes_directories p w :
  well_formed (files w) → files w !! [] = Some Dir →
  (∀ q data, q `prefix_of` p → files w !! q ≠ Some (File data)) →
  ∃ w', mkdir_parents p w = (Ok (), w') ∧
        (∀ q, q `prefix_of` p → files w' !! q = Some Dir) ∧
        (∀ q, is_Some (files w !! q) → files w' !! q = files w !! q) ∧
        (∀ q, ¬ q `prefix_of` p → files w' !! q = files w !! q) ∧
        console w' = console w.
Proof.
  intros Hwf Hroot Hfree.
  destruct (mkdir_parents_rev_runs (rev p) w) as [w' Hrun];
    [done..|by rewrite rev_involutive|].
  exists w'. split; [done|].
  pose proof (confined_mkdir_parents p _ _ _ Hrun) as Hg.
  pose proof (mkdir_parents_ok _ _ _ Hrun) as Hdir.
  pose proof (keeps_mkdir_parents p _ _ _ Hrun Hwf) as Hwf'.
  split; [|split; [|split]].
  - intros q [k ->]. revert Hdir. clear -Hwf'.
    induction k as [|x k IH] using rev_ind; [by rewrite app_nil_r|].
    rewrite app_assoc. intros Hdir. apply IH.
    rewrite <- (parent_snoc (q ++ k) x). apply Hwf'; [|eauto].
    by destruct (q ++ k).
  - intros q [nd Hq].
    destruct (Hg q) as [?|[(_ & Hn & _)|([] & _)]]; [done|congruence].
  - intros q Hq. eapply grows_frame; [done..|by intros []].
  - by eapply quiet_mkdir_parents.
Qed.

(** ** Counting lines *)

Section counting.
Implicit Types (c : list line).

Lemma processed_app c1 c2 : processed (c1 ++ c2) = processed c1 ++ processed c2.
Proof. apply omap_app. Qed.

Lemma created_app c1 c2 : created (c1 ++ c2) = created c1 + created c2.
Proof. unfold created. by rewrite filter_app, length_app. Qed.

Lemma errors_app c1 c2 : errors (c1 ++ c2) = errors c1 + errors c2.
Proof. unfold errors. by rewrite filter_app, length_app. Qed.

Lemma created_Processing n c : created (Processing n :: c) = created c.
Proof. done. Qed.

Lemma errors_Processing n c : errors (Processing n :: c) = errors c.
Proof. done. Qed.

End counting.

(** ** What one call prints and where it writes *)

Section one_call.
Context (E : Env) (pptx_path output_dir : list string).
Implicit Types (w : World) (q : list string).

Lemma extract_console w r w' :
  extract_images_from_pptx E pptx_path output_dir w = (r, w') →
  ∃ l, console w' = console w ++ l ∧ (l = [] ∨ ∃ e, l = [WarnExtract e]).
Proof.
  rewrite extract_eq.
  destruct (ZipFile.open _ _ _) as [[ms|e] w0];
    [|intros [= _ <-]; eexists; split; [done|eauto]].
  destruct (ZipFile.extractall _ _ _) as [[[]|e] w1] eqn:Hx;
    apply quiet_extractall in Hx.
  - destruct (files w1 !! _) as [[|data]|]; intros [= _ <-]; simpl;
      rewrite Hx; first [by exists []; rewrite app_nil_r; eauto
                        |eexists; split; [done|eauto]].
  - intros [= _ <-]. simpl. rewrite Hx. eexists; split; [done|eauto].
Qed.

Lemma copy_images_console images w r w' :
  copy_images pptx_path output_dir images w = (r, w') →
  ∃ l, console w' = console w ++ l ∧ (l = [] ∨ ∃ n d, l = [FoundImages n d]).
Proof.
  unfold copy_images. io_unfold.
  destruct (OS.mkdir_exist_ok _ w) as [[[]|e] w1] eqn:Hmk;
    apply quiet_mkdir_exist_ok in Hmk.
  - simpl. intros Hloop.
    assert (console w' = console w1 ++
              [FoundImages (length images) (PurePath.name (img_dir pptx_path output_dir))])
      as Hc.
    { destruct (for_each _ _ _) as [[[]|e] w2] eqn:Hf.
      - apply (quiet_for_each images) in Hf; [|intros img; apply quiet_copy2].
        by injection Hloop as _ <-.
      - apply (quiet_for_each images) in Hf; [|intros img; apply quiet_copy2].
        by injection Hloop as _ <-. }
    rewrite Hc, Hmk. eexists. split; [done|eauto].
  - intros [= _ <-]. rewrite Hmk. exists []. rewrite app_nil_r. eauto.
Qed.

Lemma stage_convert_console t w r w' :
  stage_convert E pptx_path output_dir t w = (r, w') →
  ∃ l, console w' = console w ++ l ∧
       ((l = [] ∧ ∃ e, r = Raise e) ∨
        (∃ f n, l = [Created f; Size n] ∧ r = Ok true) ∨
        (∃ e s, l = [ErrorConverting e; Stderr s] ∧ r = Ok false)).
Proof.
  rewrite stage_convert_eq.
  destruct (markitdown E (files w) pptx_path) as [c|].
  - destruct (returncode c =? 0)%Z.
    + destruct (date E) as [stamp|].
      * destruct (OS.write_file _ _ w) as [[[]|e] w1] eqn:Hw;
          apply quiet_write_file in Hw; intros [= <- <-];
          rewrite after_cleanup_console; simpl; rewrite Hw.
        -- eexists. split; [done|]. right. left. eauto.
        -- exists []. rewrite app_nil_r. split; [done|]. left. eauto.
      * intros [= <- <-]. rewrite after_cleanup_console.
        exists []. rewrite app_nil_r. split; [done|]. left. eauto.
    + intros [= <- <-]. rewrite after_cleanup_console. simpl.
      eexists. split; [done|]. right. right. eauto.
  - intros [= <- <-]. rewrite after_cleanup_console.
    exists []. rewrite app_nil_r. split; [done|]. left. eauto.
Qed.

(** One call prints its [Processing] line first and no other; a
    [Created] line exactly when it returns [True], an [ErrorConverting]
    line exactly when it returns [False]. *)
Lemma convert_console keep_images w r w' :
  convert_pptx_to_markdown E pptx_path output_dir keep_images w = (r, w') →
  ∃ rest, console w' = console w ++ Processing (PurePath.name pptx_path) :: rest ∧
          processed rest = [] ∧
          created rest = (match r with Ok true => 1 | _ => 0 end) ∧
          errors rest = (match r with Ok false => 1 | _ => 0 end).
Proof.
  rewrite convert_stages. io_unfold. rewrite stage_images_eq.
  destruct (extract_images_from_pptx _ _ _ _) as [[[images t]|e] w1] eqn:Hex.
  2: { destruct (extract_returns E pptx_path output_dir
                   (mkWorld (files w) (console w ++ [Processing (PurePath.name pptx_path)])))
         as (? & ? & ? & Hret). congruence. }
  apply extract_console in Hex as (l1 & Hc1 & Hl1). simpl in Hc1.
  assert (∀ w2 l2, console w2 = console w1 ++ l2 →
            (l2 = [] ∨ ∃ n d, l2 = [FoundImages n d]) →
            stage_convert E pptx_path output_dir t w2 = (r, w') →
            ∃ rest, console w' = console w ++ Processing (PurePath.name pptx_path) :: rest ∧
                    processed rest = [] ∧
                    created rest = (match r with Ok true => 1 | _ => 0 end) ∧
                    errors rest = (match r with Ok false => 1 | _ => 0 end)) as Hrest.
  { intros w2 l2 Hc2 Hl2 Hcv.
    apply stage_convert_console in Hcv as (l3 & Hc3 & Hl3).
    exists (l1 ++ l2 ++ l3). split.
    { rewrite Hc3, Hc2, Hc1, <- !app_assoc. done. }
    destruct Hl1 as [->|[e ->]]; destruct Hl2 as [->|(n & d & ->)];
      destruct Hl3 as [[-> [e' ->]]|[(f & k & -> & ->)|(e' & s & -> & ->)]]; done. }
  destruct (negb _ && keep_images).
  - destruct (copy_images _ _ images w1) as [[[]|e] w2] eqn:Hcp;
      apply copy_images_console in Hcp as (l2 & Hc2 & Hl2).
    + intros Hcv. by eapply Hrest.
    + intros [= <- <-]. exists (l1 ++ l2). split.
      { rewrite Hc2, Hc1, <- !app_assoc. done. }
      destruct Hl1 as [->|[e1 ->]]; destruct Hl2 as [->|(n & d & ->)]; done.
  - intros Hcv. eapply (Hrest w1 []); [by rewrite app_nil_r|by left|done].
Qed.

End one_call.

Section one_call_writes.
Context (E : Env) (pptx_path output_dir : list string).
Implicit Types (w : World) (q : list string).

Abbreviation temp := (temp_dir output_dir).
Abbreviation md := (md_path pptx_path output_dir).
Abbreviation imgs_dir := (img_dir pptx_path output_dir).

Lemma convert_frame_fine keep_images w r w' q :
  convert_pptx_to_markdown E pptx_path output_dir keep_images w = (r, w') →
  q ≠ md → ¬ temp `prefix_of` q →
  (keep_images = true → ¬ imgs_dir `prefix_of` q) →
  (is_Some (files w !! q) ∨ ¬ q `prefix_of` temp) →
  files w' !! q = files w !! q.
Proof.
  rewrite convert_stages. io_unfold. intros Hrun Hmd Hbelow Himg Hq.
  destruct (stage_images _ _ _ _ _) as [[t|e] w1] eqn:Hst.
  - assert (files w1 !! q = files w !! q) as <-.
    { destruct (stage_images_grows _ _ _ _ _ _ _ Hst q)
        as [?|[([?|[?|[? ?]]] & Hn & _)|([?|[? ?]] & _)]]; try done; auto.
      - destruct Hq as [[nd Hs]|?]; [congruence|done].
      - by destruct Himg.
      - by destruct Himg. }
    eapply stage_convert_frame; [done| |done..].
    by eapply stage_images_hands_over.
  - injection Hrun as _ <-.
    destruct (stage_images_grows _ _ _ _ _ _ _ Hst q)
      as [?|[([?|[?|[? ?]]] & Hn & _)|([?|[? ?]] & _)]]; try done; auto.
    + destruct Hq as [[nd Hs]|?]; [congruence|done].
    + by destruct Himg.
    + by destruct Himg.
Qed.

(** Nothing outside the output directory is changed, and only missing
    directories on the way to it are created. *)
Lemma convert_outside keep_images w r w' q :
  convert_pptx_to_markdown E pptx_path output_dir keep_images w = (r, w') →
  ¬ output_dir `prefix_of` q →
  (is_Some (files w !! q) ∨ ¬ q `prefix_of` output_dir) →
  files w' !! q = files w !! q.
Proof.
  intros Hrun Hout Hq. eapply convert_frame_fine; [done|..].
  - intros ->. apply Hout. by apply prefix_app_r.
  - intros Hp. apply Hout. etrans; [|exact Hp]. by apply prefix_app_r.
  - intros _ Hp. apply Hout. etrans; [|exact Hp]. by apply prefix_app_r.
  - destruct Hq as [?|Hq]; [by left|right].
    intros [->|Hp]%prefix_snoc_inv; [|done].
    apply Hout. by apply prefix_app_r.
Qed.

(** A directory away from the extraction directory stays a directory. *)
Lemma convert_keeps_dir keep_images w r w' q :
  convert_pptx_to_markdown E pptx_path output_dir keep_images w = (r, w') →
  files w !! q = Some Dir → ¬ temp `prefix_of` q →
  files w' !! q = Some Dir.
Proof.
  rewrite convert_stages. io_unfold. intros Hrun Hdir Hbelow.
  destruct (stage_images _ _ _ _ _) as [[t|e] w1] eqn:Hst.
  - pose proof (stage_images_hands_over _ _ _ _ _ _ _ Hst) as Ht.
    assert (files w1 !! q = Some Dir) as Hdir1
      by (eapply grows_dir; [by eapply stage_images_grows|done]).
    assert (∀ w0, files w0 !! q = Some Dir →
                  files (after_cleanup t w0) !! q = Some Dir) as Hc.
    { intros w0 H0. rewrite after_cleanup_outside; [done|].
      intros t' ->. by destruct Ht as [|[= ->]]. }
    revert Hrun. rewrite stage_convert_eq.
    destruct (markitdown E (files w1) pptx_path) as [c|];
      [|intros [= _ <-]; by apply Hc].
    destruct (returncode c =? 0)%Z; [|intros [= _ <-]; by apply Hc].
    destruct (date E) as [stamp|]; [|intros [= _ <-]; by apply Hc].
    destruct (OS.write_file _ _ w1) as [[[]|e] w2] eqn:Hw;
      apply confined_write_file in Hw; intros [= _ <-]; apply Hc; simpl;
      by eapply grows_dir.
  - injection Hrun as _ <-.
    eapply grows_dir; [by eapply stage_images_grows|done].
Qed.

(** X3: whether a call returns or raises, an entry of the file system
    that is not the output document, does not lie at or below the
    extraction directory and, with the flag set, does not lie at or below
    the images folder, is left exactly as it was; and nothing is created
    but there and, where missing, on the way to the output directory. *)
Theorem convert_writes_confined keep_images w r w' q :
  convert_pptx_to_markdown E pptx_path output_dir keep_images w = (r, w') →
  q ≠ output_dir ++ [PurePath.stem pptx_path +:+ ".md"] →
  ¬ output_dir ++ ["temp_extract"] `prefix_of` q →
  (keep_images = true →
   ¬ output_dir ++ [PurePath.stem pptx_path +:+ "_images"] `prefix_of` q) →
  (is_Some (files w !! q) ∨ ¬ q `prefix_of` output_dir ++ ["temp_extract"]) →
  files w' !! q = files w !! q.
Proof. apply convert_frame_fine. Qed.

(** X4: when the first stage hands the extraction directory over and it
    is a directory, nothing is left at or below it after the call,
    whether the call returns [True] or [False] or raises in the second
    stage. *)
Theorem extraction_dir_removed keep_images w t w1 r w' q :
  stage_images E pptx_path output_dir keep_images w = (Ok (Some t), w1) →
  files w1 !! t = Some Dir →
  convert_pptx_to_markdown E pptx_path output_dir keep_images w = (r, w') →
  output_dir ++ ["temp_extract"] `prefix_of` q →
  files w' !! q = None.
Proof.
  intros Hst Hdir. rewrite convert_stages. io_unfold. rewrite Hst.
  pose proof (stage_images_temp _ _ _ _ _ _ _ Hst) as ->.
  intros Hcv Hq. by eapply cleanup_removes_directory.
Qed.

(** X5: the image step runs before the [try]: when it raises, the call
    raises the same exception in the world the failed step left, without
    running the converter or the cleanup; the document path is as before
    the call and what was unpacked stays where it is. *)
Theorem image_step_failure_escapes w images t w1 e w2 :
  extract_images_from_pptx E pptx_path output_dir
    (mkWorld (files w) (console w ++ [Processing (PurePath.name pptx_path)]))
    = (Ok (images, t), w1) →
  images ≠ [] →
  copy_images pptx_path output_dir images w1 = (Raise e, w2) →
  convert_pptx_to_markdown E pptx_path output_dir true w = (Raise e, w2) ∧
  files w2 !! md = files w !! md ∧
  (∀ q, temp `prefix_of` q → files w2 !! q = files w1 !! q) ∧
  created (console w2) = created (console w) ∧
  errors (console w2) = errors (console w).
Proof.
  intros Hex Hne Hcp.
  assert (stage_images E pptx_path output_dir true w = (Raise e, w2)) as Hst.
  { rewrite stage_images_eq, Hex.
    rewrite bool_decide_eq_false_2 by done. by rewrite Hcp. }
  assert (convert_pptx_to_markdown E pptx_path output_dir true w = (Raise e, w2)) as Hcv.
  { rewrite convert_stages. io_unfold. by rewrite Hst. }
  split; [done|]. split; [by eapply stage_images_md|]. split.
  - intros q [k ->]. eapply grows_frame; [by eapply confined_copy_images|..];
      apply temp_not_below_images.
  - apply convert_console in Hcv as (rest & -> & _ & Hc & He).
    rewrite created_app, errors_app, created_Processing, errors_Processing. lia.
Qed.

(** X6: a process that cannot be started is not handled: when the
    converter, or after its success [date], cannot be started, the call
    raises [FileNotFoundError] instead of returning [False]; the cleanup
    has run and the document path is as before the call. *)
Theorem process_cannot_start keep_images w t w1 :
  stage_images E pptx_path output_dir keep_images w = (Ok t, w1) →
  (markitdown E (files w1) pptx_path = None ∨
   ∃ c, markitdown E (files w1) pptx_path = Some c ∧ returncode c = 0%Z ∧
        date E = None) →
  convert_pptx_to_markdown E pptx_path output_dir keep_images w =
    (Raise FileNotFoundError, after_cleanup t w1) ∧
  files (after_cleanup t w1) !! md = files w !! md ∧
  console (after_cleanup t w1) = console w1.
Proof.
  intros Hst Hproc. rewrite convert_stages. io_unfold. rewrite Hst.
  rewrite stage_convert_eq. split; [|split].
  - destruct Hproc as [->|(c & -> & -> & ->)]; done.
  - rewrite cleanup_keeps_md by by eapply stage_images_hands_over.
    by eapply stage_images_md.
  - apply after_cleanup_console.
Qed.

(** X7: when the converter and [date] succeed but the document cannot be
    opened for writing, a directory sitting at its path or the output
    directory not being a directory, the call raises the error of [open]
    instead of returning; the cleanup has run and nothing is written. *)
Theorem document_not_writable keep_images w t w1 c stamp :
  stage_images E pptx_path output_dir keep_images w = (Ok t, w1) →
  markitdown E (files w1) pptx_path = Some c → returncode c = 0%Z →
  date E = Some stamp →
  (files w1 !! md = Some Dir ∨ files w1 !! output_dir ≠ Some Dir) →
  ∃ e, convert_pptx_to_markdown E pptx_path output_dir keep_images w =
         (Raise e, after_cleanup t w1) ∧
       (e = IsADirectoryError ∨ e = NotADirectoryError ∨ e = FileNotFoundError) ∧
       files (after_cleanup t w1) !! md = files w !! md.
Proof.
  intros Hst Hrun Hrc Hdate Hbad. rewrite convert_stages. io_unfold. rewrite Hst.
  rewrite stage_convert_eq, Hrun, Hrc, Hdate. simpl.
  assert (∃ e, OS.write_file md (document pptx_path c stamp) w1 = (Raise e, w1) ∧
               (e = IsADirectoryError ∨ e = NotADirectoryError ∨ e = FileNotFoundError))
    as (e & -> & He).
  { unfold OS.write_file. io_simpl. rewrite parent_md.
    destruct (files w1 !! md) as [[|old]|] eqn:Hmd; [eauto| |];
      (destruct Hbad as [?|Hout]; [done|]);
      destruct (files w1 !! output_dir) as [[|?]|]; eauto 6; done. }
  exists e. split; [done|]. split; [done|].
  rewrite cleanup_keeps_md by by eapply stage_images_hands_over.
  by eapply stage_images_md.
Qed.

End one_call_writes.

(** ** The loop over the presentations *)

Section loop.
Context (E : Env) (output_dir : list string) (keep_images : bool).
Implicit Types (s : Session) (q : list string) (l : list (list string)).

Lemma lift_run {A} (m : io A) s :
  lift m s =
  match m (world s) with
  | (Ok a, w') => (Done a, mkSession w' (report s))
  | (Raise e, w') => (Raised e, mkSession w' (report s))
  end.
Proof. done. Qed.

Lemma processed_cons_Processing n c : processed (Processing n :: c) = n :: processed c.
Proof. done. Qed.

(** The loop prints no line of its own and does not exit; when it ends
    it has processed every presentation in the order of the listing and
    counted the [Created] and [ErrorConverting] lines; when it raises it
    has stopped at the presentation whose call raised. *)
Lemma convert_each_run l a0 b0 s r s' :
  convert_each E l output_dir keep_images a0 b0 s = (r, s') →
  report s' = report s ∧
  ∃ seg, console (world s') = console (world s) ++ seg ∧
    match r with
    | Done (a, b) =>
        processed seg = PurePath.name <$> l ∧
        a = a0 + created seg ∧ b = b0 + errors seg ∧
        a + b = a0 + b0 + length l
    | Raised e =>
        ∃ before p after, l = before ++ p :: after ∧
                          processed seg = PurePath.name <$> (before ++ [p])
    | Exit _ => False
    end.
Proof.
  revert a0 b0 s. induction l as [|p l IH]; intros a0 b0 s; simpl.
  { intros [= <- <-]. split; [done|]. exists []. rewrite app_nil_r.
    unfold created, errors. simpl. repeat split; lia. }
  driver_unfold. rewrite lift_run.
  destruct (convert_pptx_to_markdown E p output_dir keep_images (world s))
    as [[ok|e] w1] eqn:Hc;
    apply convert_console in Hc as (rest & Hcons & Hp & Hcr & Her).
  - intros Hrest.
    assert (∃ a1 b1, convert_each E l output_dir keep_images a1 b1
                       (mkSession w1 (report s)) = (r, s') ∧
                     a1 = a0 + created rest ∧ b1 = b0 + errors rest) as (a1 & b1 & Hrun & -> & ->).
    { destruct ok; eexists _, _; (split; [exact Hrest|]); lia. }
    apply IH in Hrun as (Hrep & seg & Hseg & Hr). simpl in *.
    split; [done|]. exists (Processing (PurePath.name p) :: rest ++ seg). split.
    { rewrite Hseg, Hcons, <- app_assoc. done. }
    destruct r as [[a b]|e|code]; [| |done].
    + destruct Hr as (Hpr & -> & -> & Hsum).
      rewrite processed_cons_Processing, processed_app, Hp, Hpr.
      rewrite created_Processing, errors_Processing, created_app, errors_app.
      split; [done|]. split; [lia|]. split; [lia|]. destruct ok; simpl in *; lia.
    + destruct Hr as (before & p' & after & -> & Hpr).
      exists (p :: before), p', after. split; [done|].
      by rewrite processed_cons_Processing, processed_app, Hp, Hpr.
  - intros [= <- <-]. simpl. split; [done|].
    exists (Processing (PurePath.name p) :: rest). split; [done|].
    exists [], p, l. split; [done|].
    by rewrite processed_cons_Processing, Hp.
Qed.

Lemma convert_each_outside l a0 b0 s r s' q :
  convert_each E l output_dir keep_images a0 b0 s = (r, s') →
  ¬ output_dir `prefix_of` q →
  (is_Some (files (world s) !! q) ∨ ¬ q `prefix_of` output_dir) →
  files (world s') !! q = files (world s) !! q.
Proof.
  revert a0 b0 s. induction l as [|p l IH]; intros a0 b0 s; simpl.
  { by intros [= <- <-]. }
  driver_unfold. rewrite lift_run. intros Hrun Hout Hq.
  destruct (convert_pptx_to_markdown E p output_dir keep_images (world s))
    as [[ok|e] w1] eqn:Hc;
    pose proof (convert_outside _ _ _ _ _ _ _ q Hc Hout Hq) as Hsame.
  - rewrite <- Hsame.
    assert (files (world s') !! q =
            files (world (mkSession w1 (report s))) !! q) as Hgoal; [|done].
    destruct ok; (eapply IH; [exact Hrun|done|]); simpl; rewrite Hsame; done.
  - by injection Hrun as <- <-.
Qed.

Lemma convert_each_keeps_dir l a0 b0 s r s' :
  convert_each E l output_dir keep_images a0 b0 s = (r, s') →
  files (world s) !! output_dir = Some Dir →
  files (world s') !! output_dir = Some Dir.
Proof.
  revert a0 b0 s. induction l as [|p l IH]; intros a0 b0 s; simpl.
  { by intros [= <- <-]. }
  driver_unfold. rewrite lift_run. intros Hrun Hdir.
  destruct (convert_pptx_to_markdown E p output_dir keep_images (world s))
    as [[ok|e] w1] eqn:Hc;
    apply (convert_keeps_dir _ _ _ _ _ _ _ output_dir) in Hc;
    try done; try apply prefix_snoc_not.
  - destruct ok; by eapply IH.
  - by injection Hrun as <- <-.
Qed.

End loop.

(** ** The batch *)

Section batch.
Context (E : Env) (input_dir output_dir : list string) (keep_images : bool).
Implicit Types (s : Session) (q : list string).

(** The batch, case by case. *)
Lemma batch_convert_run s :
  batch_convert E input_dir output_dir keep_images s =
  match mkdir_parents output_dir (world s) with
  | (Raise e, w1) => (Raised e, mkSession w1 (report s))
  | (Ok _, w1) =>
      let l := pptx_files (files w1) input_dir in
      if bool_decide (l = [])
      then (Done (),
            mkSession w1 (report s ++ stamped (length (console w1)) [NoFilesFound input_dir]))
      else
        match convert_each E l output_dir keep_images 0 0
                (mkSession w1
                   (report s ++
                      stamped (length (console w1))
                        (header_lines (length l) input_dir output_dir keep_images)))
        with
        | (Done (a, b), s2) =>
            (Done (),
             mkSession (world s2)
               (report s2 ++
                  stamped (length (console (world s2))) (summary_lines a b output_dir)))
        | (Raised e, s2) => (Raised e, s2)
        | (Exit code, s2) => (Exit code, s2)
        end
  end.
Proof.
  unfold batch_convert. driver_unfold. rewrite lift_run.
  destruct (mkdir_parents output_dir (world s)) as [[[]|e] w1]; [|done].
  rewrite lift_run. simpl. rewrite glob_pptx_run. simpl.
  destruct (bool_decide (pptx_files (files w1) input_dir = [])); [done|].
  simpl. rewrite <- !app_assoc. simpl.
  destruct (convert_each _ _ _ _ _ _ _) as [[[a b]|e|code] s2]; [|done..].
  simpl. by rewrite <- !app_assoc.
Qed.

Lemma batch_convert_outside s r s' q :
  batch_convert E input_dir output_dir keep_images s = (r, s') →
  ¬ output_dir `prefix_of` q →
  (is_Some (files (world s) !! q) ∨ ¬ q `prefix_of` output_dir) →
  files (world s') !! q = files (world s) !! q.
Proof.
  rewrite batch_convert_run. intros Hrun Hout Hq.
  destruct (mkdir_parents output_dir (world s)) as [r1 w1] eqn:Hmk.
  assert (files w1 !! q = files (world s) !! q) as Hsame.
  { pose proof (confined_mkdir_parents output_dir _ _ _ Hmk) as Hg.
    destruct Hq as [[nd Hq]|Hq].
    - destruct (Hg q) as [?|[(_ & Hn & _)|([] & _)]]; [done|congruence].
    - eapply grows_frame; [done..|by intros []]. }
  destruct r1 as [[]|e]; [|by injection Hrun as <- <-].
  simpl in Hrun.
  destruct (bool_decide _); [by injection Hrun as <- <-|].
  destruct (convert_each _ _ _ _ _ _ _) as [r2 s2] eqn:Hloop.
  apply (convert_each_outside _ _ _ _ _ _ _ _ _ q) in Hloop;
    [|done|simpl; by rewrite Hsame].
  simpl in Hloop.
  destruct r2 as [[a b]|e|code]; injection Hrun as <- <-; simpl; congruence.
Qed.

End batch.

Section batch_properties.
Context (E : Env) (input_dir output_dir : list string) (keep_images : bool).
Implicit Types (s : Session) (q : list string).

Lemma pptx_files_none fs :
  (fs !! input_dir ≠ Some Dir ∨
   ∀ stem, fs !! (input_dir ++ [stem +:+ ".pptx"]) = None) →
  pptx_files fs input_dir = [].
Proof.
  unfold pptx_files. intros [Hd|Hnone].
  - by destruct (fs !! input_dir) as [[|?]|].
  - destruct (fs !! input_dir) as [[|?]|]; [|done..].
    apply elem_of_nil_inv. intros p.
    rewrite list_elem_of_filter, entries_spec.
    intros (Hm & n & -> & [nd Hs]). rewrite name_snoc in Hm.
    apply matches_pptx_spec in Hm as [stem ->]. by rewrite Hnone in Hs.
Qed.

(** X8: when the output directory can be made and the input directory
    is missing, is not a directory or holds no entry whose name ends in
    [.pptx], the batch returns after the one line that no file was
    found; the output directory has been made all the same, no
    presentation is processed and nothing else is printed. *)
Theorem batch_no_presentations s w1 :
  mkdir_parents output_dir (world s) = (Ok (), w1) →
  (files w1 !! input_dir ≠ Some Dir ∨
   ∀ stem, files w1 !! (input_dir ++ [stem +:+ ".pptx"]) = None) →
  batch_convert E input_dir output_dir keep_images s =
    (Done (),
     mkSession w1 (report s ++ [(length (console (world s)), NoFilesFound input_dir)])) ∧
  files w1 !! output_dir = Some Dir ∧
  console w1 = console (world s).
Proof.
  intros Hmk Hnone. rewrite batch_convert_run, Hmk. simpl.
  rewrite (pptx_files_none _ Hnone). simpl.
  pose proof (quiet_mkdir_parents output_dir _ _ _ Hmk) as ->.
  split; [done|]. split; [by eapply mkdir_parents_ok|done].
Qed.

(** X9: a batch that returns has made the output directory, listed the
    input directory afterwards, and processed every listed presentation
    once, in the order of the listing; the two counts of the summary are
    the numbers of [Created] and of [ErrorConverting] lines the calls
    printed, and they add up to the number of presentations. The output
    directory is still a directory at the end. *)
Theorem batch_processes_every_file s s' :
  batch_convert E input_dir output_dir keep_images s = (Done (), s') →
  ∃ w1 seg,
    mkdir_parents output_dir (world s) = (Ok (), w1) ∧
    console (world s') = console (world s) ++ seg ∧
    processed seg = PurePath.name <$> pptx_files (files w1) input_dir ∧
    created seg + errors seg = length (pptx_files (files w1) input_dir) ∧
    files (world s') !! output_dir = Some Dir ∧
    report s' =
      report s ++
      if bool_decide (pptx_files (files w1) input_dir = [])
      then [(length (console (world s)), NoFilesFound input_dir)]
      else
        stamped (length (console (world s)))
          (header_lines (length (pptx_files (files w1) input_dir))
             input_dir output_dir keep_images) ++
        stamped (length (console (world s')))
          (summary_lines (created seg) (errors seg) output_dir).
Proof.
  rewrite batch_convert_run.
  destruct (mkdir_parents output_dir (world s)) as [[[]|e] w1] eqn:Hmk; [|done].
  pose proof (quiet_mkdir_parents output_dir _ _ _ Hmk) as Hq.
  pose proof (mkdir_parents_ok _ _ _ Hmk) as Hdir.
  simpl. rewrite Hq.
  destruct (bool_decide (pptx_files (files w1) input_dir = [])) eqn:Hl.
  - intros [= <-]. apply bool_decide_eq_true in Hl. exists w1, []. simpl.
    rewrite Hl, app_nil_r. done.
  - destruct (convert_each _ _ _ _ _ _ _) as [[[a b]|e|code] s2] eqn:Hloop; [|done..].
    intros [= <-]. simpl.
    pose proof (convert_each_keeps_dir _ _ _ _ _ _ _ _ _ Hloop Hdir) as Hdir'.
    apply convert_each_run in Hloop as (Hrep & seg & Hseg & Hpr & -> & -> & Hsum).
    simpl in *. exists w1, seg. rewrite Hseg, Hq, Hrep, <- app_assoc.
    rewrite Hl. repeat (split; [done || lia|]). done.
Qed.

(** X10: on every way out of the batch, an entry of the file system that
    does not lie at or below the output directory is left exactly as it
    was, and nothing is created outside the output directory but, where
    they were missing, the directories on the way to it. *)
Theorem batch_writes_below_output_dir s r s' q :
  batch_convert E input_dir output_dir keep_images s = (r, s') →
  ¬ output_dir `prefix_of` q →
  (is_Some (files (world s) !! q) ∨ ¬ q `prefix_of` output_dir) →
  files (world s') !! q = files (world s) !! q.
Proof. apply batch_convert_outside. Qed.

(** X11: the batch handles no exception and never exits by itself: it
    raises either because the output directory could not be made, before
    any line, or because the call for one presentation raised; then the
    presentations listed after that one are not processed and no summary
    is printed. *)
Theorem batch_stops_at_exception s r s' :
  batch_convert E input_dir output_dir keep_images s = (r, s') →
  r ≠ Done () →
  ∃ e, r = Raised e ∧
    ((mkdir_parents output_dir (world s) = (Raise e, world s') ∧
      report s' = report s) ∨
     (∃ w1 before p after seg,
        mkdir_parents output_dir (world s) = (Ok (), w1) ∧
        pptx_files (files w1) input_dir = before ++ p :: after ∧
        console (world s') = console (world s) ++ seg ∧
        processed seg = PurePath.name <$> (before ++ [p]) ∧
        report s' =
          report s ++
          stamped (length (console (world s)))
            (header_lines (length (pptx_files (files w1) input_dir))
               input_dir output_dir keep_images))).
Proof.
  rewrite batch_convert_run.
  destruct (mkdir_parents output_dir (world s)) as [[[]|e] w1] eqn:Hmk.
  - pose proof (quiet_mkdir_parents output_dir _ _ _ Hmk) as Hq.
    simpl. rewrite Hq.
    destruct (bool_decide _); [by intros [= <- <-]|].
    destruct (convert_each _ _ _ _ _ _ _) as [r2 s2] eqn:Hloop.
    apply convert_each_run in Hloop as (Hrep & seg & Hseg & Hr). simpl in *.
    destruct r2 as [[a b]|e|code]; [by intros [= <- <-]| |done].
    intros [= <- <-] _. exists e. split; [done|]. right.
    destruct Hr as (before & p & after & Hl & Hpr).
    exists w1, before, p, after, seg. by rewrite Hseg, Hq.
  - intros [= <- <-] _. exists e. split; [done|]. by left.
Qed.

End batch_properties.

(** ** What the result of a call tells *)

Section call_result.
Context (E : Env) (pptx_path output_dir : list string).
Implicit Types (w : World).

Lemma convert_result_md keep_images w ok w' :
  convert_pptx_to_markdown E pptx_path output_dir keep_images w = (Ok ok, w') →
  if ok
  then ∃ t w1 c stamp,
         stage_images E pptx_path output_dir keep_images w = (Ok t, w1) ∧
         markitdown E (files w1) pptx_path = Some c ∧ returncode c = 0%Z ∧
         date E = Some stamp ∧
         files w' !! md_path pptx_path output_dir =
           Some (File (document pptx_path c stamp))
  else files w' !! md_path pptx_path output_dir =
       files w !! md_path pptx_path output_dir.
Proof.
  rewrite convert_stages. io_unfold.
  destruct (stage_images _ _ _ _ _) as [[t|e] w1] eqn:Hst; [|done].
  pose proof (stage_images_hands_over _ _ _ _ _ _ _ Hst) as Ht.
  rewrite stage_convert_eq.
  destruct (markitdown E (files w1) pptx_path) as [c|] eqn:Hrun; [|done].
  destruct (returncode c =? 0)%Z eqn:Hrc.
  - destruct (date E) as [stamp|] eqn:Hdate; [|done].
    destruct (OS.write_file _ _ w1) as [[[]|e] w2] eqn:Hw; [|done].
    intros [= <- <-]. exists t, w1, c, stamp.
    apply Z.eqb_eq in Hrc. repeat (split; [done|]).
    rewrite cleanup_keeps_md by done. simpl.
    apply write_file_ok in Hw as (-> & _). apply lookup_insert_eq.
  - intros [= <- <-]. rewrite cleanup_keeps_md by done. simpl.
    by eapply stage_images_md.
Qed.

(** Without the flag, a converter that exits with a status other than 0
    makes the call return [False]. *)
Lemma convert_fails_without_flag w :
  (∀ fs, ∃ c, markitdown E fs pptx_path = Some c ∧ returncode c ≠ 0%Z) →
  ∃ w', convert_pptx_to_markdown E pptx_path output_dir false w = (Ok false, w').
Proof.
  intros Hfail. rewrite convert_stages. io_unfold.
  destruct (stage_images_no_flag E pptx_path output_dir w) as (t & w1 & ->).
  rewrite stage_convert_eq.
  destruct (Hfail (files w1)) as (c & -> & Hrc%Z.eqb_neq). rewrite Hrc. eauto.
Qed.

End call_result.

(** ** The command line *)

Section command_line.
Context (E : Env).
Implicit Types (s : Session) (args : Args.t) (help : option completed).

Lemma tool_check_run help s :
  driver_try_except is_CalledProcessError_or_FileNotFoundError
    (lift (subprocess.run help true);; mret ())
    (fun _ =>
       announce ToolMissing;; announce InstallHint;; announce InstallCommand;;
       sys_exit 1) s =
  match help with
  | Some c =>
      if (returncode c =? 0)%Z then (Done (), s)
      else (Exit 1,
            mkSession (world s)
              (report s ++
                 stamped (length (console (world s)))
                   [ToolMissing; InstallHint; InstallCommand]))
  | None =>
      (Exit 1,
       mkSession (world s)
         (report s ++
            stamped (length (console (world s)))
              [ToolMissing; InstallHint; InstallCommand]))
  end.
Proof.
  driver_unfold. rewrite lift_run. unfold subprocess.run. io_unfold.
  destruct help as [c|]; simpl.
  - destruct (returncode c =? 0)%Z; simpl; [by destruct s|].
    by rewrite <- !app_assoc.
  - by rewrite <- !app_assoc.
Qed.

Lemma main_run help args s :
  main E help args s =
  match help with
  | Some c =>
      if (returncode c =? 0)%Z then
        match Args.file args with
        | Some f =>
            match mkdir_parents (Args.output_dir args) (world s) with
            | (Ok _, w1) =>
                match convert_pptx_to_markdown E f (Args.output_dir args)
                        (Args.keep_images args) w1 with
                | (Ok true, w2) =>
                    (Done (),
                     mkSession w2 (report s ++ [(length (console w2), Converted f)]))
                | (Ok false, w2) =>
                    (Exit 1,
                     mkSession w2 (report s ++ [(length (console w2), NotConverted f)]))
                | (Raise e, w2) => (Raised e, mkSession w2 (report s))
                end
            | (Raise e, w1) => (Raised e, mkSession w1 (report s))
            end
        | None =>
            batch_convert E (Args.input_dir args) (Args.output_dir args)
              (Args.keep_images args) s
        end
      else (Exit 1,
            mkSession (world s)
              (report s ++
                 stamped (length (console (world s)))
                   [ToolMissing; InstallHint; InstallCommand]))
  | None =>
      (Exit 1,
       mkSession (world s)
         (report s ++
            stamped (length (console (world s)))
              [ToolMissing; InstallHint; InstallCommand]))
  end.
Proof.
  unfold main. unfold mbind at 1. unfold driver_mbind, driver_bind.
  rewrite tool_check_run.
  destruct help as [c|]; [|done].
  destruct (returncode c =? 0)%Z; [|done].
  destruct (Args.file args) as [f|]; [|done].
  driver_unfold. rewrite lift_run.
  destruct (mkdir_parents _ _) as [[[]|e] w1]; [|done].
  rewrite lift_run. simpl.
  by destruct (convert_pptx_to_markdown _ _ _ _ _) as [[[]|e] w2].
Qed.

(** X12: when the converter cannot be started for its [--help], or
    exits from it with a status other than 0, the program prints the
    three lines of the installation hint and exits with status 1, in
    either mode; the file system is untouched, in particular the output
    directory has not been made, and no presentation is processed. *)
Theorem main_tool_missing help args s :
  (help = None ∨ ∃ c, help = Some c ∧ returncode c ≠ 0%Z) →
  main E help args s =
    (Exit 1,
     mkSession (world s)
       (report s ++
          stamped (length (console (world s)))
            [ToolMissing; InstallHint; InstallCommand])) ∧
  exit_status (main E help args s).1 = 1%Z.
Proof.
  intros Hhelp.
  assert (main E help args s =
          (Exit 1,
           mkSession (world s)
             (report s ++
                stamped (length (console (world s)))
                  [ToolMissing; InstallHint; InstallCommand]))) as Hrun.
  { rewrite main_run. destruct Hhelp as [->|(c & -> & Hrc%Z.eqb_neq)]; [done|].
    by rewrite Hrc. }
  split; [done|]. by rewrite Hrun.
Qed.

(** X13: with the converter installed, the single-file mode ends in one
    of three ways. It returns, with exit status 0, after the line of
    success, and then the document of the presentation has been written
    by this run: it holds the header made from the output that [date]
    gave and the standard output that the converter gave, with status 0,
    on the file system the image stage of this run left. It exits with
    status 1 after the line of failure, and then the path of the
    document holds what it held before. Or an exception of the directory
    creation or of the call escapes, and then neither line is printed. *)
Theorem single_file_exit_status help c args f s r s' :
  help = Some c → returncode c = 0%Z → Args.file args = Some f →
  main E help args s = (r, s') →
  match r with
  | Done _ =>
      (∃ w1 t w2 c' stamp,
         mkdir_parents (Args.output_dir args) (world s) = (Ok (), w1) ∧
         stage_images E f (Args.output_dir args) (Args.keep_images args) w1
           = (Ok t, w2) ∧
         markitdown E (files w2) f = Some c' ∧ returncode c' = 0%Z ∧
         date E = Some stamp ∧
         files (world s') !! md_path f (Args.output_dir args) =
           Some (File
             ("# " +:+ PurePath.stem f +:+ "

**Source File:** " +:+ PurePath.name f +:+ "  
**Converted:** " +:+ PurePath.strip (stdout stamp) +:+ "

---

" +:+ stdout c'))) ∧
      report s' = report s ++ [(length (console (world s')), Converted f)]
  | Exit code =>
      code = 1%Z ∧
      files (world s') !! md_path f (Args.output_dir args) =
        files (world s) !! md_path f (Args.output_dir args) ∧
      report s' = report s ++ [(length (console (world s')), NotConverted f)]
  | Raised e => report s' = report s
  end.
Proof.
  intros -> Hrc Hf. rewrite main_run, Hf.
  apply Z.eqb_eq in Hrc. rewrite Hrc.
  destruct (mkdir_parents _ _) as [[[]|e] w1] eqn:Hmk; [|by intros [= <- <-]].
  destruct (convert_pptx_to_markdown _ _ _ _ _) as [[ok|e] w2] eqn:Hcv;
    [|by intros [= <- <-]].
  apply convert_result_md in Hcv.
  destruct ok; intros [= <- <-]; simpl.
  - destruct Hcv as (t & w1' & c' & stamp & Hst & Hrun & Hrc' & Hdate & Hmd).
    split; [|done]. exists w1, t, w1', c', stamp.
    rewrite <- document_text. done.
  - split; [done|]. split; [|done]. rewrite Hcv.
    eapply grows_frame; [by eapply confined_mkdir_parents| |by intros []].
    apply prefix_snoc_not.
Qed.

(** Without the flag, when the converter fails on every presentation,
    the loop counts every presentation as failed. *)
Lemma convert_each_all_fail output_dir l a0 b0 s :
  (∀ fs p, ∃ c, markitdown E fs p = Some c ∧ returncode c ≠ 0%Z) →
  ∃ s', convert_each E l output_dir false a0 b0 s = (Done (a0, b0 + length l), s').
Proof.
  intros Hfail. revert b0 s. induction l as [|p l IH]; intros b0 s; simpl.
  { rewrite Nat.add_0_r. by eexists. }
  driver_unfold. rewrite lift_run.
  destruct (convert_fails_without_flag E p output_dir (world s)) as [w1 ->];
    [intros fs; apply Hfail|].
  destruct (IH (b0 + 1) (mkSession w1 (report s))) as [s' ->].
  exists s'. do 3 f_equal. lia.
Qed.

(** X14: the batch mode does not pass failures on to the exit status:
    with the converter installed but failing on every presentation, and
    the flag off, the program counts every listed presentation as
    failed, prints the summary with no success, and still returns, so
    that the exit status is 0. *)
Theorem batch_mode_ignores_failures help c args s w1 :
  help = Some c → returncode c = 0%Z →
  Args.file args = None → Args.keep_images args = false →
  (∀ fs p, ∃ c, markitdown E fs p = Some c ∧ returncode c ≠ 0%Z) →
  mkdir_parents (Args.output_dir args) (world s) = (Ok (), w1) →
  pptx_files (files w1) (Args.input_dir args) ≠ [] →
  ∃ s',
    main E help args s = (Done (), s') ∧
    exit_status (main E help args s).1 = 0%Z ∧
    (report s').*2 =
      (report s).*2 ++
      header_lines (length (pptx_files (files w1) (Args.input_dir args)))
        (Args.input_dir args) (Args.output_dir args) false ++
      summary_lines 0 (length (pptx_files (files w1) (Args.input_dir args)))
        (Args.output_dir args).
Proof.
  intros -> Hrc Hf Hkeep Hfail Hmk Hl.
  assert (∃ s', main E (Some c) args s = (Done (), s') ∧
                (report s').*2 =
                  (report s).*2 ++
                  header_lines (length (pptx_files (files w1) (Args.input_dir args)))
                    (Args.input_dir args) (Args.output_dir args) false ++
                  summary_lines 0
                    (length (pptx_files (files w1) (Args.input_dir args)))
                    (Args.output_dir args)) as (s' & Hrun & Hrep).
  { rewrite main_run, Hf, Hkeep. apply Z.eqb_eq in Hrc. rewrite Hrc.
    rewrite batch_convert_run, Hmk. simpl.
    rewrite bool_decide_eq_false_2 by done.
    match goal with
    | |- context [convert_each E ?l ?o false 0 0 ?s0] =>
        destruct (convert_each_all_fail o l 0 0 s0 Hfail) as [s2 Hloop];
        pose proof (convert_each_run _ _ _ _ _ _ _ _ _ Hloop) as [Hrep _];
        rewrite Hloop
    end.
    eexists. split; [done|]. simpl. rewrite Hrep. simpl.
    rewrite !fmap_app. simpl. by rewrite <- app_assoc. }
  exists s'. split; [done|]. split; [by rewrite Hrun|done].
Qed.

End command_line.

(** ** Names *)

Section names.
Implicit Types (d p : list string) (n s t : string) (a c : ascii).

Lemma substring_app_l s t : String.substring 0 (String.length s) (s +:+ t) = s.
Proof.
  induction s as [|a s IH].
  - change ("" +:+ t) with t. apply substring_none.
  - change (String a s +:+ t) with (String a (s +:+ t)). simpl. by rewrite IH.
Qed.

Lemma rfind_pptx s : PurePath.rfind "." (s +:+ ".pptx") = Some (String.length s).
Proof.
  induction s as [|a s IH]; [done|].
  change (String a s +:+ ".pptx") with (String a (s +:+ ".pptx")).
  simpl. by rewrite IH.
Qed.

Lemma stem_of_pptx s :
  PurePath.stem_of (s +:+ ".pptx") = if decide (s = "") then ".pptx" else s.
Proof.
  unfold PurePath.stem_of. rewrite rfind_pptx, length_string_app. simpl.
  destruct s as [|a s]; [done|].
  rewrite decide_False by done.
  replace (0 <? String.length (String a s)) with true by done.
  replace (String.length (String a s) <? String.length (String a s) + 5 - 1)
    with true by (symmetry; apply Nat.ltb_lt; lia).
  apply substring_app_l.
Qed.

(** X15: the document of a presentation [<s>.pptx] is [<s>.md] in the
    output directory and its images folder is [<s>_images], wherever the
    presentation lies and whatever dots [s] holds; only the presentation
    named just [.pptx] keeps its whole name, and so shares its document
    with [.pptx.pptx]. *)
Theorem document_name_of_presentation d s output_dir :
  md_path (d ++ [s +:+ ".pptx"]) output_dir =
    output_dir ++ [(if decide (s = "") then ".pptx" else s) +:+ ".md"] ∧
  img_dir (d ++ [s +:+ ".pptx"]) output_dir =
    output_dir ++ [(if decide (s = "") then ".pptx" else s) +:+ "_images"] ∧
  md_path (d ++ [".pptx" +:+ ".pptx"]) output_dir =
    md_path (d ++ ["" +:+ ".pptx"]) output_dir.
Proof.
  unfold md_path, img_dir, PurePath.stem. rewrite !name_snoc, !stem_of_pptx.
  done.
Qed.

Lemma lower_ascii_dot a :
  Ascii.eqb (PurePath.lower_ascii a) "." = Ascii.eqb a ".".
Proof. by destruct a as [[] [] [] [] [] [] [] []]. Qed.

Lemma rfind_lower s :
  PurePath.rfind "." (PurePath.lower s) = PurePath.rfind "." s.
Proof.
  induction s as [|a s IH]; [done|]. simpl. rewrite IH.
  destruct (PurePath.rfind "." s); [done|]. by rewrite lower_ascii_dot.
Qed.

Lemma length_lower s : String.length (PurePath.lower s) = String.length s.
Proof. induction s as [|a s IH]; simpl; congruence. Qed.

Lemma substring_lower i k s :
  String.substring i k (PurePath.lower s) = PurePath.lower (String.substring i k s).
Proof.
  revert i k. induction s as [|a s IH]; intros [|i] [|k]; simpl;
    rewrite ?IH; done.
Qed.

Lemma suffix_lower n :
  PurePath.suffix (PurePath.lower n) = PurePath.lower (PurePath.suffix n).
Proof.
  unfold PurePath.suffix. rewrite rfind_lower, length_lower.
  destruct (PurePath.rfind "." n) as [i|]; [|done].
  destruct (_ && _); [|done]. apply substring_lower.
Qed.

(** X16: the test for an image does not see the case of ASCII letters:
    two entries whose names are equal once lowered are both images or
    both not, so [A.PNG] counts as [a.png] does. *)
Theorem is_image_ignores_case p q :
  PurePath.lower (PurePath.name p) = PurePath.lower (PurePath.name q) →
  is_image p = is_image q.
Proof.
  intros Heq. unfold is_image.
  by rewrite <- !suffix_lower, Heq.
Qed.

End names.

(** X17: a call prints the line of the presentation it processes first,
    and that line once; among the lines after it there is one [Created]
    line exactly when the call returns [True], one [ErrorConverting]
    line exactly when it returns [False], and neither when it raises. *)
Theorem convert_reports_outcome E pptx_path output_dir keep_images w r w' :
  convert_pptx_to_markdown E pptx_path output_dir keep_images w = (r, w') →
  ∃ rest, console w' = console w ++ Processing (PurePath.name pptx_path) :: rest ∧
          processed rest = [] ∧
          created rest = (match r with Ok true => 1 | _ => 0 end) ∧
          errors rest = (match r with Ok false => 1 | _ => 0 end).
Proof. apply convert_console. Qed.

(** * Concrete runs of the driver *)

(** A run of the driver is settled by its outcome. *)
Lemma driver_run_as {A} (m : driver A) (s : Session) (r : outcome A) :
  (m s).1 = r → m s = (r, (m s).2).
Proof. intros <-. by destruct (m s). Qed.

Section driver_witnesses.
Import Examples.

Example fs_batch_well_formed : well_formed fs_batch.
Proof. apply well_formed_check. apply (bool_decide_unpack _). by vm_compute. Qed.

Lemma mkdir_parents_makes_directories_witness :
  ∃ w', mkdir_parents out_md w_batch = (Ok (), w') ∧
        (∀ q, q `prefix_of` out_md → files w' !! q = Some Dir) ∧
        (∀ q, is_Some (files w_batch !! q) → files w' !! q = files w_batch !! q) ∧
        (∀ q, ¬ q `prefix_of` out_md → files w' !! q = files w_batch !! q) ∧
        console w' = console w_batch.
Proof.
  apply (mkdir_parents_makes_directories out_md w_batch).
  - exact fs_batch_well_formed.
  - vm_compute. reflexivity.
  - intros q data [k Hk].
    unfold out_md in Hk.
    destruct q as [|a [|b [|c q]]]; simplify_eq/=; by vm_compute.
Defined.

Lemma convert_writes_confined_witness :
  files (convert_pptx_to_markdown (env slides converted) deck out true w0).2 !! deck
  = files w0 !! deck.
Proof.
  apply (convert_writes_confined (env slides converted) deck out true w0 (Ok true)).
  - apply run_as. vm_compute. reflexivity.
  - discriminate.
  - intros [k Hk]. discriminate.
  - intros _ [k Hk]. discriminate.
  - left. vm_compute. eauto.
Defined.

Lemma extraction_dir_removed_witness :
  files (convert_pptx_to_markdown (env slides converted) deck out true w0).2
    !! (media_dir out ++ ["a.png"]) = None.
Proof.
  apply (extraction_dir_removed (env slides converted) deck out true w0
           (temp_dir out)
           (stage_images (env slides converted) deck out true w0).2
           (Ok true)).
  - apply run_as. vm_compute. reflexivity.
  - vm_compute. reflexivity.
  - apply run_as. vm_compute. reflexivity.
  - by exists ["ppt"; "media"; "a.png"].
Defined.

Lemma image_step_failure_escapes_witness :
  convert_pptx_to_markdown (env slides converted) deck out true w_blocked =
    (Raise FileExistsError,
     (copy_images deck out
        [media_dir out ++ ["a.png"]; media_dir out ++ ["b.JPG"]]
        (extract_images_from_pptx (env slides converted) deck out
           (started w_blocked)).2).2) ∧
  files (copy_images deck out
           [media_dir out ++ ["a.png"]; media_dir out ++ ["b.JPG"]]
           (extract_images_from_pptx (env slides converted) deck out
              (started w_blocked)).2).2 !! md_path deck out
  = files w_blocked !! md_path deck out ∧
  (∀ q, temp_dir out `prefix_of` q →
        files (copy_images deck out
                 [media_dir out ++ ["a.png"]; media_dir out ++ ["b.JPG"]]
                 (extract_images_from_pptx (env slides converted) deck out
                    (started w_blocked)).2).2 !! q
        = files (extract_images_from_pptx (env slides converted) deck out
                   (started w_blocked)).2 !! q) ∧
  created (console (copy_images deck out
                      [media_dir out ++ ["a.png"]; media_dir out ++ ["b.JPG"]]
                      (extract_images_from_pptx (env slides converted) deck out
                         (started w_blocked)).2).2)
  = created (console w_blocked) ∧
  errors (console (copy_images deck out
                     [media_dir out ++ ["a.png"]; media_dir out ++ ["b.JPG"]]
                     (extract_images_from_pptx (env slides converted) deck out
                        (started w_blocked)).2).2)
  = errors (console w_blocked).
Proof.
  apply (image_step_failure_escapes (env slides converted) deck out w_blocked
           [media_dir out ++ ["a.png"]; media_dir out ++ ["b.JPG"]]
           (Some (temp_dir out))
           (extract_images_from_pptx (env slides converted) deck out
              (started w_blocked)).2
           FileExistsError).
  - apply (run_as (extract_images_from_pptx (env slides converted) deck out)
             (started w_blocked)).
    vm_compute. reflexivity.
  - discriminate.
  - apply run_as. vm_compute. reflexivity.
Defined.

Lemma process_cannot_start_witness :
  convert_pptx_to_markdown no_converter deck out false w0 =
    (Raise FileNotFoundError,
     after_cleanup (Some (temp_dir out))
       (stage_images no_converter deck out false w0).2) ∧
  files (after_cleanup (Some (temp_dir out))
           (stage_images no_converter deck out false w0).2) !! md_path deck out
  = files w0 !! md_path deck out ∧
  console (after_cleanup (Some (temp_dir out))
             (stage_images no_converter deck out false w0).2)
  = console (stage_images no_converter deck out false w0).2.
Proof.
  apply (process_cannot_start no_converter deck out false w0).
  - apply run_as. vm_compute. reflexivity.
  - left. reflexivity.
Defined.

Lemma document_not_writable_witness :
  ∃ e, convert_pptx_to_markdown (env slides converted) deck out false w_md_dir =
         (Raise e,
          after_cleanup (Some (temp_dir out))
            (stage_images (env slides converted) deck out false w_md_dir).2) ∧
       (e = IsADirectoryError ∨ e = NotADirectoryError ∨ e = FileNotFoundError) ∧
       files (after_cleanup (Some (temp_dir out))
                (stage_images (env slides converted) deck out false w_md_dir).2)
         !! md_path deck out
       = files w_md_dir !! md_path deck out.
Proof.
  apply (document_not_writable (env slides converted) deck out false w_md_dir
           (Some (temp_dir out))
           (stage_images (env slides converted) deck out false w_md_dir).2
           converted stamp).
  - apply run_as. vm_compute. reflexivity.
  - reflexivity.
  - reflexivity.
  - reflexivity.
  - left. vm_compute. reflexivity.
Defined.

Lemma batch_no_presentations_witness :
  batch_convert (env slides converted) ["slides"] out_md false (session w_batch) =
    (Done (),
     mkSession (mkdir_parents out_md w_batch).2
       (report (session w_batch) ++
          [(length (console (world (session w_batch))), NoFilesFound ["slides"])])) ∧
  files (mkdir_parents out_md w_batch).2 !! out_md = Some Dir ∧
  console (mkdir_parents out_md w_batch).2 = console (world (session w_batch)).
Proof.
  apply (batch_no_presentations (env slides converted) ["slides"] out_md false
           (session w_batch)).
  - apply (run_as (mkdir_parents out_md) w_batch). vm_compute. reflexivity.
  - left. vm_compute. discriminate.
Defined.

Lemma batch_processes_every_file_witness :
  ∃ w1 seg,
    mkdir_parents out_md (world (session w_batch)) = (Ok (), w1) ∧
    console (world (batch_convert fails_on_b ["in"] out_md false (session w_batch)).2)
      = console (world (session w_batch)) ++ seg ∧
    processed seg = PurePath.name <$> pptx_files (files w1) ["in"] ∧
    created seg + errors seg = length (pptx_files (files w1) ["in"]) ∧
    files (world (batch_convert fails_on_b ["in"] out_md false (session w_batch)).2)
      !! out_md = Some Dir ∧
    report (batch_convert fails_on_b ["in"] out_md false (session w_batch)).2 =
      report (session w_batch) ++
      if bool_decide (pptx_files (files w1) ["in"] = [])
      then [(length (console (world (session w_batch))), NoFilesFound ["in"])]
      else
        stamped (length (console (world (session w_batch))))
          (header_lines (length (pptx_files (files w1) ["in"])) ["in"] out_md false) ++
        stamped
          (length (console (world (batch_convert fails_on_b ["in"] out_md false
                                     (session w_batch)).2)))
          (summary_lines (created seg) (errors seg) out_md).
Proof.
  apply (batch_processes_every_file fails_on_b ["in"] out_md false (session w_batch)).
  apply driver_run_as. vm_compute. reflexivity.
Defined.

Lemma batch_writes_below_output_dir_witness :
  files (world (batch_convert fails_on_b ["in"] out_md false (session w_batch)).2)
    !! ["in"; "a.pptx"]
  = files (world (session w_batch)) !! ["in"; "a.pptx"].
Proof.
  apply (batch_writes_below_output_dir fails_on_b ["in"] out_md false
           (session w_batch) (Done ())).
  - apply driver_run_as. vm_compute. reflexivity.
  - intros [k Hk]. discriminate.
  - left. vm_compute. eauto.
Defined.

Lemma batch_stops_at_exception_witness :
  ∃ e, @Raised unit FileExistsError = Raised e ∧
    ((mkdir_parents out (world (session w_blocked)) =
        (Raise e,
         world (batch_convert (env slides converted) ["in"] out true
                  (session w_blocked)).2) ∧
      report (batch_convert (env slides converted) ["in"] out true
                (session w_blocked)).2 = report (session w_blocked)) ∨
     (∃ w1 before p after seg,
        mkdir_parents out (world (session w_blocked)) = (Ok (), w1) ∧
        pptx_files (files w1) ["in"] = before ++ p :: after ∧
        console (world (batch_convert (env slides converted) ["in"] out true
                          (session w_blocked)).2)
          = console (world (session w_blocked)) ++ seg ∧
        processed seg = PurePath.name <$> (before ++ [p]) ∧
        report (batch_convert (env slides converted) ["in"] out true
                  (session w_blocked)).2 =
          report (session w_blocked) ++
          stamped (length (console (world (session w_blocked))))
            (header_lines (length (pptx_files (files w1) ["in"])) ["in"] out true))).
Proof.
  apply (batch_stops_at_exception (env slides converted) ["in"] out true
           (session w_blocked)).
  - apply driver_run_as. vm_compute. reflexivity.
  - discriminate.
Defined.

Lemma main_tool_missing_witness :
  main (env slides converted) None Args.default (session w0) =
    (Exit 1,
     mkSession (world (session w0))
       (report (session w0) ++
          stamped (length (console (world (session w0))))
            [ToolMissing; InstallHint; InstallCommand])) ∧
  exit_status (main (env slides converted) None Args.default (session w0)).1 = 1%Z.
Proof.
  apply (main_tool_missing (env slides converted) None Args.default (session w0)).
  left. reflexivity.
Defined.

Lemma single_file_exit_status_witness :
  (∃ w1 t w2 c' stamp0,
     mkdir_parents out (world (session w0)) = (Ok (), w1) ∧
     stage_images (env slides converted) deck out false w1 = (Ok t, w2) ∧
     markitdown (env slides converted) (files w2) deck = Some c' ∧
     returncode c' = 0%Z ∧
     date (env slides converted) = Some stamp0 ∧
     files (world (main (env slides converted) (Some converted)
                     (Args.mk ["in"] out (Some deck) false) (session w0)).2)
       !! md_path deck out =
       Some (File
         ("# " +:+ PurePath.stem deck +:+ "

**Source File:** " +:+ PurePath.name deck +:+ "  
**Converted:** " +:+ PurePath.strip (stdout stamp0) +:+ "

---

" +:+ stdout c'))) ∧
  report (main (env slides converted) (Some converted)
            (Args.mk ["in"] out (Some deck) false) (session w0)).2 =
    report (session w0) ++
    [(length (console (world (main (env slides converted) (Some converted)
                                (Args.mk ["in"] out (Some deck) false)
                                (session w0)).2)),
      Converted deck)].
Proof.
  apply (single_file_exit_status (env slides converted) (Some converted) converted
           (Args.mk ["in"] out (Some deck) false) deck (session w0) (Done ())).
  - reflexivity.
  - reflexivity.
  - reflexivity.
  - apply driver_run_as. vm_compute. reflexivity.
Defined.

Lemma batch_mode_ignores_failures_witness :
  ∃ s',
    main (env slides failed) (Some converted) (Args.mk ["in"] out_md None false)
      (session w_batch) = (Done (), s') ∧
    exit_status (main (env slides failed) (Some converted)
                   (Args.mk ["in"] out_md None false) (session w_batch)).1 = 0%Z ∧
    (report s').*2 =
      (report (session w_batch)).*2 ++
      header_lines (length (pptx_files (files (mkdir_parents out_md w_batch).2) ["in"]))
        ["in"] out_md false ++
      summary_lines 0
        (length (pptx_files (files (mkdir_parents out_md w_batch).2) ["in"])) out_md.
Proof.
  apply (batch_mode_ignores_failures (env slides failed) (Some converted) converted
           (Args.mk ["in"] out_md None false) (session w_batch)
           (mkdir_parents out_md w_batch).2).
  - reflexivity.
  - reflexivity.
  - reflexivity.
  - reflexivity.
  - intros fs p. exists failed. split; [reflexivity|discriminate].
  - apply (run_as (mkdir_parents out_md) w_batch). vm_compute. reflexivity.
  - vm_compute. discriminate.
Defined.

Lemma is_image_ignores_case_witness :
  is_image (media_dir out ++ ["A.PNG"]) = is_image (media_dir out ++ ["a.png"]).
Proof.
  apply (is_image_ignores_case (media_dir out ++ ["A.PNG"]) (media_dir out ++ ["a.png"])).
  vm_compute. reflexivity.
Defined.

Lemma convert_reports_outcome_witness :
  ∃ rest,
    console (convert_pptx_to_markdown (env slides failed) deck out true w0).2 =
      console w0 ++ Processing (PurePath.name deck) :: rest ∧
    processed rest = [] ∧ created rest = 0 ∧ errors rest = 1.
Proof.
  apply (convert_reports_outcome (env slides failed) deck out true w0 (Ok false)).
  apply run_as. vm_compute. reflexivity.
Defined.

End driver_witnesses.
